(** * Per-account connection lifecycle manager: a shallow embedding

  The development follows the JavaScript sources of the multi-account
  desktop client:

  - [JsString]: the string primitives the sources use
    ([toLowerCase], [includes], [replace(/\D/g, "")], template literals);
  - [JsDate]: [Date.parse] on the format [toISOString] writes;
  - [NodePath]: [path.join] of Node's [path] module (POSIX flavour);
  - [LocalAuth]: the check the constructor of whatsapp-web.js's
    [LocalAuth] makes on a client id;
  - [ErrorHandler]: [src/error-handler.js] (classification, retry policy,
    recent-error log);
  - [AccountManager]: [src/account-manager.js] (registry, admission,
    isolation paths, [sendMessage]);
  - [Handshake]: the two [waitForQR] waiters and the [getQRCode] cascade
    of the handshake-capable account manager;
  - [ErrorReports]: the reporting and maintenance functions of the error
    handler ([getRecentErrors], [getErrorStats], [cleanup]);
  - [AccountOps]: the client listeners, [getQRCode], [switchAccount],
    [getAccountsStatus] and [cleanup] of [src/account-manager.js];
  - [RetryLoop]: the [getQRCode] that retries up to three times;
  - [MainProcess]: the IPC handlers of the main process;
  - [Preload]: the validation helper of [preload.js];
  - [AutoMessaging]: [src/auto-messaging.js] (schedules, their timers and
    executions, templates).

  Strings are sequences of ASCII characters; JavaScript numbers that the
  sources only use as small integers are [Z]; a JavaScript [Map] used as a
  dictionary is a [gmap]; effects (timers, window messages, file appends)
  are recorded in an explicit trace carried by the state. *)

From Stdlib Require Import ZArith Ascii String List Bool Lia.
From stdpp Require Import base option list gmap strings pretty.

Local Open Scope Z_scope.

(** ** JavaScript string primitives *)
Module JsString.

(** [String.prototype.toLowerCase] on the characters of the model, which
    are the ASCII characters: the letters [A] to [Z] are lowered. JavaScript
    also lowers letters outside ASCII (U+212A becomes [k]); texts with such
    characters are outside the model. *)
Definition lower_ascii (c : ascii) : ascii :=
  let n := N_of_ascii c in
  if ((65 <=? n) && (n <=? 90))%N then ascii_of_N (n + 32) else c.

Fixpoint toLowerCase (s : string) : string :=
  match s with
  | EmptyString => EmptyString
  | String c s' => String (lower_ascii c) (toLowerCase s')
  end.

(** [String.prototype.toUpperCase], restricted to ASCII letters. *)
Definition upper_ascii (c : ascii) : ascii :=
  let n := N_of_ascii c in
  if ((97 <=? n) && (n <=? 122))%N then ascii_of_N (n - 32) else c.

Fixpoint toUpperCase (s : string) : string :=
  match s with
  | EmptyString => EmptyString
  | String c s' => String (upper_ascii c) (toUpperCase s')
  end.

(** JavaScript truthiness of a string: only the empty string is falsy. *)
Definition truthy (s : string) : bool :=
  match s with EmptyString => false | String _ _ => true end.

(** [String.prototype.startsWith]. *)
Fixpoint startsWith (s p : string) {struct p} : bool :=
  match p, s with
  | EmptyString, _ => true
  | String _ _, EmptyString => false
  | String a p', String b s' => if Ascii.eqb a b then startsWith s' p' else false
  end.

(** [String.prototype.includes]: [sub] occurs at some offset of [s]. *)
Fixpoint includes (s sub : string) : bool :=
  startsWith s sub ||
  match s with
  | EmptyString => false
  | String _ s' => includes s' sub
  end.

(** The character class [\d] and its complement [\D]. *)
Definition isDigit (c : ascii) : bool :=
  let n := N_of_ascii c in ((48 <=? n) && (n <=? 57))%N.

(** [s.replace(/\D/g, "")]: every non-digit character is deleted. *)
Fixpoint replaceNonDigits (s : string) : string :=
  match s with
  | EmptyString => EmptyString
  | String c s' =>
      if isDigit c then String c (replaceNonDigits s') else replaceNonDigits s'
  end.

(** Whether some character of [s] is a digit. *)
Fixpoint hasDigit (s : string) : bool :=
  match s with
  | EmptyString => false
  | String c s' => isDigit c || hasDigit s'
  end.

(** The text a template literal inserts for an integer number. *)
Definition ofNumber (n : Z) : string := pretty n.

(** Declarative reading of [includes]. *)
Definition occursIn (sub s : string) : Prop :=
  exists pre post : string, s = pre +:+ sub +:+ post.

End JsString.

(** ** [Date.parse] on the format of [toISOString] *)
Module JsDate.
Import JsString.

(** The digit at offset [i] of [s]. *)
Definition digitAt (s : string) (i : nat) : option Z :=
  match String.get i s with
  | Some c => if isDigit c then Some (Z.of_N (N_of_ascii c) - 48) else None
  | None => None
  end.

(** The number written with [len] digits from offset [i] on. *)
Fixpoint numberAt (s : string) (i len : nat) (acc : Z) : option Z :=
  match len with
  | O => Some acc
  | S len' =>
      match digitAt s i with
      | Some d => numberAt s (S i) len' (10 * acc + d)
      | None => None
      end
  end.

Definition charAt (s : string) (i : nat) (c : ascii) : bool :=
  match String.get i s with
  | Some c' => Ascii.eqb c c'
  | None => false
  end.

(** [MakeDay]: the days from 1970-01-01 to day [d] of month [m] of year
    [y] in the proleptic Gregorian calendar; a day past the end of its
    month runs on into the next one. *)
Definition daysFromCivil (y m d : Z) : Z :=
  let y := if m <=? 2 then y - 1 else y in
  let era := y / 400 in
  let yoe := y - era * 400 in
  let mp := if 2 <? m then m - 3 else m + 9 in
  let doy := (153 * mp + 2) / 5 + d - 1 in
  let doe := yoe * 365 + yoe / 4 - yoe / 100 + doy in
  era * 146097 + doe - 719468.

(** [new Date(s).getTime()] for a text in the format [toISOString] writes,
    [YYYY-MM-DDTHH:mm:ss.sssZ]: months 1 to 12, days 1 to 31, hours up to
    23 (or 24:00:00.000), minutes and seconds up to 59. Any other text is
    [None], the [NaN] of an Invalid Date; that is what the engine answers
    for a text that is no date, such as a plain number of milliseconds, but
    the further formats [Date.parse] reads are not covered. *)
Definition parseIso (s : string) : option Z :=
  if negb ((String.length s =? 24)%nat && charAt s 4 "-" && charAt s 7 "-" &&
           charAt s 10 "T" && charAt s 13 ":" && charAt s 16 ":" &&
           charAt s 19 "." && charAt s 23 "Z")
  then None
  else
    match numberAt s 0 4 0, numberAt s 5 2 0, numberAt s 8 2 0, numberAt s 11 2 0,
          numberAt s 14 2 0, numberAt s 17 2 0, numberAt s 20 3 0 with
    | Some y, Some m, Some d, Some h, Some mi, Some sec, Some ms =>
        if (1 <=? m) && (m <=? 12) && (1 <=? d) && (d <=? 31) &&
           (mi <=? 59) && (sec <=? 59) &&
           ((h <=? 23) || ((h =? 24) && (mi =? 0) && (sec =? 0) && (ms =? 0)))
        then Some (((daysFromCivil y m d * 24 + h) * 60 + mi) * 60000 + sec * 1000 + ms)
        else None
    | _, _, _, _, _, _, _ => None
    end.

End JsDate.

(** ** [path.join] of Node's [path] module, POSIX flavour *)
Module NodePath.
Import JsString.

(** [s.split("/")]. *)
Fixpoint split (s : string) : list string :=
  match s with
  | EmptyString => [EmptyString]
  | String c s' =>
      if Ascii.eqb c "/" then EmptyString :: split s'
      else match split s' with
           | [] => [String c EmptyString]
           | seg :: rest => String c seg :: rest
           end
  end.

(** [normalizeString]: empty and ["."] segments are dropped, [".."] removes
    the segment before it (or is kept, for a relative path, when there is
    none to remove). [res] holds the segments kept so far, last one first. *)
Fixpoint normalizeSegments (allowAboveRoot : bool) (segs res : list string)
  : list string :=
  match segs with
  | [] => rev res
  | seg :: segs' =>
      if String.eqb seg "" || String.eqb seg "." then
        normalizeSegments allowAboveRoot segs' res
      else if String.eqb seg ".." then
        match res with
        | last :: res' =>
            if String.eqb last ".." then
              normalizeSegments allowAboveRoot segs'
                (if allowAboveRoot then seg :: res else res)
            else normalizeSegments allowAboveRoot segs' res'
        | [] =>
            normalizeSegments allowAboveRoot segs'
              (if allowAboveRoot then [seg] else [])
        end
      else normalizeSegments allowAboveRoot segs' (seg :: res)
  end.

Fixpoint endsWithSep (s : string) : bool :=
  match s with
  | EmptyString => false
  | String c EmptyString => Ascii.eqb c "/"
  | String _ s' => endsWithSep s'
  end.

(** [path.posix.normalize]. *)
Definition normalize (path : string) : string :=
  if negb (truthy path) then "." else
  let isAbsolute := startsWith path "/" in
  let trailingSeparator := endsWithSep path in
  let body :=
    String.concat "/" (normalizeSegments (negb isAbsolute) (split path) []) in
  if negb (truthy body) then
    if isAbsolute then "/" else if trailingSeparator then "./" else "."
  else
    (if isAbsolute then "/" else "") +:+ body +:+
    (if trailingSeparator then "/" else "").

(** [path.posix.join(...args)]: the non-empty arguments are glued with
    ["/"] and the result is normalized. *)
Definition join (args : list string) : string :=
  match List.filter truthy args with
  | [] => "."
  | parts => normalize (String.concat "/" parts)
  end.

(** Whether a string is free of the path separator. *)
Fixpoint noSeparator (s : string) : bool :=
  match s with
  | EmptyString => true
  | String c s' => negb (Ascii.eqb c "/") && noSeparator s'
  end.

End NodePath.

(** ** [src/error-handler.js]: class [ErrorHandler] *)
Module ErrorHandler.
Import JsString.

(** A value handed to the handler as [error]: an [Error] object with its
    [name] and [message], or a plain string. *)
Inductive js_error :=
| ErrorObj (name message : string)
| ErrorStr (text : string).

(** [error.message]; a string has no such property. *)
Definition message (error : js_error) : option string :=
  match error with
  | ErrorObj _ m => Some m
  | ErrorStr _ => None
  end.

(** [error.toString()]. *)
Definition toString (error : js_error) : string :=
  match error with
  | ErrorObj n m =>
      if negb (truthy n) then m
      else if negb (truthy m) then n
      else n +:+ ": " +:+ m
  | ErrorStr s => s
  end.

(** [error.message || error.toString()]. *)
Definition errorMessage (error : js_error) : string :=
  match message error with
  | Some m => if truthy m then m else toString error
  | None => toString error
  end.

(** The text a template literal gives for [error.message]. *)
Definition messageText (error : js_error) : string :=
  match message error with
  | Some m => m
  | None => "undefined"
  end.

(** [error.message || error]: the value stored as [errorInfo.error]. *)
Inductive error_value :=
| ErrText (s : string)
| ErrObject (e : js_error).

Definition errorOrMessage (error : js_error) : error_value :=
  match error with
  | ErrorObj _ m => if truthy m then ErrText m else ErrObject error
  | ErrorStr s => ErrText s
  end.

Definition criticalMessages : list string :=
  [ "Authentication failure"; "Account banned"; "Invalid session";
    "Protocol error"; "Unauthorized"; "Account not found" ].

Definition networkMessages : list string :=
  [ "network error"; "connection refused"; "timeout"; "socket hang up";
    "getaddrinfo"; "connect ETIMEDOUT"; "connect ECONNREFUSED" ].

(** [messages.some(msg => errorMessage.toLowerCase().includes(msg.toLowerCase()))]. *)
Definition someIncluded (messages : list string) (errorMessage : string) : bool :=
  existsb (fun msg => includes (toLowerCase errorMessage) (toLowerCase msg)) messages.

Definition isCriticalError (error : js_error) : bool :=
  someIncluded criticalMessages (errorMessage error).

Definition isNetworkError (error : js_error) : bool :=
  someIncluded networkMessages (errorMessage error).

(** The three branches of [handleAccountError]. *)
Inductive severity := Critical | NetworkTransient | Generic.

Definition classify (error : js_error) : severity :=
  if isCriticalError error then Critical
  else if isNetworkError error then NetworkTransient
  else Generic.

(** Constants assigned once by the constructor. *)
Definition maxRetries : Z := 3.
Definition retryDelay : Z := 10000.
Definition maxRecentErrors : nat := 50.
Definition logPath : string := NodePath.join ["./data/logs"; "errors.log"].

(** What a call reads from its surroundings: the clock and whether
    [global.mainWindow] is set. *)
Record env := Env {
  now : Z;                (* Date.now() *)
  isoNow : string;        (* new Date().toISOString() *)
  mainWindow : bool       (* global.mainWindow is truthy *)
}.

(** The [errorInfo] object; its [stack] field, which only goes to the log
    file, is left out. *)
Record errorInfo := ErrorInfo {
  info_accountId : string;
  info_error : error_value;
  info_context : string;
  info_timestamp : string
}.

Record recentError := RecentError {
  re_id : string;
  re_accountId : string;
  re_error : error_value;
  re_context : string;
  re_timestamp : string
}.

(** Messages sent with [global.mainWindow.webContents.send]. *)
Inductive payload :=
| AccountUpdate (accountId status : string) (error : option string)
| AccountRetry (accountId : string)
| ErrorNotification (message type : string) (timestamp : Z).

(** The callback handed to [setTimeout]. *)
Inductive task := RetryAccountConnection (accountId : string).

(** Observable effects, in the order they happen. Plain diagnostic
    [console.log]/[console.error] lines are left out; the console line of
    [notifyUser] is kept because it is the channel that always fires. *)
Inductive effect :=
| AppendFile (path : string) (entry : errorInfo)
| Console (method text : string)
| WindowSend (channel : string) (p : payload)
| SetTimeout (t : task) (delay : Z).

Record state := State {
  retryAttempts : gmap string Z;
  recentErrors : list recentError;
  trace : list effect
}.

(** [new ErrorHandler()]. *)
Definition new : state :=
  {| retryAttempts := ∅; recentErrors := []; trace := [] |}.

Definition emit (e : effect) (st : state) : state :=
  {| retryAttempts := retryAttempts st;
     recentErrors := recentErrors st;
     trace := trace st ++ [e] |}.

Definition setRetries (m : gmap string Z) (st : state) : state :=
  {| retryAttempts := m; recentErrors := recentErrors st; trace := trace st |}.

Definition setRecent (l : list recentError) (st : state) : state :=
  {| retryAttempts := retryAttempts st; recentErrors := l; trace := trace st |}.

(** [this.retryAttempts.get(accountId) || 0]. *)
Definition retriesOf (st : state) (accountId : string) : Z :=
  match retryAttempts st !! accountId with
  | Some r => if r =? 0 then 0 else r
  | None => 0
  end.

Definition notifyUser (ev : env) (message type : string) (st : state) : state :=
  let logMethod :=
    if String.eqb type "critical" || String.eqb type "error" then "error"
    else if String.eqb type "warning" then "warn" else "log" in
  let st := emit (Console logMethod ("[" +:+ toUpperCase type +:+ "] " +:+ message)) st in
  if mainWindow ev then
    emit (WindowSend "error:notification" (ErrorNotification message type (now ev))) st
  else st.

Definition logError (info : errorInfo) (st : state) : state :=
  emit (AppendFile logPath info) st.

(** The object literal [addToRecentErrors] puts in front of the log. *)
Definition entryOf (ev : env) (info : errorInfo) : recentError :=
  {| re_id := ofNumber (now ev);
     re_accountId := info_accountId info;
     re_error := info_error info;
     re_context := info_context info;
     re_timestamp := info_timestamp info |}.

Definition addToRecentErrors (ev : env) (info : errorInfo) (st : state) : state :=
  let unshifted := entryOf ev info :: recentErrors st in
  if (maxRecentErrors <? length unshifted)%nat
  then setRecent (firstn maxRecentErrors unshifted) st
  else setRecent unshifted st.

Definition handleCriticalError (ev : env) (accountId : string) (error : js_error)
    (context : string) (st : state) : state :=
  let st := notifyUser ev
    ("Account " +:+ accountId +:+ " disabled due to critical error: " +:+ messageText error)
    "critical" st in
  let st := setRetries (delete accountId (retryAttempts st)) st in
  if mainWindow ev then
    emit (WindowSend "account:update" (AccountUpdate accountId "disabled" (message error))) st
  else st.

Definition handleNetworkError (ev : env) (accountId : string) (error : js_error)
    (context : string) (st : state) : state :=
  let networkRetryDelay := 5000 in
  let retries := retriesOf st accountId in
  if retries <? maxRetries then
    let st := setRetries (<[accountId := retries + 1]> (retryAttempts st)) st in
    let st := notifyUser ev
      ("Network error for account " +:+ accountId +:+ ". Retrying in 5 seconds... (" +:+
       ofNumber (retries + 1) +:+ "/" +:+ ofNumber maxRetries +:+ ")")
      "warning" st in
    emit (SetTimeout (RetryAccountConnection accountId) networkRetryDelay) st
  else
    let st := notifyUser ev
      ("Account " +:+ accountId +:+ " failed after " +:+ ofNumber maxRetries +:+
       " network retry attempts")
      "error" st in
    setRetries (delete accountId (retryAttempts st)) st.

Definition handleRetryableError (ev : env) (accountId : string) (error : js_error)
    (context : string) (st : state) : state :=
  let retries := retriesOf st accountId in
  if retries <? maxRetries then
    let st := setRetries (<[accountId := retries + 1]> (retryAttempts st)) st in
    let delay := retryDelay * 2 ^ retries in
    let st := notifyUser ev
      ("Error in account " +:+ accountId +:+ ": " +:+ messageText error +:+
       ". Retrying in " +:+ ofNumber (delay / 1000) +:+ " seconds... (" +:+
       ofNumber (retries + 1) +:+ "/" +:+ ofNumber maxRetries +:+ ")")
      "warning" st in
    emit (SetTimeout (RetryAccountConnection accountId) delay) st
  else
    let st := notifyUser ev
      ("Account " +:+ accountId +:+ " failed after " +:+ ofNumber maxRetries +:+
       " retry attempts. Manual intervention required.")
      "error" st in
    setRetries (delete accountId (retryAttempts st)) st.

Definition handleAccountError (ev : env) (accountId : string) (error : js_error)
    (context : string) (st : state) : state :=
  let info :=
    {| info_accountId := accountId;
       info_error := errorOrMessage error;
       info_context := context;
       info_timestamp := isoNow ev |} in
  let st := logError info st in
  let st := addToRecentErrors ev info st in
  if isCriticalError error then handleCriticalError ev accountId error context st
  else if isNetworkError error then handleNetworkError ev accountId error context st
  else handleRetryableError ev accountId error context st.

(** [handleError]: errors of the application itself, logged under the
    account id ["system"]. *)
Definition handleError (ev : env) (context : string) (error : js_error) (st : state)
  : state :=
  let info :=
    {| info_accountId := "system";
       info_error := errorOrMessage error;
       info_context := context;
       info_timestamp := isoNow ev |} in
  let st := logError info st in
  let st := addToRecentErrors ev info st in
  notifyUser ev ("System Error: " +:+ messageText error) "error" st.

(** The timer callback. *)
Definition retryAccountConnection (ev : env) (accountId : string) (st : state) : state :=
  if mainWindow ev then emit (WindowSend "account:retry" (AccountRetry accountId)) st
  else st.

Definition clearRetries (accountId : string) (st : state) : state :=
  match retryAttempts st !! accountId with
  | Some _ => setRetries (delete accountId (retryAttempts st)) st
  | None => st
  end.

(** What can happen to the handler, one entry per turn of the event loop. *)
Inductive input :=
| ErrorEvent (accountId : string) (error : js_error) (context : string)
| SystemError (context : string) (error : js_error)
| TimerFires (t : task)
| Recovered (accountId : string).

Definition step (st : state) (i : env * input) : state :=
  match i with
  | (ev, ErrorEvent accountId error context) =>
      handleAccountError ev accountId error context st
  | (ev, SystemError context error) => handleError ev context error st
  | (ev, TimerFires (RetryAccountConnection accountId)) =>
      retryAccountConnection ev accountId st
  | (_, Recovered accountId) => clearRetries accountId st
  end.

Definition run (inputs : list (env * input)) (st : state) : state :=
  fold_left step inputs st.

(** Every stored counter is between 1 and [maxRetries]. *)
Definition countersBounded (st : state) : Prop :=
  forall accountId r, retryAttempts st !! accountId = Some r -> 1 <= r <= maxRetries.

(** Inputs that are not a network-transient or generic error. *)
Definition criticalOnly (i : env * input) : Prop :=
  match snd i with
  | ErrorEvent _ error _ => classify error = Critical
  | SystemError _ _ | TimerFires _ | Recovered _ => True
  end.

(** A clock reading and an open main window, for the worked examples. *)
Definition sampleEnv : env :=
  {| now := 1700000000000; isoNow := "2023-11-14T22:13:20.000Z"; mainWindow := true |}.

(** A series of insertions into the recent-error log, oldest first. *)
Definition entryOfInput (i : env * errorInfo) : recentError :=
  entryOf (fst i) (snd i).

Definition insertAll (inputs : list (env * errorInfo)) (st : state) : state :=
  fold_left (fun s i => addToRecentErrors (fst i) (snd i) s) inputs st.

(** The retries a trace schedules: account and delay of every [setTimeout]. *)
Definition scheduled (tr : list effect) : list (string * Z) :=
  omap (fun e => match e with
                 | SetTimeout (RetryAccountConnection a) d => Some (a, d)
                 | _ => None
                 end) tr.

End ErrorHandler.

(** ** JavaScript completions: a value is returned or an error is thrown *)
Module Js.

Inductive completion (A : Type) :=
| Return (a : A)
| Throw (message : string).
Arguments Return {A} a.
Arguments Throw {A} message.

(** A computation over a mutable world [S]. A [throw] keeps the world as
    it is at that point: nothing is rolled back. *)
Definition M (S A : Type) : Type := S -> completion A * S.

Definition ret {S A} (a : A) : M S A := fun s => (Return a, s).
Definition throw {S A} (message : string) : M S A := fun s => (Throw message, s).
Definition bind {S A B} (m : M S A) (k : A -> M S B) : M S B :=
  fun s => match m s with
           | (Return a, s') => k a s'
           | (Throw e, s') => (Throw e, s')
           end.
Definition get {S} : M S S := fun s => (Return s, s).
Definition modify {S} (f : S -> S) : M S unit := fun s => (Return tt, f s).

End Js.

Declare Scope js_scope.
Delimit Scope js_scope with js.
Notation "x <- m ;; k" := (Js.bind m (fun x => k))
  (at level 100, m at next level, right associativity) : js_scope.
Notation "m ;;; k" := (Js.bind m (fun _ => k))
  (at level 100, right associativity) : js_scope.

(** ** The client id check of [LocalAuth] (whatsapp-web.js) *)
Module LocalAuth.
Import JsString.

(** The characters of the class [[-_\w]]: letters, digits, underscore and
    hyphen. *)
Definition idChar (c : ascii) : bool :=
  let n := N_of_ascii c in
  (((48 <=? n) && (n <=? 57)) || ((65 <=? n) && (n <=? 90)) ||
   ((97 <=? n) && (n <=? 122)) || (n =? 95) || (n =? 45))%N.

Fixpoint idChars (s : string) : bool :=
  match s with
  | EmptyString => true
  | String c s' => idChar c && idChars s'
  end.

(** [/^[-_\w]+$/i.test(clientId)]. *)
Definition test (clientId : string) : bool := truthy clientId && idChars clientId.

(** The constructor throws when [clientId && !idRegex.test(clientId)]. *)
Definition rejects (clientId : string) : bool := truthy clientId && negb (test clientId).

Definition invalidClientId : string :=
  "Invalid clientId. Only alphanumeric characters, underscores and hyphens are allowed.".

End LocalAuth.

(** ** [src/account-manager.js]: class [AccountManager] *)
Module AccountManager.
Import JsString Js.

(** The [headless] option of the browser: [true], [false] or ["new"]. *)
Inductive headlessMode := Headless (b : bool) | HeadlessNew.

(** The options a [Client] is constructed with. *)
Record client := Client {
  clientId : string;            (* authStrategy: LocalAuth clientId *)
  authDataPath : string;        (* authStrategy: LocalAuth dataPath *)
  headless : headlessMode;
  executablePath : option string;
  args : list string
}.

Record messageData := MessageData {
  msg_id : string;
  msg_to : string;
  msg_body : string;
  msg_timestamp : Z;
  msg_accountId : string;
  msg_status : string
}.

Record chatSummary := ChatSummary {
  chat_id : string;
  chat_name : string;
  chat_isGroup : bool;
  chat_unreadCount : Z;
  chat_accountId : string
}.

Record uiState := UiState {
  selectedChat : option string;
  messageCache : gmap string (list messageData);
  contactList : list chatSummary;
  unreadCount : Z;
  onlineStatus : string
}.

Record accountInfo := AccountInfo {
  accountId : string;
  displayName : string;
  accountClient : client;
  dataPath : string;
  chromeProfilePath : string;
  isActive : bool;
  isAuthenticated : bool;
  lastAccessed : Z;
  ui : uiState
}.

(** Callbacks handed to [setTimeout] by [setupClientEventHandlers]. *)
Inductive watchdog :=
| QrTimeout (accountId : string)
| CriticalTimeout (accountId : string).

Inductive effect :=
| Mkdir (path : string)
| HandlersRegistered (clientId accountId : string)
| SetTimeout (w : watchdog) (delay : Z)
| ClientSendMessage (clientId to body : string).

(** The manager together with the part of the world it acts on: the
    directories that exist and the trace of effects. *)
Record manager := Manager {
  accounts : gmap string accountInfo;
  activeAccount : option string;
  directories : gset string;
  effects : list effect
}.

Definition maxAccounts : nat := 10.

(** [new AccountManager(errorHandler)], on a disk with directories [dirs]. *)
Definition new (dirs : gset string) : manager :=
  {| accounts := ∅; activeAccount := None; directories := dirs; effects := [] |}.

Definition emit (e : effect) : M manager unit :=
  modify (fun st => {| accounts := accounts st; activeAccount := activeAccount st;
                       directories := directories st; effects := effects st ++ [e] |}).

Definition setAccount (id : string) (a : accountInfo) : M manager unit :=
  modify (fun st => {| accounts := <[id := a]> (accounts st);
                       activeAccount := activeAccount st;
                       directories := directories st; effects := effects st |}).

(** The directories on the way to a relative path, from the outermost one
    down to the path itself. *)
Fixpoint pathsDownTo (above : string) (segs : list string) : list string :=
  match segs with
  | [] => []
  | seg :: rest =>
      let here := if truthy above then above +:+ "/" +:+ seg else seg in
      here :: pathsDownTo here rest
  end.

(** What [fs.mkdirSync(p, { recursive: true })] makes sure of: [p] and
    every directory above it. Directories are named without a trailing
    separator. *)
Definition ancestors (p : string) : list string :=
  pathsDownTo "" (List.filter truthy (NodePath.split p)).

(** [fs.existsSync(p)] for a relative directory path; the current
    directory and the directories above it always exist. *)
Definition existsSync (p : string) (dirs : gset string) : bool :=
  let segs := List.filter truthy (NodePath.split p) in
  truthy p &&
  (forallb (fun seg => String.eqb seg "." || String.eqb seg "..") segs ||
   bool_decide (String.concat "/" segs ∈ dirs)).

(** [if (!fs.existsSync(p)) fs.mkdirSync(p, { recursive: true })]. *)
Definition ensureDirectory (p : string) : M manager unit :=
  (st <- get ;;
   if existsSync p (directories st) then ret tt
   else
     modify (fun st => {| accounts := accounts st; activeAccount := activeAccount st;
                          directories := list_to_set (ancestors p) ∪ directories st;
                          effects := effects st |}) ;;;
     emit (Mkdir p))%js.

(** The two namespaces derived from an account id. *)
Definition accountDataPathOf (accountId : string) : string :=
  NodePath.join ["./data/accounts"; accountId].

Definition chromeProfilePathOf (accountId : string) : string :=
  NodePath.join ["./data/chrome_profiles"; "chrome_" +:+ accountId].

Definition isolationPaths (accountId : string) : string * string :=
  (accountDataPathOf accountId, chromeProfilePathOf accountId).

(** The listeners and the two watchdog timers of [setupClientEventHandlers]. *)
Definition setupClientEventHandlers (c : client) (accountId : string) : M manager unit :=
  (emit (HandlersRegistered (clientId c) accountId) ;;;
   emit (SetTimeout (QrTimeout accountId) 30000) ;;;
   emit (SetTimeout (CriticalTimeout accountId) 60000))%js.

Record accountData := AccountData {
  data_accountId : string;
  data_displayName : string
}.

Record created := Created {
  created_accountId : string;
  created_displayName : string;
  created_status : string
}.

Definition createAccount (now : Z) (data : accountData) : M manager created :=
  (let accountId := data_accountId data in
   let displayName := data_displayName data in
   st <- get ;;
   if (maxAccounts <=? size (accounts st))%nat then
     throw ("Maximum " +:+ pretty maxAccounts +:+ " accounts allowed")
   else if decide (is_Some (accounts st !! accountId)) then
     throw ("Account " +:+ accountId +:+ " already exists")
   else
     let accountDataPath := NodePath.join ["./data/accounts"; accountId] in
     let chromeProfilePath :=
       NodePath.join ["./data/chrome_profiles"; "chrome_" +:+ accountId] in
     ensureDirectory accountDataPath ;;;
     ensureDirectory chromeProfilePath ;;;
     if LocalAuth.rejects ("account_" +:+ accountId) then
       throw LocalAuth.invalidClientId
     else
     let client :=
       {| clientId := "account_" +:+ accountId;
          authDataPath := accountDataPath;
          headless := Headless true;
          executablePath := None;
          args := [ "--no-sandbox"; "--disable-setuid-sandbox";
                    "--disable-dev-shm-usage"; "--disable-accelerated-2d-canvas";
                    "--no-first-run"; "--no-zygote"; "--disable-gpu";
                    "--user-data-dir=" +:+ chromeProfilePath ] |} in
     let accountInfo :=
       {| accountId := accountId;
          displayName := displayName;
          accountClient := client;
          dataPath := accountDataPath;
          chromeProfilePath := chromeProfilePath;
          isActive := false;
          isAuthenticated := false;
          lastAccessed := now;
          ui := {| selectedChat := None; messageCache := ∅; contactList := [];
                   unreadCount := 0; onlineStatus := "offline" |} |} in
     setupClientEventHandlers client accountId ;;;
     setAccount accountId accountInfo ;;;
     ret {| created_accountId := accountId; created_displayName := displayName;
            created_status := "created" |})%js.

(** [createSimpleIsolatedClient]; [chrome] is what [findChromeExecutable]
    finds on the machine. The function is reached from [getQRCode] only,
    after the account was found in the registry; [createAccount] registered
    it with the same client id, which [LocalAuth] accepted then, so the
    check of the constructor is not repeated here. *)
Definition createSimpleIsolatedClient (chrome : option string) (accountId : string)
  : M manager client :=
  (let accountDataPath := NodePath.join ["./data/accounts"; accountId] in
   let chromeProfilePath :=
     NodePath.join ["./data/chrome_profiles"; "chrome_" +:+ accountId] in
   ensureDirectory accountDataPath ;;;
   ensureDirectory chromeProfilePath ;;;
   ret {| clientId := "account_" +:+ accountId;
          authDataPath := accountDataPath;
          headless := Headless false;
          executablePath := chrome;
          args := [ "--no-sandbox"; "--disable-setuid-sandbox";
                    "--disable-dev-shm-usage"; "--no-first-run";
                    "--no-default-browser-check"; "--disable-web-security";
                    "--disable-features=VizDisplayCompositor";
                    "--user-data-dir=" +:+ chromeProfilePath ] |})%js.

(** [account.uiState.messageCache]: [set(chatId, [])] when the chat is new,
    then [push]. *)
Definition pushMessage (chatId : string) (m : messageData) (u : uiState) : uiState :=
  let cache :=
    match messageCache u !! chatId with
    | Some _ => messageCache u
    | None => <[chatId := []]> (messageCache u)
    end in
  {| selectedChat := selectedChat u;
     messageCache := <[chatId := default [] (cache !! chatId) ++ [m]]> cache;
     contactList := contactList u;
     unreadCount := unreadCount u;
     onlineStatus := onlineStatus u |}.

Definition withUi (u : uiState) (a : accountInfo) : accountInfo :=
  {| accountId := accountId a; displayName := displayName a;
     accountClient := accountClient a; dataPath := dataPath a;
     chromeProfilePath := chromeProfilePath a; isActive := isActive a;
     isAuthenticated := isAuthenticated a; lastAccessed := lastAccessed a;
     ui := u |}.

(** [sendMessage]; [reply] is how [account.client.sendMessage] completes:
    with the serialized id of the message, or by throwing. *)
Definition sendMessage (now : Z) (reply : completion string)
    (accountId phoneNumber messageText : string) : M manager messageData :=
  (st <- get ;;
   match accounts st !! accountId with
   | None => throw ("Account " +:+ accountId +:+ " not found")
   | Some account =>
       if negb (isActive account) || negb (isAuthenticated account) then
         throw ("Account " +:+ accountId +:+ " is not ready")
       else
         let cleanPhone := replaceNonDigits phoneNumber in
         let formattedPhone := cleanPhone +:+ "@c.us" in
         emit (ClientSendMessage (clientId (accountClient account))
                 formattedPhone messageText) ;;;
         match reply with
         | Throw error => throw error
         | Return serialized =>
             let messageData :=
               {| msg_id := serialized; msg_to := formattedPhone;
                  msg_body := messageText; msg_timestamp := now;
                  msg_accountId := accountId; msg_status := "sent" |} in
             let chatId := formattedPhone in
             setAccount accountId (withUi (pushMessage chatId messageData (ui account)) account) ;;;
             ret messageData
         end
   end)%js.

(** A series of creation requests, each with its clock reading. *)
Definition createAll (requests : list (Z * accountData)) (st : manager) : manager :=
  fold_left (fun s r => snd (createAccount (fst r) (snd r) s)) requests st.

(** Worked example: ten accounts created on an empty disk. *)
Definition tenAccounts : manager :=
  createAll
    (map (fun k => (1700000000000 + Z.of_nat k,
                    {| data_accountId := "account_" +:+ pretty k;
                       data_displayName := "Line " +:+ pretty k |}))
         (seq 1 10))
    (new ∅).

(** Worked example: an account that is ready and authenticated, as the
    [ready] listener leaves it. *)
Definition readyAccount (a : accountInfo) : accountInfo :=
  {| accountId := accountId a; displayName := displayName a;
     accountClient := accountClient a; dataPath := dataPath a;
     chromeProfilePath := chromeProfilePath a; isActive := true;
     isAuthenticated := true; lastAccessed := lastAccessed a;
     ui := ui a |}.

(** Worked example: the record [createAccount] stores for ["account_1"]. *)
Definition firstAccount : accountInfo :=
  {| accountId := "account_1";
     displayName := "Line 1";
     accountClient :=
       {| clientId := "account_account_1";
          authDataPath := "data/accounts/account_1";
          headless := Headless true;
          executablePath := None;
          args := [ "--no-sandbox"; "--disable-setuid-sandbox";
                    "--disable-dev-shm-usage"; "--disable-accelerated-2d-canvas";
                    "--no-first-run"; "--no-zygote"; "--disable-gpu";
                    "--user-data-dir=data/chrome_profiles/chrome_account_1" ] |};
     dataPath := "data/accounts/account_1";
     chromeProfilePath := "data/chrome_profiles/chrome_account_1";
     isActive := false;
     isAuthenticated := false;
     lastAccessed := 1700000000000;
     ui := {| selectedChat := None; messageCache := ∅; contactList := [];
              unreadCount := 0; onlineStatus := "offline" |} |}.

Definition oneAccount : manager :=
  createAll [(1700000000000,
              {| data_accountId := "account_1"; data_displayName := "Line 1" |})]
            (new ∅).

Definition oneReadyAccount : manager :=
  let st := oneAccount in
  {| accounts := readyAccount <$> accounts st; activeAccount := activeAccount st;
     directories := directories st; effects := effects st |}.

End AccountManager.

(** ** The handshake: [waitForQR] and the [getQRCode] cascade *)
Module Handshake.
Import JsString Js.

(** What [waitForQR] resolves with. *)
Inductive qrResult :=
| QrGenerated (accountId qrCode : string)     (* status: "qr_generated" *)
| AlreadyAuthenticated (accountId : string).  (* status: "already_authenticated" *)

(** A call of the promise's [resolve] or [reject]. *)
Inductive settlement :=
| Resolved (r : qrResult)
| Rejected (message : string).

(** What the liveness probe of a health check finds: [client.pupPage] is
    missing, its page is closed, it is open, or asking throws. *)
Inductive probe := PageMissing | PageClosed | PageOpen | ProbeThrows.

(** What the event loop can run while a handshake is awaited: an event
    emitted by the client, a timer callback, or the rejection of
    [client.initialize()]. *)
Inductive event :=
| Qr (qrCode : string)
| Ready
| Authenticated
| AuthFailure (msg : string)
| Disconnected (reason : string)
| HealthTick (p : probe)
| Timeout
| InitRejected (message : string)
| GraceElapsed.

Definition asList {A} (o : option A) : list A :=
  match o with Some a => [a] | None => [] end.

(** *** [waitForQR] with the plain 90 s timeout *)
Module SimpleWaiter.

Record waiter := Waiter {
  isResolved : bool;
  timeoutId : bool;          (* the 90 s timer is pending *)
  onQr : bool;               (* the [once] listeners still registered *)
  onReady : bool;
  onAuthFailure : bool;
  onDisconnected : bool;
  initPending : bool;        (* [client.initialize()] has not settled *)
  calls : list settlement    (* calls of [resolve]/[reject], oldest first *)
}.

(** The state when the promise executor has run. *)
Definition start : waiter :=
  {| isResolved := false; timeoutId := true; onQr := true; onReady := true;
     onAuthFailure := true; onDisconnected := true; initPending := true;
     calls := [] |}.

(** [isResolved = true; cleanup(); resolve(result)/reject(error)]. *)
Definition settleOnce (s : settlement) (w : waiter) : waiter :=
  if isResolved w then w
  else {| isResolved := true;
          timeoutId := false;            (* cleanup: clearTimeout(timeoutId) *)
          onQr := onQr w; onReady := onReady w;
          onAuthFailure := onAuthFailure w; onDisconnected := onDisconnected w;
          initPending := initPending w;
          calls := calls w ++ [s] |}.

Definition resolveOnce (r : qrResult) : waiter -> waiter := settleOnce (Resolved r).
Definition rejectOnce (message : string) : waiter -> waiter := settleOnce (Rejected message).

Definition step (accountId : string) (attempt : Z) (w : waiter) (ev : event) : waiter :=
  match ev with
  | Qr qr =>
      if onQr w then
        resolveOnce (QrGenerated accountId qr)
          {| isResolved := isResolved w; timeoutId := timeoutId w; onQr := false;
             onReady := onReady w; onAuthFailure := onAuthFailure w;
             onDisconnected := onDisconnected w; initPending := initPending w;
             calls := calls w |}
      else w
  | Ready =>
      if onReady w then
        resolveOnce (AlreadyAuthenticated accountId)
          {| isResolved := isResolved w; timeoutId := timeoutId w; onQr := onQr w;
             onReady := false; onAuthFailure := onAuthFailure w;
             onDisconnected := onDisconnected w; initPending := initPending w;
             calls := calls w |}
      else w
  | AuthFailure msg =>
      if onAuthFailure w then
        rejectOnce ("Authentication failed: " +:+ msg)
          {| isResolved := isResolved w; timeoutId := timeoutId w; onQr := onQr w;
             onReady := onReady w; onAuthFailure := false;
             onDisconnected := onDisconnected w; initPending := initPending w;
             calls := calls w |}
      else w
  | Disconnected reason =>
      if onDisconnected w then
        rejectOnce ("Client disconnected: " +:+ reason)
          {| isResolved := isResolved w; timeoutId := timeoutId w; onQr := onQr w;
             onReady := onReady w; onAuthFailure := onAuthFailure w;
             onDisconnected := false; initPending := initPending w;
             calls := calls w |}
      else w
  | Timeout =>
      if timeoutId w then
        rejectOnce ("QR generation timed out after 90 seconds (attempt " +:+
                    ofNumber attempt +:+ ")")
          {| isResolved := isResolved w; timeoutId := false; onQr := onQr w;
             onReady := onReady w; onAuthFailure := onAuthFailure w;
             onDisconnected := onDisconnected w; initPending := initPending w;
             calls := calls w |}
      else w
  | InitRejected message =>
      if initPending w then
        rejectOnce ("Client initialization failed: " +:+ message)
          {| isResolved := isResolved w; timeoutId := timeoutId w; onQr := onQr w;
             onReady := onReady w; onAuthFailure := onAuthFailure w;
             onDisconnected := onDisconnected w; initPending := false;
             calls := calls w |}
      else w
  | Authenticated | HealthTick _ | GraceElapsed => w   (* nothing listens *)
  end.

Definition run (accountId : string) (attempt : Z) (evs : list event) (w : waiter) : waiter :=
  fold_left (step accountId attempt) evs w.

(** The settlement each callback of the waiter asks for. *)
Definition trigger (accountId : string) (attempt : Z) (ev : event) : option settlement :=
  match ev with
  | Qr qr => Some (Resolved (QrGenerated accountId qr))
  | Ready => Some (Resolved (AlreadyAuthenticated accountId))
  | AuthFailure msg => Some (Rejected ("Authentication failed: " +:+ msg))
  | Disconnected reason => Some (Rejected ("Client disconnected: " +:+ reason))
  | Timeout =>
      Some (Rejected ("QR generation timed out after 90 seconds (attempt " +:+
                      ofNumber attempt +:+ ")"))
  | InitRejected message => Some (Rejected ("Client initialization failed: " +:+ message))
  | Authenticated | HealthTick _ | GraceElapsed => None
  end.

(** Nothing has settled: every listener and the timer are still in place. *)
Definition pending (w : waiter) : Prop :=
  isResolved w = false /\ calls w = [] /\ timeoutId w = true /\
  onQr w = true /\ onReady w = true /\ onAuthFailure w = true /\
  onDisconnected w = true /\ initPending w = true.

(** Settled once, with the timer cancelled. *)
Definition settled (w : waiter) : Prop :=
  isResolved w = true /\ (exists s, calls w = [s]) /\ timeoutId w = false.

End SimpleWaiter.

(** *** [waitForQR] with health checks and a grace period for [initialize] *)
Module HealthWaiter.

Record waiter := Waiter {
  isResolved : bool;
  qrTimeout : bool;             (* the 70 s timer is pending *)
  healthCheckInterval : bool;   (* the 5 s interval is active *)
  healthCheckCount : Z;
  onQr : bool;                  (* the [once] listeners still registered *)
  onReady : bool;
  onAuthFailure : bool;
  onDisconnected : bool;
  initPending : bool;           (* [client.initialize()] has not settled *)
  graceTimer : option string;   (* the pending 5 s timer, with [initError.message] *)
  calls : list settlement       (* calls of [resolve]/[reject], oldest first *)
}.

Definition start : waiter :=
  {| isResolved := false; qrTimeout := true; healthCheckInterval := true;
     healthCheckCount := 0; onQr := true; onReady := true; onAuthFailure := true;
     onDisconnected := true; initPending := true; graceTimer := None; calls := [] |}.

Definition settleOnce (s : settlement) (w : waiter) : waiter :=
  if isResolved w then w
  else {| isResolved := true;
          qrTimeout := false;            (* cleanup: clearTimeout(qrTimeout) *)
          healthCheckInterval := false;  (* cleanup: clearInterval(healthCheckInterval) *)
          healthCheckCount := healthCheckCount w;
          onQr := onQr w; onReady := onReady w;
          onAuthFailure := onAuthFailure w; onDisconnected := onDisconnected w;
          initPending := initPending w; graceTimer := graceTimer w;
          calls := calls w ++ [s] |}.

Definition resolveOnce (r : qrResult) : waiter -> waiter := settleOnce (Resolved r).
Definition rejectOnce (message : string) : waiter -> waiter := settleOnce (Rejected message).

Definition timeoutDuration : Z := 70000.

Definition step (accountId : string) (attempt : Z) (w : waiter) (ev : event) : waiter :=
  match ev with
  | Qr qr =>
      if onQr w then
        resolveOnce (QrGenerated accountId qr)
          {| isResolved := isResolved w; qrTimeout := qrTimeout w;
             healthCheckInterval := healthCheckInterval w;
             healthCheckCount := healthCheckCount w; onQr := false;
             onReady := onReady w; onAuthFailure := onAuthFailure w;
             onDisconnected := onDisconnected w; initPending := initPending w;
             graceTimer := graceTimer w; calls := calls w |}
      else w
  | Ready =>
      if onReady w then
        resolveOnce (AlreadyAuthenticated accountId)
          {| isResolved := isResolved w; qrTimeout := qrTimeout w;
             healthCheckInterval := healthCheckInterval w;
             healthCheckCount := healthCheckCount w; onQr := onQr w;
             onReady := false; onAuthFailure := onAuthFailure w;
             onDisconnected := onDisconnected w; initPending := initPending w;
             graceTimer := graceTimer w; calls := calls w |}
      else w
  | AuthFailure msg =>
      if onAuthFailure w then
        rejectOnce ("Authentication failed: " +:+ msg)
          {| isResolved := isResolved w; qrTimeout := qrTimeout w;
             healthCheckInterval := healthCheckInterval w;
             healthCheckCount := healthCheckCount w; onQr := onQr w;
             onReady := onReady w; onAuthFailure := false;
             onDisconnected := onDisconnected w; initPending := initPending w;
             graceTimer := graceTimer w; calls := calls w |}
      else w
  | Disconnected reason =>
      if onDisconnected w then
        rejectOnce ("Disconnected during initialization: " +:+ reason)
          {| isResolved := isResolved w; qrTimeout := qrTimeout w;
             healthCheckInterval := healthCheckInterval w;
             healthCheckCount := healthCheckCount w; onQr := onQr w;
             onReady := onReady w; onAuthFailure := onAuthFailure w;
             onDisconnected := false; initPending := initPending w;
             graceTimer := graceTimer w; calls := calls w |}
      else w
  | HealthTick p =>
      if healthCheckInterval w then
        let w :=
          {| isResolved := isResolved w; qrTimeout := qrTimeout w;
             healthCheckInterval := healthCheckInterval w;
             healthCheckCount := healthCheckCount w + 1; onQr := onQr w;
             onReady := onReady w; onAuthFailure := onAuthFailure w;
             onDisconnected := onDisconnected w; initPending := initPending w;
             graceTimer := graceTimer w; calls := calls w |} in
        match p with
        | PageMissing | PageClosed =>
            rejectOnce "Browser page was closed unexpectedly" w
        | PageOpen | ProbeThrows =>
            if 12 <? healthCheckCount w then
              rejectOnce "Client appears to be unresponsive (health check failed)" w
            else w
        end
      else w
  | Timeout =>
      if qrTimeout w then
        rejectOnce ("Client initialization timed out after " +:+
                    ofNumber (timeoutDuration / 1000) +:+ "s (attempt " +:+
                    ofNumber attempt +:+ ")")
          {| isResolved := isResolved w; qrTimeout := false;
             healthCheckInterval := healthCheckInterval w;
             healthCheckCount := healthCheckCount w; onQr := onQr w;
             onReady := onReady w; onAuthFailure := onAuthFailure w;
             onDisconnected := onDisconnected w; initPending := initPending w;
             graceTimer := graceTimer w; calls := calls w |}
      else w
  | InitRejected message =>
      if initPending w then
        {| isResolved := isResolved w; qrTimeout := qrTimeout w;
           healthCheckInterval := healthCheckInterval w;
           healthCheckCount := healthCheckCount w; onQr := onQr w;
           onReady := onReady w; onAuthFailure := onAuthFailure w;
           onDisconnected := onDisconnected w; initPending := false;
           graceTimer := Some message; calls := calls w |}
      else w
  | GraceElapsed =>
      match graceTimer w with
      | Some message =>
          let w :=
            {| isResolved := isResolved w; qrTimeout := qrTimeout w;
               healthCheckInterval := healthCheckInterval w;
               healthCheckCount := healthCheckCount w; onQr := onQr w;
               onReady := onReady w; onAuthFailure := onAuthFailure w;
               onDisconnected := onDisconnected w; initPending := initPending w;
               graceTimer := None; calls := calls w |} in
          if negb (isResolved w) then rejectOnce ("Initialization failed: " +:+ message) w
          else w
      | None => w
      end
  | Authenticated => w   (* nothing listens *)
  end.

Definition run (accountId : string) (attempt : Z) (evs : list event) (w : waiter) : waiter :=
  fold_left (step accountId attempt) evs w.

(** The settlement each callback of the waiter asks for, in state [w]: a
    health check asks for one when the page is gone or when it is the 13th
    or a later check; the rejection of [initialize] asks for none by itself,
    its grace timer does. *)
Definition trigger (accountId : string) (attempt : Z) (w : waiter) (ev : event)
  : option settlement :=
  match ev with
  | Qr qr => Some (Resolved (QrGenerated accountId qr))
  | Ready => Some (Resolved (AlreadyAuthenticated accountId))
  | AuthFailure msg => Some (Rejected ("Authentication failed: " +:+ msg))
  | Disconnected reason =>
      Some (Rejected ("Disconnected during initialization: " +:+ reason))
  | HealthTick (PageMissing | PageClosed) =>
      Some (Rejected "Browser page was closed unexpectedly")
  | HealthTick (PageOpen | ProbeThrows) =>
      if 12 <=? healthCheckCount w
      then Some (Rejected "Client appears to be unresponsive (health check failed)")
      else None
  | Timeout =>
      Some (Rejected ("Client initialization timed out after 70s (attempt " +:+
                      ofNumber attempt +:+ ")"))
  | GraceElapsed =>
      match graceTimer w with
      | Some message => Some (Rejected ("Initialization failed: " +:+ message))
      | None => None
      end
  | InitRejected _ | Authenticated => None
  end.

(** Nothing has settled: every listener and both timers are still in place. *)
Definition pending (w : waiter) : Prop :=
  isResolved w = false /\ calls w = [] /\ qrTimeout w = true /\
  healthCheckInterval w = true /\
  onQr w = true /\ onReady w = true /\ onAuthFailure w = true /\
  onDisconnected w = true.

(** Settled once, with the timeout and the health-check interval cancelled. *)
Definition settled (w : waiter) : Prop :=
  isResolved w = true /\ (exists s, calls w = [s]) /\
  qrTimeout w = false /\ healthCheckInterval w = false.

End HealthWaiter.

(** *** The strategy cascade of [getQRCode] *)
Module Cascade.
Import AccountManager.

Inductive strategy := Simplified | Direct | Minimal.

Inductive payload :=
| QrUpdate (accountId qrCode : string)       (* "qr:update" *)
| AccountStatus (accountId status : string). (* "account:update" *)

(** Effects of the cascade and of the listeners of
    [setupClientEventHandlers]. [Trying] is the console line that opens a
    strategy. Directory creation is as in
    [AccountManager.createSimpleIsolatedClient] and is left out here. *)
Inductive effect :=
| Trying (s : strategy) (accountId : string)
| Destroyed (c : client)
| HandlersSet (c : client) (accountId : string)
| Initialized (c : client)
| PuppeteerLaunched (accountId : string)
| WindowSend (channel : string) (p : payload)
| ReconnectTimer (c : client) (delay : Z).

Record world := World {
  accounts : gmap string accountInfo;
  trace : list effect
}.

(** What one call of [getQRCode] meets: the window, the Chrome executable
    found on the machine, what the event loop runs while the first and the
    third strategy wait, and how the direct browser session ends. *)
Record surroundings := Surroundings {
  mainWindow : bool;
  chrome : option string;
  simplifiedEvents : list event;
  directOutcome : completion string;
  minimalEvents : list event
}.

Definition emit (e : effect) (st : world) : world :=
  {| accounts := accounts st; trace := trace st ++ [e] |}.

(** An update of the account object, when the registry still holds it. *)
Definition updateAccount (accountId : string) (f : accountInfo -> accountInfo)
    (st : world) : world :=
  {| accounts := alter f accountId (accounts st); trace := trace st |}.

Definition withClient (c : client) (a : accountInfo) : accountInfo :=
  {| accountId := accountId a; displayName := displayName a; accountClient := c;
     dataPath := dataPath a; chromeProfilePath := chromeProfilePath a;
     isActive := isActive a; isAuthenticated := isAuthenticated a;
     lastAccessed := lastAccessed a; ui := ui a |}.

Definition withStatus (active authenticated : bool) (status : string) (a : accountInfo)
  : accountInfo :=
  {| accountId := accountId a; displayName := displayName a;
     accountClient := accountClient a; dataPath := dataPath a;
     chromeProfilePath := chromeProfilePath a;
     isActive := active; isAuthenticated := authenticated;
     lastAccessed := lastAccessed a;
     ui := {| selectedChat := selectedChat (ui a); messageCache := messageCache (ui a);
              contactList := contactList (ui a); unreadCount := unreadCount (ui a);
              onlineStatus := status |} |}.

(** The listeners [setupClientEventHandlers] puts on client [c]. *)
Definition onClientEvent (env : surroundings) (c : client) (accountId : string)
    (ev : event) (st : world) : world :=
  match ev with
  | Qr qr =>
      if mainWindow env then emit (WindowSend "qr:update" (QrUpdate accountId qr)) st
      else st
  | Authenticated =>
      updateAccount accountId
        (fun a => withStatus (isActive a) true "authenticated" a) st
  | Ready =>
      let st := updateAccount accountId
                  (fun a => withStatus true (isAuthenticated a) "online" a) st in
      if mainWindow env
      then emit (WindowSend "account:update" (AccountStatus accountId "ready")) st
      else st
  | Disconnected reason =>
      let st := updateAccount accountId
                  (fun a => withStatus false (isAuthenticated a) "disconnected" a) st in
      emit (ReconnectTimer c 5000) st
  | AuthFailure _ | HealthTick _ | Timeout | InitRejected _ | GraceElapsed => st
  end.

(** The wait on the promise of [waitForQR]: each event first reaches the
    listeners of the account (registered first), then the waiter; the wait
    ends with the first settlement. [None]: still waiting when the given
    events are used up. *)
Fixpoint attend (env : surroundings) (c : client) (accountId : string) (attempt : Z)
    (evs : list event) (w : SimpleWaiter.waiter) (st : world)
  : option settlement * world :=
  match evs with
  | [] => (None, st)
  | ev :: evs' =>
      let st := onClientEvent env c accountId ev st in
      let w := SimpleWaiter.step accountId attempt w ev in
      match SimpleWaiter.calls w with
      | s :: _ => (Some s, st)
      | [] => attend env c accountId attempt evs' w st
      end
  end.

Definition waitForQR (env : surroundings) (c : client) (accountId : string)
    (attempt : Z) (evs : list event) (st : world) : option settlement * world :=
  attend env c accountId attempt evs SimpleWaiter.start (emit (Initialized c) st).

Definition createIsolatedClient (env : surroundings) (accountId : string) : client :=
  let accountDataPath := NodePath.join ["./data/accounts"; accountId] in
  let chromeProfilePath :=
    NodePath.join ["./data/chrome_profiles"; "chrome_" +:+ accountId] in
  {| clientId := "account_" +:+ accountId;
     authDataPath := accountDataPath;
     headless := HeadlessNew;
     executablePath := chrome env;
     args := [ "--no-sandbox"; "--disable-setuid-sandbox"; "--disable-dev-shm-usage";
               "--disable-gpu"; "--no-first-run"; "--disable-web-security";
               "--disable-features=VizDisplayCompositor";
               "--user-data-dir=" +:+ chromeProfilePath ] |}.

(** [directPuppeteerQR]: a browser of its own; the account is not touched. *)
Definition directPuppeteerQR (env : surroundings) (accountId : string) (st : world)
  : completion qrResult * world :=
  let st := emit (PuppeteerLaunched accountId) st in
  match directOutcome env with
  | Return qrCode =>
      let st :=
        if mainWindow env
        then emit (WindowSend "qr:update" (QrUpdate accountId qrCode)) st
        else st in
      (Return (QrGenerated accountId qrCode), st)
  | Throw error => (Throw error, st)
  end.

(** [if (account.client) await account.client.destroy()], errors swallowed. *)
Definition destroyClient (accountId : string) (st : world) : world :=
  match accounts st !! accountId with
  | Some account => emit (Destroyed (accountClient account)) st
  | None => st
  end.

(** [getQRCode]. [None]: the promise it awaits has not settled. *)
Definition getQRCode (env : surroundings) (accountId : string) (st : world)
  : option (completion qrResult) * world :=
  match accounts st !! accountId with
  | None => (Some (Throw ("Account " +:+ accountId +:+ " not found")), st)
  | Some account =>
      if isAuthenticated account then
        (Some (Throw ("Account " +:+ accountId +:+ " is already authenticated")), st)
      else
        (* Strategy 1 *)
        let st := emit (Trying Simplified accountId) st in
        let st := destroyClient accountId st in
        let newClient := createIsolatedClient env accountId in
        let st := updateAccount accountId (withClient newClient) st in
        let st := emit (HandlersSet newClient accountId) st in
        match waitForQR env newClient accountId 1 (simplifiedEvents env) st with
        | (None, st) => (None, st)
        | (Some (Resolved result), st) => (Some (Return result), st)
        | (Some (Rejected simpleError), st) =>
            let st := destroyClient accountId st in
            (* Strategy 2 *)
            let st := emit (Trying Direct accountId) st in
            match directPuppeteerQR env accountId st with
            | (Return result, st) => (Some (Return result), st)
            | (Throw directError, st) =>
                (* Strategy 3 *)
                let st := emit (Trying Minimal accountId) st in
                let minimalClient :=
                  {| clientId := "account_" +:+ accountId;
                     authDataPath := NodePath.join ["./data/accounts"; accountId];
                     headless := Headless true;
                     executablePath := None;
                     args := ["--no-sandbox"] |} in
                let st := updateAccount accountId (withClient minimalClient) st in
                let st := emit (HandlersSet minimalClient accountId) st in
                match waitForQR env minimalClient accountId 1 (minimalEvents env) st with
                | (None, st) => (None, st)
                | (Some (Resolved result), st) => (Some (Return result), st)
                | (Some (Rejected minimalError), st) =>
                    (Some (Throw
                       ("All QR generation strategies failed. Simplified: " +:+
                        simpleError +:+ ", Direct: " +:+ directError +:+
                        ", Minimal: " +:+ minimalError)), st)
                end
            end
        end
  end.

(** The strategies a trace shows as started, in order. *)
Definition attempted (tr : list effect) : list strategy :=
  omap (fun e => match e with Trying s _ => Some s | _ => None end) tr.

(** How a wait ends when only the waiter is looked at. *)
Definition waitOutcome (accountId : string) (attempt : Z) (evs : list event)
  : option settlement :=
  hd_error (SimpleWaiter.calls (SimpleWaiter.run accountId attempt evs SimpleWaiter.start)).

(** Whether the client reports [authenticated] among the events. *)
Definition reportsAuthenticated (evs : list event) : bool :=
  existsb (fun ev => match ev with Authenticated => true | _ => false end) evs.

(** The [isAuthenticated] flag of an account, when the registry holds it. *)
Definition authenticatedFlag (st : world) (accountId : string) : option bool :=
  isAuthenticated <$> accounts st !! accountId.

(** Worked example: one account, just created. *)
Definition oneAccountWorld : world :=
  {| accounts := AccountManager.accounts oneAccount; trace := [] |}.

(** Worked example: every strategy fails and no [authenticated] event is
    reported. *)
Definition allStrategiesFail : surroundings :=
  {| mainWindow := true; chrome := None;
     simplifiedEvents := [Timeout];
     directOutcome := Throw "Could not find QR code element with any known selector";
     minimalEvents := [InitRejected "Failed to launch the browser process"] |}.

(** Worked example: the stored session is accepted ([authenticated]) but
    the client never becomes ready, so the first strategy times out; the
    other two fail as well. *)
Definition authenticatedThenTimeout : surroundings :=
  {| mainWindow := true; chrome := None;
     simplifiedEvents := [Authenticated; Timeout];
     directOutcome := Throw "Could not find QR code element with any known selector";
     minimalEvents := [Timeout] |}.

(** Worked example: the first strategy fails and the direct one succeeds. *)
Definition directSucceeds : surroundings :=
  {| mainWindow := true; chrome := None;
     simplifiedEvents := [AuthFailure "session expired"];
     directOutcome := Return "iVBORw0KGgo";
     minimalEvents := [Qr "2@kT9"] |}.

End Cascade.

End Handshake.

(** ** [src/error-handler.js]: reports and maintenance *)
Module ErrorReports.
Import ErrorHandler.

(** [getRecentErrors]: [this.recentErrors.slice(0, 10)]. *)
Definition getRecentErrors (st : state) : list recentError :=
  firstn 10 (recentErrors st).

Record errorStats := ErrorStats {
  totalRecent : nat;
  lastHour : nat;
  lastDay : nat;
  activeRetries : nat
}.

Section Clock.

(** [new Date(timestamp).getTime()]; [None] stands for the [NaN] of an
    invalid date, which no comparison accepts. *)
Variable getTime : string -> option Z.

(** [new Date(err.timestamp).getTime() > cutoff]. *)
Definition newerThan (cutoff : Z) (err : recentError) : bool :=
  match getTime (re_timestamp err) with
  | Some t => cutoff <? t
  | None => false
  end.

Definition getErrorStats (ev : env) (st : state) : errorStats :=
  let lastHour := now ev - 60 * 60 * 1000 in
  let lastDay := now ev - 24 * 60 * 60 * 1000 in
  {| totalRecent := length (recentErrors st);
     lastHour := length (List.filter (newerThan lastHour) (recentErrors st));
     lastDay := length (List.filter (newerThan lastDay) (recentErrors st));
     activeRetries := size (retryAttempts st) |}.

Definition clearOldErrors (ev : env) (st : state) : state :=
  let cutoff := now ev - 7 * 24 * 60 * 60 * 1000 in
  setRecent (List.filter (newerThan cutoff) (recentErrors st)) st.

(** [cleanup]: [this.retryAttempts.clear()], then [clearOldErrors()]. The
    timers of scheduled retries are not kept anywhere and are not cleared. *)
Definition cleanup (ev : env) (st : state) : state :=
  clearOldErrors ev (setRetries ∅ st).

End Clock.

(** A series of non-critical errors of one account, as inputs of the handler. *)
Definition errorsOf (accountId : string) (errors : list (env * js_error * string))
  : list (env * input) :=
  map (fun x => (fst (fst x), ErrorEvent accountId (snd (fst x)) (snd x))) errors.

End ErrorReports.

(** ** [src/account-manager.js]: listeners and the remaining operations *)
Module AccountOps.
Import JsString Js AccountManager.

(** The events of a client that [setupClientEventHandlers] listens to. *)
Inductive clientEvent :=
| EvQr (qr : string)
| EvLoadingScreen (percent : Z) (message : string)
| EvChangeState (state : string)
| EvAuthenticated
| EvReady
| EvAuthFailure (message : string)
| EvDisconnected (reason : string)
| EvError (message : option string).   (* [error.message] *)

(** Messages for the window; every one carries the account id. *)
Inductive payload :=
| QrUpdate (accountId qrCode : string)                            (* qr:update *)
| AccountLoading (accountId : string) (percent : Z) (message : string)
| AccountReady (accountId status : string)                        (* account:ready *)
| AccountAuthFailed (accountId error : string)
| AccountDisconnected (accountId reason : string)
| AccountError (accountId : string) (error : option string)
| AccountQrTimeout (accountId message : string)
| AccountCriticalTimeout (accountId message : string).

Definition payloadAccount (p : payload) : string :=
  match p with
  | QrUpdate a _ | AccountLoading a _ _ | AccountReady a _ | AccountAuthFailed a _
  | AccountDisconnected a _ | AccountError a _ | AccountQrTimeout a _
  | AccountCriticalTimeout a _ => a
  end.

Inductive output :=
| WindowSend (channel : string) (p : payload)
| ClientDestroy (c : client)
| ClientInitialize (c : client)
| ClientGetChats (c : client).

(** The manager, and what it sends to the window and asks of its clients. *)
Record world := World {
  manager : AccountManager.manager;
  outputs : list output
}.

Definition lift {A} (m : M AccountManager.manager A) : M world A :=
  fun w => let '(r, st) := m (manager w) in
           (r, {| manager := st; outputs := outputs w |}).

Definition send (o : output) (w : world) : world :=
  {| manager := manager w; outputs := outputs w ++ [o] |}.

(** [if (global.mainWindow) global.mainWindow.webContents.send(channel, p)]. *)
Definition sendToWindow (window : bool) (channel : string) (p : payload) (w : world)
  : world :=
  if window then send (WindowSend channel p) w else w.

(** [const account = this.accounts.get(accountId); if (account) { ... }]. *)
Definition updateAccount (accountId : string) (f : accountInfo -> accountInfo)
    (w : world) : world :=
  {| manager :=
       {| accounts := alter f accountId (accounts (manager w));
          activeAccount := activeAccount (manager w);
          directories := directories (manager w);
          effects := effects (manager w) |};
     outputs := outputs w |}.

Definition setFlags (active authenticated : bool) (status : string) (a : accountInfo)
  : accountInfo :=
  {| accountId := accountId a; displayName := displayName a;
     accountClient := accountClient a; dataPath := dataPath a;
     chromeProfilePath := chromeProfilePath a;
     isActive := active; isAuthenticated := authenticated;
     lastAccessed := lastAccessed a;
     ui := {| selectedChat := selectedChat (ui a); messageCache := messageCache (ui a);
              contactList := contactList (ui a); unreadCount := unreadCount (ui a);
              onlineStatus := status |} |}.

(** The listeners [setupClientEventHandlers] sets for [accountId]. *)
Definition onClientEvent (window : bool) (accountId : string) (ev : clientEvent)
    (w : world) : world :=
  match ev with
  | EvQr qr => sendToWindow window "qr:update" (QrUpdate accountId qr) w
  | EvLoadingScreen percent message =>
      sendToWindow window "account:loading" (AccountLoading accountId percent message) w
  | EvChangeState _ => w
  | EvAuthenticated =>
      updateAccount accountId (fun a => setFlags (isActive a) true "authenticated" a) w
  | EvReady =>
      sendToWindow window "account:ready" (AccountReady accountId "ready")
        (updateAccount accountId (fun a => setFlags true true "online" a) w)
  | EvAuthFailure message =>
      sendToWindow window "account:auth-failed" (AccountAuthFailed accountId message) w
  | EvDisconnected reason =>
      sendToWindow window "account:disconnected" (AccountDisconnected accountId reason)
        (updateAccount accountId
           (fun a => setFlags false (isAuthenticated a) "disconnected" a) w)
  | EvError message =>
      sendToWindow window "account:error" (AccountError accountId message) w
  end.

(** The callbacks of the two timers of [setupClientEventHandlers];
    [hasInfo]: [client.info] is set by then. *)
Definition onWatchdog (window hasInfo : bool) (t : watchdog) (w : world) : world :=
  if hasInfo then w
  else
    match t with
    | QrTimeout accountId =>
        sendToWindow window "account:qr-timeout"
          (AccountQrTimeout accountId
             "Browser opened but QR code didn't appear. Check browser window for errors.") w
    | CriticalTimeout accountId =>
        sendToWindow window "account:critical-timeout"
          (AccountCriticalTimeout accountId
             "WhatsApp Web failed to load. Try restarting the app or check your internet connection.") w
    end.

(** The events of one client, in the order they are emitted. *)
Definition deliver (window : bool) (accountId : string) (evs : list clientEvent)
    (w : world) : world :=
  fold_left (fun w ev => onClientEvent window accountId ev w) evs w.

(** What a series of events says about the flags, read off the events
    alone: the account is active when the last [ready] or [disconnected]
    event is a [ready]; it is authenticated once an [authenticated] or
    [ready] event has been seen. *)
Fixpoint activeAfter (evs : list clientEvent) (active : bool) : bool :=
  match evs with
  | [] => active
  | EvReady :: evs' => activeAfter evs' true
  | EvDisconnected _ :: evs' => activeAfter evs' false
  | _ :: evs' => activeAfter evs' active
  end.

Definition authenticates (ev : clientEvent) : bool :=
  match ev with EvAuthenticated | EvReady => true | _ => false end.

(** [getQRCode] of this version: the client is replaced and started, the
    code arrives later through the [qr] listener. [chrome]: what
    [findChromeExecutable] finds. *)
Record initializing := Initializing {
  init_accountId : string;
  init_status : string;
  init_message : string
}.

Definition withClient (c : client) (a : accountInfo) : accountInfo :=
  {| accountId := accountId a; displayName := displayName a; accountClient := c;
     dataPath := dataPath a; chromeProfilePath := chromeProfilePath a;
     isActive := isActive a; isAuthenticated := isAuthenticated a;
     lastAccessed := lastAccessed a; ui := ui a |}.

Definition getQRCode (chrome : option string) (accountId : string)
  : M world initializing :=
  (w <- get ;;
   match accounts (manager w) !! accountId with
   | None => throw ("Account " +:+ accountId +:+ " not found")
   | Some account =>
       if isAuthenticated account then
         throw ("Account " +:+ accountId +:+ " is already authenticated")
       else
         modify (send (ClientDestroy (accountClient account))) ;;;
         client <- lift (createSimpleIsolatedClient chrome accountId) ;;
         modify (updateAccount accountId (withClient client)) ;;;
         lift (setupClientEventHandlers client accountId) ;;;
         modify (send (ClientInitialize client)) ;;;
         ret {| init_accountId := accountId; init_status := "initializing";
                init_message := "WhatsApp client is starting up..." |}
   end)%js.


Record switched := Switched {
  sw_accountId : string;
  sw_displayName : string;
  sw_isAuthenticated : bool;
  sw_isActive : bool;
  sw_unreadCount : Z
}.

Definition withLastAccessed (t : Z) (a : accountInfo) : accountInfo :=
  {| accountId := accountId a; displayName := displayName a;
     accountClient := accountClient a; dataPath := dataPath a;
     chromeProfilePath := chromeProfilePath a; isActive := isActive a;
     isAuthenticated := isAuthenticated a; lastAccessed := t; ui := ui a |}.

Definition switchAccount (now : Z) (accountId : string)
  : M AccountManager.manager switched :=
  (st <- get ;;
   match accounts st !! accountId with
   | None => throw ("Account " +:+ accountId +:+ " not found")
   | Some account =>
       modify (fun st => {| accounts := <[accountId := withLastAccessed now account]>
                                          (accounts st);
                            activeAccount := Some accountId;
                            directories := directories st;
                            effects := effects st |}) ;;;
       ret {| sw_accountId := accountId;
              sw_displayName := displayName account;
              sw_isAuthenticated := isAuthenticated account;
              sw_isActive := isActive account;
              sw_unreadCount := unreadCount (ui account) |}
   end)%js.

Record accountsStatus := AccountsStatus {
  total : nat;
  active : nat;
  authenticated : nat
}.

(** [getAccountsStatus]: one pass over the values of the registry. *)
Definition getAccountsStatus (st : AccountManager.manager) : accountsStatus :=
  map_fold
    (fun _ account s =>
       {| total := total s;
          active := if isActive account then S (active s) else active s;
          authenticated :=
            if isAuthenticated account then S (authenticated s) else authenticated s |})
    {| total := size (accounts st); active := 0; authenticated := 0 |}
    (accounts st).

(** [cleanup]: every client is destroyed (an error of [destroy] is only
    logged), then the registry is emptied. The source visits the accounts in
    the order they were created; here they are visited in the order of the
    map, and nothing below depends on the order. *)
Definition cleanup (w : world) : world :=
  {| manager :=
       {| accounts := ∅; activeAccount := None;
          directories := directories (manager w); effects := effects (manager w) |};
     outputs :=
       outputs w ++
       map (fun kv => ClientDestroy (accountClient (snd kv)))
           (map_to_list (accounts (manager w))) |}.

(** The watchdog timers a trace of the manager has set. *)
Definition watchdogs (tr : list AccountManager.effect) : list (watchdog * Z) :=
  omap (fun e => match e with SetTimeout t d => Some (t, d) | _ => None end) tr.

(** The step of [getAccountsStatus] for one account. *)
Definition countFlags (account : accountInfo) (s : accountsStatus) : accountsStatus :=
  {| total := total s;
     active := if isActive account then S (active s) else active s;
     authenticated :=
       if isAuthenticated account then S (authenticated s) else authenticated s |}.

(** Worked examples. *)
Definition oneAccountWorld : world := {| manager := oneAccount; outputs := [] |}.

Definition twoAccountsWorld : world :=
  {| manager :=
       createAll [(1700000000000,
                   {| data_accountId := "account_1"; data_displayName := "Line 1" |});
                  (1700000000001,
                   {| data_accountId := "account_2"; data_displayName := "Line 2" |})]
                 (new ∅);
     outputs := [] |}.

End AccountOps.

(** ** The handshake with retries: [getQRCode] over the health-check waiter *)
Module RetryLoop.
Import JsString Js AccountManager Handshake.

(** Effects of the loop and of the listeners of [setupClientEventHandlers]
    in this version. [AttemptStarted] is the console line that opens an
    attempt; [Slept] is the awaited pause between two attempts. *)
Inductive effect :=
| AttemptStarted (attempt : Z)
| Destroyed (c : client)
| HandlersSet (c : client) (accountId : string)
| Initialized (c : client)
| WindowSend (channel : string) (p : Cascade.payload)
| ReconnectTimer (c : client) (delay : Z)
| Slept (delay : Z).

Record world := World {
  accounts : gmap string accountInfo;
  trace : list effect
}.

(** What one call meets: the window, the Chrome executable next to
    Electron (if it exists), and what the event loop runs while each attempt
    waits. *)
Record surroundings := Surroundings {
  mainWindow : bool;
  electronChrome : option string;
  attemptEvents : Z -> list event
}.

Definition maxRetries : Z := 3.

Definition emit (e : effect) (st : world) : world :=
  {| accounts := accounts st; trace := trace st ++ [e] |}.

Definition updateAccount (accountId : string) (f : accountInfo -> accountInfo)
    (st : world) : world :=
  {| accounts := alter f accountId (accounts st); trace := trace st |}.

Definition onClientEvent (env : surroundings) (c : client) (accountId : string)
    (ev : event) (st : world) : world :=
  match ev with
  | Qr qr =>
      if mainWindow env
      then emit (WindowSend "qr:update" (Cascade.QrUpdate accountId qr)) st
      else st
  | Authenticated =>
      updateAccount accountId
        (fun a => Cascade.withStatus (isActive a) true "authenticated" a) st
  | Ready =>
      let st := updateAccount accountId
                  (fun a => Cascade.withStatus true (isAuthenticated a) "online" a) st in
      if mainWindow env
      then emit (WindowSend "account:update" (Cascade.AccountStatus accountId "ready")) st
      else st
  | Disconnected reason =>
      let st := updateAccount accountId
                  (fun a => Cascade.withStatus false (isAuthenticated a) "disconnected" a)
                  st in
      emit (ReconnectTimer c 5000) st
  | AuthFailure _ | HealthTick _ | Timeout | InitRejected _ | GraceElapsed => st
  end.

(** The wait on the promise of [waitForQR], as in [Cascade.attend], over
    the waiter with health checks. *)
Fixpoint attend (env : surroundings) (c : client) (accountId : string) (attempt : Z)
    (evs : list event) (w : HealthWaiter.waiter) (st : world)
  : option settlement * world :=
  match evs with
  | [] => (None, st)
  | ev :: evs' =>
      let st := onClientEvent env c accountId ev st in
      let w := HealthWaiter.step accountId attempt w ev in
      match HealthWaiter.calls w with
      | s :: _ => (Some s, st)
      | [] => attend env c accountId attempt evs' w st
      end
  end.

Definition waitForQR (env : surroundings) (c : client) (accountId : string)
    (attempt : Z) (evs : list event) (st : world) : option settlement * world :=
  attend env c accountId attempt evs HealthWaiter.start (emit (Initialized c) st).

Definition createIsolatedClient (env : surroundings) (accountId : string) : client :=
  let accountDataPath := NodePath.join ["./data/accounts"; accountId] in
  let chromeProfilePath :=
    NodePath.join ["./data/chrome_profiles"; "chrome_" +:+ accountId] in
  {| clientId := "account_" +:+ accountId;
     authDataPath := accountDataPath;
     headless := Headless true;
     executablePath := electronChrome env;
     args := [ "--no-sandbox"; "--disable-setuid-sandbox"; "--disable-dev-shm-usage";
               "--disable-accelerated-2d-canvas"; "--no-first-run"; "--no-zygote";
               "--disable-gpu"; "--disable-web-security";
               "--disable-features=VizDisplayCompositor";
               "--disable-background-timer-throttling";
               "--disable-backgrounding-occluded-windows";
               "--disable-renderer-backgrounding"; "--disable-extensions";
               "--disable-plugins"; "--disable-default-apps"; "--disable-hang-monitor";
               "--disable-prompt-on-repost"; "--disable-sync"; "--disable-translate";
               "--disable-logging"; "--disable-notifications";
               "--no-default-browser-check"; "--no-experiments";
               "--memory-pressure-off"; "--single-process";
               "--disable-background-networking"; "--disable-background-media-loading";
               "--disable-client-side-phishing-detection";
               "--disable-default-browser-check"; "--disable-domain-reliability";
               "--disable-ipc-flooding-protection";
               "--user-data-dir=" +:+ chromeProfilePath ] |}.

(** [if (account.client) await account.client.destroy()], errors swallowed. *)
Definition destroyClient (accountId : string) (st : world) : world :=
  match accounts st !! accountId with
  | Some account => emit (Destroyed (accountClient account)) st
  | None => st
  end.

(** The [try] part of one turn of the loop: a fresh client, its listeners,
    the wait. *)
Definition tryOnce (env : surroundings) (accountId : string) (attempt : Z) (st : world)
  : option settlement * world :=
  let st := emit (AttemptStarted attempt) st in
  let newClient := createIsolatedClient env accountId in
  let st := updateAccount accountId (Cascade.withClient newClient) st in
  let st := emit (HandlersSet newClient accountId) st in
  waitForQR env newClient accountId attempt (attemptEvents env attempt) st.

(** [for (let attempt = 1; attempt <= maxRetries; attempt++)] with
    [remaining] turns to go, and the [throw] after the loop. *)
Fixpoint attempts (env : surroundings) (accountId : string) (remaining : nat)
    (attempt : Z) (lastError : option string) (st : world)
  : option (completion qrResult) * world :=
  match remaining with
  | O =>
      (Some (Throw
         match lastError with
         | Some message =>
             "Failed to generate QR after " +:+ ofNumber maxRetries +:+
             " attempts. Last error: " +:+ message
         | None => "Cannot read properties of undefined (reading 'message')"
         end), st)
  | S remaining' =>
      match tryOnce env accountId attempt st with
      | (None, st) => (None, st)
      | (Some (Resolved result), st) => (Some (Return result), st)
      | (Some (Rejected attemptError), st) =>
          let st := destroyClient accountId st in
          let st := if attempt <? maxRetries then emit (Slept (attempt * 2000)) st else st in
          attempts env accountId remaining' (attempt + 1) (Some attemptError) st
      end
  end.

Definition getQRCode (env : surroundings) (accountId : string) (st : world)
  : option (completion qrResult) * world :=
  match accounts st !! accountId with
  | None => (Some (Throw ("Account " +:+ accountId +:+ " not found")), st)
  | Some account =>
      if isAuthenticated account then
        (Some (Throw ("Account " +:+ accountId +:+ " is already authenticated")), st)
      else
        let st := destroyClient accountId st in
        attempts env accountId (Z.to_nat maxRetries) 1 None st
  end.

(** The attempts, the pauses and the released clients a trace shows. *)
Definition started (tr : list effect) : list Z :=
  omap (fun e => match e with AttemptStarted n => Some n | _ => None end) tr.

Definition pauses (tr : list effect) : list Z :=
  omap (fun e => match e with Slept d => Some d | _ => None end) tr.

Definition released (tr : list effect) : list client :=
  omap (fun e => match e with Destroyed c => Some c | _ => None end) tr.

(** How a wait ends when only the waiter is looked at. *)
Definition waitOutcome (accountId : string) (attempt : Z) (evs : list event)
  : option settlement :=
  hd_error (HealthWaiter.calls
              (HealthWaiter.run accountId attempt evs HealthWaiter.start)).

(** Worked example: one account; the browser page is gone at the first
    health check of every attempt. *)
Definition oneAccountWorld : world :=
  {| accounts := AccountManager.accounts oneAccount; trace := [] |}.

Definition pageAlwaysClosed : surroundings :=
  {| mainWindow := true; electronChrome := None;
     attemptEvents := fun _ => [HealthTick PageClosed] |}.

(** Worked example: the second attempt gets a code. *)
Definition secondAttemptSucceeds : surroundings :=
  {| mainWindow := true; electronChrome := None;
     attemptEvents := fun n => if n =? 2 then [Qr "2@kT9"] else [Timeout] |}.

End RetryLoop.

(** * The main process: IPC handlers (main.js) *)

Module MainProcess.
Import JsString Js AccountManager.

(** The core components the application object holds. *)
Record app := App {
  accountManager : manager;
  errorHandler : ErrorHandler.state
}.

(** What a handler registered with [ipcMain.handle] resolves with:
    [{ success: true, data }] or [{ success: false, error }]. *)
Inductive response (A : Type) :=
| Success (data : A)
| Failure (error : string).
Arguments Success {A} data.
Arguments Failure {A} error.

(** The [try]/[catch] every reporting handler is written with:
    [try { return { success: true, data: await op } }
     catch (error) { this.errorHandler.handleError(channel, error);
                     return { success: false, error: error.message } }]. *)
Definition guarded {A} (ev : ErrorHandler.env) (channel : string) (op : M manager A)
    (st : app) : response A * app :=
  match op (accountManager st) with
  | (Return result, m) =>
      (Success result, {| accountManager := m; errorHandler := errorHandler st |})
  | (Throw error, m) =>
      (Failure error,
       {| accountManager := m;
          errorHandler :=
            ErrorHandler.handleError ev channel (ErrorHandler.ErrorObj "Error" error)
              (errorHandler st) |})
  end.

(** [ipcMain.handle("account:create", ...)]. *)
Definition accountCreate (ev : ErrorHandler.env) (now : Z) (data : accountData)
  : app -> response created * app :=
  guarded ev "account:create" (createAccount now data).

(** [ipcMain.handle("account:switch", ...)]. *)
Definition accountSwitch (ev : ErrorHandler.env) (now : Z) (accountId : string)
  : app -> response AccountOps.switched * app :=
  guarded ev "account:switch" (AccountOps.switchAccount now accountId).

(** [ipcMain.handle("message:send", ...)]. *)
Definition messageSend (ev : ErrorHandler.env) (now : Z) (reply : completion string)
    (accountId phoneNumber message : string) : app -> response messageData * app :=
  guarded ev "message:send" (sendMessage now reply accountId phoneNumber message).

(** The entry [handleError] logs for a failure on [channel]. *)
Definition systemEntry (ev : ErrorHandler.env) (channel error : string)
  : ErrorHandler.recentError :=
  ErrorHandler.entryOf ev
    {| ErrorHandler.info_accountId := "system";
       ErrorHandler.info_error := ErrorHandler.errorOrMessage (ErrorHandler.ErrorObj "Error" error);
       ErrorHandler.info_context := channel;
       ErrorHandler.info_timestamp := ErrorHandler.isoNow ev |}.

(** Worked example: a handler with a window, and an application whose one
    account is registered but not connected. *)
Definition oneAccountApp : app :=
  {| accountManager := oneAccount; errorHandler := ErrorHandler.new |}.

End MainProcess.

(** * Utilities of the preload script (preload.js) *)

Module Preload.
Import JsString.

(** [validatePhoneNumber]: between 10 and 15 digits once every other
    character is removed. *)
Definition validatePhoneNumber (phone : string) : bool :=
  let cleaned := replaceNonDigits phone in
  (10 <=? String.length cleaned)%nat && (String.length cleaned <=? 15)%nat.

End Preload.

(** * Scheduled messages and templates (auto-messaging.js) *)

Module AutoMessaging.
Import JsString Js AccountManager.

(** A [Date]: its time value in milliseconds, [None] for Invalid Date. *)
Definition date := option Z.

Record scheduleData := ScheduleData {
  sd_accountId : string;
  sd_phoneNumber : string;
  sd_message : string;
  sd_scheduleType : string;
  sd_datetime : string;
  sd_templateId : option string
}.

Record scheduledMessage := ScheduledMessage {
  sm_id : string;
  sm_accountId : string;
  sm_phoneNumber : string;
  sm_message : string;
  sm_scheduleType : string;
  sm_originalDatetime : string;
  sm_nextRun : date;
  sm_templateId : option string;
  sm_isActive : bool;
  sm_created : Z;
  sm_lastSent : option Z;
  sm_sendCount : Z;
  sm_lastError : option string;
  sm_lastErrorTime : option Z
}.

Record templateData := TemplateData {
  td_name : string;
  td_content : string;
  td_category : option string
}.

Record template := Template {
  t_id : string;
  t_name : string;
  t_content : string;
  t_category : string;
  t_created : Z;
  t_used : Z
}.

(** The [variables] argument of [processTemplate]; a missing property is
    the empty string, which [||] treats alike. *)
Record variables := Variables {
  v_name : string;
  v_date : string;
  v_time : string
}.

Record scheduled := Scheduled {
  scheduleId : string;
  nextRun : date;
  scheduledNote : string
}.

Record savedTemplate := SavedTemplate {
  templateId : string;
  savedNote : string
}.

Record done := Done {
  success : bool;
  doneNote : string
}.

(** What one run reads from its surroundings: the clock where an id is
    made ([idNow]), in [calculateNextRun] and [calculateNextRunRecurring]
    ([calcNow]), in [startScheduledMessage] ([startNow]), where a record is
    stamped ([stampNow]), in [sendMessage] ([sendNow]) and in the message to
    the window ([notifyNow]); the localized date and time; the text
    [Math.random().toString(36).substr(2, 9)]; whether [global.mainWindow]
    is set. *)
Record moment := Moment {
  idNow : Z;
  calcNow : Z;
  startNow : Z;
  stampNow : Z;
  sendNow : Z;
  notifyNow : Z;
  localeDate : string;
  localeTime : string;
  random : string;
  mainWindow : bool
}.

(** Timers are named by the order in which [setTimeout] made them, the
    scheduled-message objects by the order in which [scheduleMessage] made
    them: the callback of a timer and the map of schedules hold the same
    object. *)
Inductive effect :=
| SetTimeout (timer : nat) (object : nat) (delay : option Z)
| ClearTimeout (timer : nat)
| Pause (object : nat)
| SaveSchedules
| SaveTemplates
| WindowSend (id : string) (succeeded : bool) (error : option string) (timestamp : Z).

Record state := State {
  manager : AccountManager.manager;      (* this.accountManager *)
  objects : gmap nat scheduledMessage;   (* the scheduled-message objects *)
  scheduledMessages : gmap string nat;   (* id -> object *)
  templates : gmap string template;
  activeTimeouts : gmap string nat;      (* id -> timer *)
  timers : gmap nat nat;                 (* armed timer -> object of its callback *)
  paused : list nat;                     (* executions waiting in their pause *)
  trace : list effect
}.


Definition withManager (m : AccountManager.manager) (st : state) : state :=
  {| manager := m; objects := objects st; scheduledMessages := scheduledMessages st;
     templates := templates st; activeTimeouts := activeTimeouts st;
     timers := timers st; paused := paused st; trace := trace st |}.

Definition withObjects (f : gmap nat scheduledMessage -> gmap nat scheduledMessage)
    (st : state) : state :=
  {| manager := manager st; objects := f (objects st);
     scheduledMessages := scheduledMessages st; templates := templates st;
     activeTimeouts := activeTimeouts st; timers := timers st; paused := paused st;
     trace := trace st |}.

Definition withScheduled (f : gmap string nat -> gmap string nat) (st : state) : state :=
  {| manager := manager st; objects := objects st;
     scheduledMessages := f (scheduledMessages st); templates := templates st;
     activeTimeouts := activeTimeouts st; timers := timers st; paused := paused st;
     trace := trace st |}.

Definition withTemplates (f : gmap string template -> gmap string template)
    (st : state) : state :=
  {| manager := manager st; objects := objects st;
     scheduledMessages := scheduledMessages st; templates := f (templates st);
     activeTimeouts := activeTimeouts st; timers := timers st; paused := paused st;
     trace := trace st |}.

Definition withActive (f : gmap string nat -> gmap string nat) (st : state) : state :=
  {| manager := manager st; objects := objects st;
     scheduledMessages := scheduledMessages st; templates := templates st;
     activeTimeouts := f (activeTimeouts st); timers := timers st; paused := paused st;
     trace := trace st |}.

Definition withTimers (f : gmap nat nat -> gmap nat nat) (st : state) : state :=
  {| manager := manager st; objects := objects st;
     scheduledMessages := scheduledMessages st; templates := templates st;
     activeTimeouts := activeTimeouts st; timers := f (timers st); paused := paused st;
     trace := trace st |}.

Definition withPaused (f : list nat -> list nat) (st : state) : state :=
  {| manager := manager st; objects := objects st;
     scheduledMessages := scheduledMessages st; templates := templates st;
     activeTimeouts := activeTimeouts st; timers := timers st; paused := f (paused st);
     trace := trace st |}.

Definition emit (e : effect) (st : state) : state :=
  {| manager := manager st; objects := objects st;
     scheduledMessages := scheduledMessages st; templates := templates st;
     activeTimeouts := activeTimeouts st; timers := timers st; paused := paused st;
     trace := trace st ++ [e] |}.

(** The timers [setTimeout] has made so far. *)
Definition timersMade (tr : list effect) : nat :=
  length (omap (fun e => match e with SetTimeout t _ _ => Some t | _ => None end) tr).

(** ** Templates *)

(** The replacement text of [String.prototype.replace] for a pattern
    without capture groups: [$$] is a dollar sign, [$&] the match, [$`] the
    text before it, [$'] the text after it; any other [$] stands for
    itself. *)
Fixpoint substitution (matched before after replacement : string) : string :=
  match replacement with
  | EmptyString => EmptyString
  | String c rest =>
      if Ascii.eqb c "$" then
        match rest with
        | EmptyString => String c EmptyString
        | String d rest' =>
            if Ascii.eqb d "$" then String "$" (substitution matched before after rest')
            else if Ascii.eqb d "&" then matched +:+ substitution matched before after rest'
            else if Ascii.eqb d "`" then before +:+ substitution matched before after rest'
            else if Ascii.eqb d "'" then after +:+ substitution matched before after rest'
            else String c (substitution matched before after rest)
        end
      else String c (substitution matched before after rest)
  end.

Fixpoint dropChars (n : nat) (s : string) : string :=
  match n, s with
  | O, _ => s
  | S n', String _ s' => dropChars n' s'
  | S _, EmptyString => EmptyString
  end.

(** [s.replace(/pattern/g, replacement)] for a pattern that is a plain,
    non-empty text: the matches are found from left to right and do not
    overlap. [skip] characters of a match are still to be passed over;
    [before] is what precedes the current position. *)
Fixpoint replaceFrom (pattern replacement : string) (skip : nat) (before s : string)
  : string :=
  match s with
  | EmptyString => EmptyString
  | String c s' =>
      match skip with
      | S skip' =>
          replaceFrom pattern replacement skip' (before +:+ String c EmptyString) s'
      | O =>
          if startsWith s pattern then
            substitution pattern before (dropChars (String.length pattern) s) replacement
            +:+ replaceFrom pattern replacement (String.length pattern - 1)
                  (before +:+ String c EmptyString) s'
          else
            String c (replaceFrom pattern replacement 0
                        (before +:+ String c EmptyString) s')
      end
  end.

Definition replaceAll (pattern replacement s : string) : string :=
  replaceFrom pattern replacement 0 EmptyString s.

(** [processTemplate]. *)
Definition processTemplate (c : moment) (templateContent : string) (vars : variables)
  : string :=
  let processed := templateContent in
  let processed :=
    replaceAll "{name}" (if truthy (v_name vars) then v_name vars else "[Name]")
      processed in
  let processed :=
    replaceAll "{date}" (if truthy (v_date vars) then v_date vars else localeDate c)
      processed in
  let processed :=
    replaceAll "{time}" (if truthy (v_time vars) then v_time vars else localeTime c)
      processed in
  processed.

(** [saveTemplates()]: the file is rewritten from the map. *)
Definition saveTemplates : state -> state := emit SaveTemplates.

(** [saveTemplate]. *)
Definition saveTemplate (c : moment) (data : templateData) : M state savedTemplate :=
  (if negb (truthy (td_name data)) || negb (truthy (td_content data)) then
     throw "Template name and content are required"
   else
     let templateId := "template_" +:+ ofNumber (idNow c) +:+ "_" +:+ random c in
     let template :=
       {| t_id := templateId;
          t_name := td_name data;
          t_content := td_content data;
          t_category := default "general" (td_category data);
          t_created := stampNow c;
          t_used := 0 |} in
     modify (withTemplates (insert templateId template)) ;;;
     modify saveTemplates ;;;
     ret {| templateId := templateId; savedNote := "Template saved successfully" |})%js.

(** [createDefaultTemplates]; the three records are stamped one after the
    other. *)
Definition createDefaultTemplates (created1 created2 created3 : Z) (st : state) : state :=
  let defaultTemplates :=
    [ {| t_id := "template_default_1"; t_name := "Good Morning";
         t_content := "Good morning {name}! Hope you have a great day on {date}!";
         t_category := "personal"; t_created := created1; t_used := 0 |};
      {| t_id := "template_default_2"; t_name := "Meeting Reminder";
         t_content := "Hi {name}, this is a reminder about our meeting today at {time}.";
         t_category := "work"; t_created := created2; t_used := 0 |};
      {| t_id := "template_default_3"; t_name := "Daily Check-in";
         t_content := "Daily update for {date}: Everything is running smoothly!";
         t_category := "general"; t_created := created3; t_used := 0 |} ] in
  let st :=
    fold_left (fun st template => withTemplates (insert (t_id template) template) st)
      defaultTemplates st in
  saveTemplates st.

(** [loadTemplates]; [file] is the parsed content of templates.json, [None]
    when the file does not exist or cannot be read as a list. *)
Definition loadTemplates (created1 created2 created3 : Z) (file : option (list template))
    (st : state) : state :=
  match file with
  | Some stored =>
      fold_left (fun st template => withTemplates (insert (t_id template) template) st)
        stored st
  | None => createDefaultTemplates created1 created2 created3 st
  end.

(** [new AutoMessaging(accountManager)] where no scheduled.json exists:
    [loadScheduledMessages] finds nothing to load. *)
Definition new (m : AccountManager.manager) (created1 created2 created3 : Z)
    (file : option (list template)) : state :=
  loadTemplates created1 created2 created3 file
    {| manager := m; objects := ∅; scheduledMessages := ∅; templates := ∅;
       activeTimeouts := ∅; timers := ∅; paused := []; trace := [] |}.

(** [deleteTemplate]. *)
Definition deleteTemplate (templateId : string) : M state done :=
  (st <- get ;;
   match templates st !! templateId with
   | None => throw ("Template " +:+ templateId +:+ " not found")
   | Some _ =>
       modify (withTemplates (delete templateId)) ;;;
       modify saveTemplates ;;;
       ret {| success := true; doneNote := "Template deleted" |}
   end)%js.

(** ** Schedules *)

Section Calendar.

(** [new Date(datetime)] and, on time values, [d.setDate(d.getDate() + n)]
    in the local time zone. *)
Variable parseDate : string -> date.
Variable plusDays : Z -> Z -> Z.

(** [d <= now] on dates: false for Invalid Date. *)
Definition notAfter (d : date) (now : Z) : bool :=
  match d with
  | Some t => t <=? now
  | None => false
  end.

Definition addDays (n : Z) (d : date) : date := plusDays n <$> d.

(** [calculateNextRun]. *)
Definition calculateNextRun (scheduleType datetime : string) (now : Z) : date :=
  let targetDate := parseDate datetime in
  if String.eqb scheduleType "once" then targetDate
  else if String.eqb scheduleType "daily" then
    if notAfter targetDate now then addDays 1 targetDate else targetDate
  else if String.eqb scheduleType "weekly" then
    if notAfter targetDate now then addDays 7 targetDate else targetDate
  else targetDate.

(** [calculateNextRunRecurring]. *)
Definition calculateNextRunRecurring (scheduledMessage : scheduledMessage) (now : Z)
  : date :=
  if String.eqb (sm_scheduleType scheduledMessage) "daily" then
    addDays 1 (sm_nextRun scheduledMessage)
  else if String.eqb (sm_scheduleType scheduledMessage) "weekly" then
    addDays 7 (sm_nextRun scheduledMessage)
  else Some now.

(** [saveScheduledMessages()]: the file is rewritten from the map. *)
Definition saveScheduledMessages : state -> state := emit SaveSchedules.

(** [executeScheduledMessage] up to its first [await]: the pause of 5 to
    10 seconds before the message is sent. *)
Definition executeScheduledMessage (object : nat) (st : state) : state :=
  emit (Pause object) (withPaused (cons object) st).

(** [startScheduledMessage]. [delay] is [None] when the next run is an
    Invalid Date; [NaN <= 0] is false. *)
Definition startScheduledMessage (now : Z) (object : nat) (st : state) : state :=
  match objects st !! object with
  | None => st
  | Some scheduledMessage =>
      let delay := (fun t => t - now) <$> sm_nextRun scheduledMessage in
      if match delay with Some d => d <=? 0 | None => false end then
        executeScheduledMessage object st
      else
        let timeoutId := timersMade (trace st) in
        let st := emit (SetTimeout timeoutId object delay) st in
        let st := withTimers (insert timeoutId object) st in
        withActive (insert (sm_id scheduledMessage) timeoutId) st
  end.

Definition setNextRun (d : date) (m : scheduledMessage) : scheduledMessage :=
  {| sm_id := sm_id m; sm_accountId := sm_accountId m;
     sm_phoneNumber := sm_phoneNumber m; sm_message := sm_message m;
     sm_scheduleType := sm_scheduleType m;
     sm_originalDatetime := sm_originalDatetime m; sm_nextRun := d;
     sm_templateId := sm_templateId m; sm_isActive := sm_isActive m;
     sm_created := sm_created m; sm_lastSent := sm_lastSent m;
     sm_sendCount := sm_sendCount m; sm_lastError := sm_lastError m;
     sm_lastErrorTime := sm_lastErrorTime m |}.

Definition setSent (now : Z) (m : scheduledMessage) : scheduledMessage :=
  {| sm_id := sm_id m; sm_accountId := sm_accountId m;
     sm_phoneNumber := sm_phoneNumber m; sm_message := sm_message m;
     sm_scheduleType := sm_scheduleType m;
     sm_originalDatetime := sm_originalDatetime m; sm_nextRun := sm_nextRun m;
     sm_templateId := sm_templateId m; sm_isActive := sm_isActive m;
     sm_created := sm_created m; sm_lastSent := Some now;
     sm_sendCount := sm_sendCount m + 1; sm_lastError := sm_lastError m;
     sm_lastErrorTime := sm_lastErrorTime m |}.

Definition setFailed (error : string) (now : Z) (m : scheduledMessage) : scheduledMessage :=
  {| sm_id := sm_id m; sm_accountId := sm_accountId m;
     sm_phoneNumber := sm_phoneNumber m; sm_message := sm_message m;
     sm_scheduleType := sm_scheduleType m;
     sm_originalDatetime := sm_originalDatetime m; sm_nextRun := sm_nextRun m;
     sm_templateId := sm_templateId m; sm_isActive := sm_isActive m;
     sm_created := sm_created m; sm_lastSent := sm_lastSent m;
     sm_sendCount := sm_sendCount m; sm_lastError := Some error;
     sm_lastErrorTime := Some now |}.

(** The part of both branches of [executeScheduledMessage] that keeps a
    recurring schedule going. *)
Definition scheduleNext (c : moment) (object : nat) (st : state) : state :=
  let st := withObjects
              (alter (fun m => setNextRun (calculateNextRunRecurring m (calcNow c)) m)
                 object) st in
  let st := startScheduledMessage (startNow c) object st in
  saveScheduledMessages st.

(** [executeScheduledMessage] from the end of its pause on. [reply] is
    what the client answers if it is asked to send. *)
Definition executeScheduledMessage_resumed (c : moment) (object : nat)
    (reply : completion string) (st : state) : state :=
  match objects st !! object with
  | None => st
  | Some scheduledMessage =>
      let '(sent, m) :=
        sendMessage (sendNow c) reply (sm_accountId scheduledMessage)
          (sm_phoneNumber scheduledMessage) (sm_message scheduledMessage) (manager st) in
      let st := withManager m st in
      match sent with
      | Return _ =>
          let st := withObjects (alter (setSent (stampNow c)) object) st in
          let st :=
            if negb (String.eqb (sm_scheduleType scheduledMessage) "once") then
              scheduleNext c object st
            else
              let st := withScheduled (delete (sm_id scheduledMessage)) st in
              let st := withActive (delete (sm_id scheduledMessage)) st in
              saveScheduledMessages st in
          if mainWindow c then
            emit (WindowSend (sm_id scheduledMessage) true None (notifyNow c)) st
          else st
      | Throw error =>
          let st := withObjects (alter (setFailed error (stampNow c)) object) st in
          let st :=
            if mainWindow c then
              emit (WindowSend (sm_id scheduledMessage) false (Some error) (notifyNow c)) st
            else st in
          if negb (String.eqb (sm_scheduleType scheduledMessage) "once") then
            scheduleNext c object st
          else st
      end
  end.

(** [accounts.find(acc => acc.accountId === accountId)] over the list of
    [getAccounts()]: whether some registered account carries the id. *)
Definition findAccount (accountId : string) (m : AccountManager.manager) : bool :=
  existsb (fun entry => String.eqb (AccountManager.accountId (snd entry)) accountId)
    (map_to_list (accounts m)).

(** [scheduleMessage]. *)
Definition scheduleMessage (c : moment) (data : scheduleData) : M state scheduled :=
  (st <- get ;;
   if negb (findAccount (sd_accountId data) (manager st)) then
     throw ("Account " +:+ sd_accountId data +:+ " not found")
   else
     let cleanPhone := replaceNonDigits (sd_phoneNumber data) in
     if (String.length cleanPhone <? 10)%nat || (15 <? String.length cleanPhone)%nat then
       throw "Invalid phone number format"
     else
       let finalMessage :=
         match sd_templateId data with
         | Some templateId =>
             if truthy templateId then
               match templates st !! templateId with
               | Some template =>
                   processTemplate c (t_content template)
                     {| v_name := "[Name]"; v_date := localeDate c;
                        v_time := localeTime c |}
               | None => sd_message data
               end
             else sd_message data
         | None => sd_message data
         end in
       let scheduleId := "schedule_" +:+ ofNumber (idNow c) +:+ "_" +:+ random c in
       let nextRun := calculateNextRun (sd_scheduleType data) (sd_datetime data)
                        (calcNow c) in
       let scheduledMessage :=
         {| sm_id := scheduleId;
            sm_accountId := sd_accountId data;
            sm_phoneNumber := cleanPhone;
            sm_message := finalMessage;
            sm_scheduleType := sd_scheduleType data;
            sm_originalDatetime := sd_datetime data;
            sm_nextRun := nextRun;
            sm_templateId := sd_templateId data;
            sm_isActive := true;
            sm_created := stampNow c;
            sm_lastSent := None;
            sm_sendCount := 0;
            sm_lastError := None;
            sm_lastErrorTime := None |} in
       let object := size (objects st) in
       modify (withObjects (insert object scheduledMessage)) ;;;
       modify (withScheduled (insert scheduleId object)) ;;;
       modify (startScheduledMessage (startNow c) object) ;;;
       modify saveScheduledMessages ;;;
       ret {| scheduleId := scheduleId; nextRun := nextRun;
              scheduledNote := "Message scheduled successfully" |})%js.

(** [cancelScheduledMessage]. *)
Definition cancelScheduledMessage (scheduleId : string) : M state done :=
  (st <- get ;;
   match scheduledMessages st !! scheduleId with
   | None => throw ("Scheduled message " +:+ scheduleId +:+ " not found")
   | Some _ =>
       match activeTimeouts st !! scheduleId with
       | Some timeoutId =>
           modify (emit (ClearTimeout timeoutId)) ;;;
           modify (withTimers (delete timeoutId)) ;;;
           modify (withActive (delete scheduleId))
       | None => ret tt
       end ;;;
       modify (withScheduled (delete scheduleId)) ;;;
       modify saveScheduledMessages ;;;
       ret {| success := true; doneNote := "Scheduled message cancelled" |}
   end)%js.

(** [getScheduledCount]. *)
Definition getScheduledCount (st : state) : nat := size (scheduledMessages st).

(** ** What the event loop can run *)

Inductive operation :=
| ScheduleMessage (c : moment) (data : scheduleData)
| CancelScheduledMessage (scheduleId : string)
| SaveTemplate (c : moment) (data : templateData)
| DeleteTemplate (templateId : string)
| TimerFires (timer : nat)
| PauseElapsed (c : moment) (object : nat) (reply : completion string)
| ManagerChanges (m : AccountManager.manager).

Fixpoint removeFirst (x : nat) (l : list nat) : list nat :=
  match l with
  | [] => []
  | y :: l' => if Nat.eqb x y then l' else y :: removeFirst x l'
  end.

Definition step (st : state) (op : operation) : state :=
  match op with
  | ScheduleMessage c data => snd (scheduleMessage c data st)
  | CancelScheduledMessage scheduleId => snd (cancelScheduledMessage scheduleId st)
  | SaveTemplate c data => snd (saveTemplate c data st)
  | DeleteTemplate templateId => snd (deleteTemplate templateId st)
  | TimerFires timer =>
      match timers st !! timer with
      | Some object => executeScheduledMessage object (withTimers (delete timer) st)
      | None => st
      end
  | PauseElapsed c object reply =>
      if existsb (Nat.eqb object) (paused st) then
        executeScheduledMessage_resumed c object reply
          (withPaused (removeFirst object) st)
      else st
  | ManagerChanges m => withManager m st
  end.

Definition run (ops : list operation) (st : state) : state := fold_left step ops st.

End Calendar.

(** Only digits. *)
Fixpoint digitsOnly (s : string) : bool :=
  match s with
  | EmptyString => true
  | String c s' => isDigit c && digitsOnly s'
  end.

(** A number [scheduleMessage] accepts: 10 to 15 digits and nothing else. *)
Definition dialable (phone : string) : bool :=
  digitsOnly phone && (10 <=? String.length phone)%nat && (String.length phone <=? 15)%nat.

(** Worked example: datetimes in the format of [toISOString], a local
    time zone without daylight saving (every day has 86 400 000 ms), and a
    schedule for the one registered account. *)
Definition sampleParse (s : string) : date := JsDate.parseIso s.

Definition sampleDays (n t : Z) : Z := t + n * 86400000.

Definition sampleMoment : moment :=
  {| idNow := 1700000000000; calcNow := 1700000000000; startNow := 1700000000001;
     stampNow := 1700000000000; sendNow := 1700000000002; notifyNow := 1700000000003;
     localeDate := "11/14/2023"; localeTime := "10:13:20 PM"; random := "k3j9x0q2a";
     mainWindow := true |}.

Definition sampleSchedule (scheduleType datetime : string) : scheduleData :=
  {| sd_accountId := "account_1"; sd_phoneNumber := "+60 12-345 6789";
     sd_message := "hello"; sd_scheduleType := scheduleType; sd_datetime := datetime;
     sd_templateId := None |}.

Definition sampleId : string := "schedule_1700000000000_k3j9x0q2a".

Definition freshApp : state :=
  new oneReadyAccount 1700000000000 1700000000000 1700000000000 None.

Definition sampleTemplate : templateData :=
  {| td_name := "Greeting"; td_content := "Hi {name}, it is {time}";
     td_category := None |}.

Definition sampleTemplateId : string := "template_1700000000000_k3j9x0q2a".

Definition dailyObject : scheduledMessage :=
  {| sm_id := sampleId; sm_accountId := "account_1"; sm_phoneNumber := "60123456789";
     sm_message := "hello"; sm_scheduleType := "daily";
     sm_originalDatetime := "2023-11-14T22:23:20.000Z"; sm_nextRun := Some 1700000600000;
     sm_templateId := None; sm_isActive := true; sm_created := 1700000000000;
     sm_lastSent := None; sm_sendCount := 0; sm_lastError := None;
     sm_lastErrorTime := None |}.

(** A daily message is scheduled ten minutes ahead ... *)
Definition dailyScheduled : state :=
  run sampleParse sampleDays
    [ScheduleMessage sampleMoment (sampleSchedule "daily" "2023-11-14T22:23:20.000Z")] freshApp.

(** ... and its timer has fired: the execution is in its pause. *)
Definition dailyRunning : state :=
  run sampleParse sampleDays
    [ScheduleMessage sampleMoment (sampleSchedule "daily" "2023-11-14T22:23:20.000Z"); TimerFires 0]
    freshApp.

End AutoMessaging.

(** * Properties *)

(** ** Strings *)
Section JsStringFacts.
Import JsString.

Lemma startsWith_spec (s p : string) :
  startsWith s p = true <-> exists post, s = p +:+ post.
Proof.
  revert s; induction p as [|a p IH]; intros s; simpl.
  - split; [intros _; exists s; reflexivity | reflexivity].
  - destruct s as [|b s].
    + split; [discriminate | intros [post H]; discriminate].
    + destruct (Ascii.eqb_spec a b) as [->|Hne].
      * rewrite IH. split; intros [post H]; exists post.
        -- now rewrite H.
        -- now inversion H.
      * split; [discriminate | intros [post H]; injection H as -> _; contradiction].
Qed.

Lemma includes_spec (s sub : string) :
  includes s sub = true <-> occursIn sub s.
Proof.
  unfold occursIn. induction s as [|c s IH]; simpl.
  - rewrite orb_false_r, startsWith_spec. split.
    + intros [post H]. exists EmptyString, post. exact H.
    + intros [pre [post H]]. destruct pre; simpl in H; [eauto | discriminate].
  - rewrite orb_true_iff, IH, startsWith_spec. split.
    + intros [[post H] | [pre [post H]]].
      * exists EmptyString, post. exact H.
      * exists (String c pre), post. simpl. now rewrite H.
    + intros [pre [post H]]. destruct pre as [|a pre]; simpl in H.
      * left. eauto.
      * right. inversion H. eauto.
Qed.

Lemma lower_ascii_idem (c : ascii) : lower_ascii (lower_ascii c) = lower_ascii c.
Proof.
  destruct c as [[] [] [] [] [] [] [] []]; reflexivity.
Qed.

Lemma toLowerCase_idem (s : string) : toLowerCase (toLowerCase s) = toLowerCase s.
Proof.
  induction s as [|c s IH]; simpl; [reflexivity|].
  now rewrite lower_ascii_idem, IH.
Qed.

Lemma lower_upper_ascii (c : ascii) : lower_ascii (upper_ascii c) = lower_ascii c.
Proof.
  destruct c as [[] [] [] [] [] [] [] []]; reflexivity.
Qed.

Lemma toLowerCase_toUpperCase (s : string) :
  toLowerCase (toUpperCase s) = toLowerCase s.
Proof.
  induction s as [|c s IH]; simpl; [reflexivity|].
  now rewrite lower_upper_ascii, IH.
Qed.

End JsStringFacts.

(** ** Paths *)
Section NodePathFacts.
Import NodePath.

Example join_accounts : join ["./data/accounts"; "account_1"] = "data/accounts/account_1".
Proof. reflexivity. Qed.

Example join_collapses : join ["./data/accounts"; "a//b"] = "data/accounts/a/b".
Proof. reflexivity. Qed.

Example join_dotdot : join ["./data/accounts"; "../x/"] = "data/x/".
Proof. reflexivity. Qed.

Lemma append_cons (c : ascii) (a b : string) : String c a +:+ b = String c (a +:+ b).
Proof. reflexivity. Qed.

Lemma append_empty_r (s : string) : s +:+ "" = s.
Proof. induction s as [|c s IH]; [reflexivity|]. now rewrite append_cons, IH. Qed.

Lemma append_assoc (a b c : string) : (a +:+ b) +:+ c = a +:+ (b +:+ c).
Proof. induction a as [|x a IH]; [reflexivity|]. now rewrite !append_cons, IH. Qed.

Lemma append_inj_l (p a b : string) : p +:+ a = p +:+ b -> a = b.
Proof.
  induction p as [|x p IH]; intros H; [exact H|].
  rewrite !append_cons in H. apply IH. now inversion H.
Qed.

Lemma split_nonempty (s : string) : split s <> [].
Proof.
  induction s as [|c s IH]; simpl; [discriminate|].
  destruct (Ascii.eqb c "/"); [discriminate|].
  destruct (split s); [contradiction | discriminate].
Qed.

(** Splitting around a separator. *)
Lemma split_app (a b : string) :
  split (a +:+ String "/" b) = split a ++ split b.
Proof.
  induction a as [|c a IH]; [reflexivity|]. rewrite append_cons. simpl.
  destruct (Ascii.eqb c "/"); [now rewrite IH|].
  rewrite IH. pose proof (split_nonempty a) as Hne.
  destruct (split a) as [|seg rest]; [contradiction | reflexivity].
Qed.

Lemma split_noSeparator (s : string) :
  noSeparator s = true -> split s = [s].
Proof.
  induction s as [|c s IH]; [reflexivity|]. simpl.
  destruct (Ascii.eqb c "/"); [discriminate|]. simpl.
  intros H. now rewrite IH.
Qed.

Lemma endsWithSep_noSeparator (s : string) :
  noSeparator s = true -> endsWithSep s = false.
Proof.
  induction s as [|c s IH]; [reflexivity|]. simpl.
  destruct (Ascii.eqb c "/") eqn:E; [discriminate|]. simpl. intros H.
  destruct s; [reflexivity | now apply IH].
Qed.

Lemma endsWithSep_app (a b : string) :
  JsString.truthy b = true -> endsWithSep (a +:+ b) = endsWithSep b.
Proof.
  intros Hb. induction a as [|c a IH]; [reflexivity|].
  rewrite append_cons.
  destruct (a +:+ b) eqn:E.
  - destruct a; [change (b = "") in E; subst b | rewrite append_cons in E]; discriminate.
  - simpl. simpl in IH. exact IH.
Qed.

(** [path.join("./data/" + d, name)] for plain names [d] and [name]. *)
Lemma join_under_data (d name : string) :
  noSeparator d = true ->
  noSeparator name = true ->
  String.eqb d "" || String.eqb d "." = false -> String.eqb d ".." = false ->
  String.eqb name "" || String.eqb name "." = false -> String.eqb name ".." = false ->
  join ["./data/" +:+ d; name] = "data/" +:+ d +:+ "/" +:+ name.
Proof.
  intros Hd Hn Hd1 Hd2 Hn1 Hn2.
  assert (Tn : JsString.truthy name = true) by (destruct name; [discriminate|reflexivity]).
  unfold join. cbn [List.filter]. 
  replace (JsString.truthy ("./data/" +:+ d)) with true by reflexivity.
  rewrite Tn.
  replace (String.concat "/" ["./data/" +:+ d; name]) with (("./data/" +:+ d) +:+ String "/" name) by reflexivity.
  set (p := ("./data/" +:+ d) +:+ String "/" name).
  assert (Et : JsString.truthy p = true) by reflexivity.
  assert (Ea : JsString.startsWith p "/" = false) by reflexivity.
  assert (Ee : endsWithSep p = false).
  { subst p. change (String "/" name) with ("/" +:+ name).
    rewrite <- append_assoc, endsWithSep_app by exact Tn.
    now apply endsWithSep_noSeparator. }
  assert (Es : split p = ["."; "data"; d; name]).
  { subst p. rewrite split_app, (split_noSeparator name Hn).
    change ("./data/" +:+ d) with ("." +:+ String "/" ("data" +:+ String "/" d)).
    rewrite !split_app, (split_noSeparator d Hd). reflexivity. }
  unfold normalize. rewrite Et, Ea, Ee, Es.
  cbn [negb normalizeSegments].
  replace (("." =? "")%string || ("." =? ".")%string) with true by reflexivity.
  replace (("data" =? "")%string || ("data" =? ".")%string) with false by reflexivity.
  replace ("data" =? "..")%string with false by reflexivity.
  rewrite Hd1, Hd2, Hn1, Hn2.
  cbn [rev app].
  replace (String.concat "/" ["data"; d; name]) with ("data/" +:+ d +:+ "/" +:+ name) by reflexivity.
  replace (JsString.truthy ("data/" +:+ d +:+ "/" +:+ name)) with true by reflexivity.
  cbn [negb]. rewrite append_empty_r. reflexivity.
Qed.

End NodePathFacts.

(** ** The error handler *)
Section ErrorHandlerFacts.
Import JsString ErrorHandler.

(** *** Classification *)

Lemma someIncluded_spec (messages : list string) (m : string) :
  someIncluded messages m = true <->
  exists kw, In kw messages /\ occursIn (toLowerCase kw) (toLowerCase m).
Proof.
  unfold someIncluded. rewrite existsb_exists.
  split; intros [kw [Hin H]]; exists kw; split; try assumption;
    now apply includes_spec.
Qed.

Lemma classify_dispatch (ev : env) (accountId context : string) (error : js_error)
    (st : state) :
  handleAccountError ev accountId error context st =
  let info := {| info_accountId := accountId; info_error := errorOrMessage error;
                 info_context := context; info_timestamp := isoNow ev |} in
  let st1 := addToRecentErrors ev info (logError info st) in
  match classify error with
  | Critical => handleCriticalError ev accountId error context st1
  | NetworkTransient => handleNetworkError ev accountId error context st1
  | Generic => handleRetryableError ev accountId error context st1
  end.
Proof.
  unfold handleAccountError, classify.
  destruct (isCriticalError error); [reflexivity|].
  destruct (isNetworkError error); reflexivity.
Qed.

(** Matching ignores the case of the message. *)
Lemma classify_case_insensitive (name m : string) :
  truthy m = true ->
  classify (ErrorObj name (toUpperCase m)) = classify (ErrorObj name m).
Proof.
  intros Hm. unfold classify, isCriticalError, isNetworkError, someIncluded, errorMessage.
  simpl. rewrite Hm.
  assert (Hu : truthy (toUpperCase m) = true) by (destruct m; [discriminate | reflexivity]).
  rewrite Hu, toLowerCase_toUpperCase. reflexivity.
Qed.

(** C8, as stated, fails: the tables of the source hold ["Account banned"]
    and ["Account not found"], not the bare words, and ["getaddrinfo"] rather
    than a DNS phrase. A message with the claim's keyword ["not found"] rest
    Generic, and so is one with ["DNS resolution failure"]. *)
Lemma classify_claimed_keywords_counterexample :
  includes (toLowerCase "Page not found") (toLowerCase "not found") = true /\
  classify (ErrorObj "Error" "Page not found") = Generic /\
  includes (toLowerCase "DNS resolution failure") (toLowerCase "DNS resolution failure") = true /\
  classify (ErrorObj "Error" "DNS resolution failure") = Generic.
Proof. repeat split; vm_compute; reflexivity. Qed.

(** C8 (amended): an error is Critical exactly when its message contains,
    ignoring case, an entry of the critical table of the source; otherwise
    NetworkTransient exactly when it contains an entry of the network table;
    otherwise Generic. Critical matching comes first. *)
Theorem classify_by_keyword_tables (error : js_error) :
  let m := toLowerCase (errorMessage error) in
  let hit (table : list string) :=
    exists kw, In kw table /\ occursIn (toLowerCase kw) m in
  criticalMessages =
    [ "Authentication failure"; "Account banned"; "Invalid session";
      "Protocol error"; "Unauthorized"; "Account not found" ] /\
  networkMessages =
    [ "network error"; "connection refused"; "timeout"; "socket hang up";
      "getaddrinfo"; "connect ETIMEDOUT"; "connect ECONNREFUSED" ] /\
  (classify error = Critical <-> hit criticalMessages) /\
  (classify error = NetworkTransient <->
     ~ hit criticalMessages /\ hit networkMessages) /\
  (classify error = Generic <->
     ~ hit criticalMessages /\ ~ hit networkMessages).
Proof.
  intros m hit.
  assert (Hc : isCriticalError error = true <-> hit criticalMessages)
    by apply someIncluded_spec.
  assert (Hn : isNetworkError error = true <-> hit networkMessages)
    by apply someIncluded_spec.
  split; [reflexivity|]. split; [reflexivity|].
  rewrite <- Hc, <- Hn. unfold classify.
  destruct (isCriticalError error), (isNetworkError error);
    intuition congruence.
Qed.

Example critical_precedes_network :
  classify (ErrorObj "Error" "Unauthorized: connection refused") = Critical.
Proof. vm_compute. reflexivity. Qed.


(** *** Frame lemmas: what each helper leaves alone *)

Lemma scheduled_app (t1 t2 : list effect) :
  scheduled (t1 ++ t2) = scheduled t1 ++ scheduled t2.
Proof. unfold scheduled. apply omap_app. Qed.

Lemma notifyUser_trace (ev : env) (m type : string) (st : state) :
  exists extra,
    trace (notifyUser ev m type st) =
      trace st ++
      Console (if String.eqb type "critical" || String.eqb type "error" then "error"
               else if String.eqb type "warning" then "warn" else "log")
              ("[" +:+ toUpperCase type +:+ "] " +:+ m) :: extra /\
    scheduled extra = [] /\
    (mainWindow ev = true ->
       extra = [WindowSend "error:notification" (ErrorNotification m type (now ev))]).
Proof.
  unfold notifyUser. destruct (mainWindow ev); simpl.
  - eexists. rewrite <- app_assoc. simpl. repeat split.
  - exists []. repeat split. discriminate.
Qed.

Lemma notifyUser_scheduled (ev : env) (m type : string) (st : state) :
  scheduled (trace (notifyUser ev m type st)) = scheduled (trace st).
Proof.
  destruct (notifyUser_trace ev m type st) as [extra [-> [He _]]].
  rewrite scheduled_app. simpl. rewrite He. apply app_nil_r.
Qed.

Lemma notifyUser_retryAttempts (ev : env) (m type : string) (st : state) :
  retryAttempts (notifyUser ev m type st) = retryAttempts st.
Proof. unfold notifyUser. destruct (mainWindow ev); reflexivity. Qed.

Lemma notifyUser_recentErrors (ev : env) (m type : string) (st : state) :
  recentErrors (notifyUser ev m type st) = recentErrors st.
Proof. unfold notifyUser. destruct (mainWindow ev); reflexivity. Qed.

Lemma addToRecentErrors_retryAttempts (ev : env) (info : errorInfo) (st : state) :
  retryAttempts (addToRecentErrors ev info st) = retryAttempts st.
Proof. unfold addToRecentErrors. case (_ <? _)%nat; reflexivity. Qed.

Lemma addToRecentErrors_trace (ev : env) (info : errorInfo) (st : state) :
  trace (addToRecentErrors ev info st) = trace st.
Proof. unfold addToRecentErrors. case (_ <? _)%nat; reflexivity. Qed.

Lemma retriesOf_ext (st1 st2 : state) (accountId : string) :
  retryAttempts st1 = retryAttempts st2 ->
  retriesOf st1 accountId = retriesOf st2 accountId.
Proof. unfold retriesOf. now intros ->. Qed.

(** *** The recent-error log *)

Lemma addToRecentErrors_log (ev : env) (info : errorInfo) (st : state) :
  recentErrors (addToRecentErrors ev info st) =
  firstn maxRecentErrors (entryOf ev info :: recentErrors st).
Proof.
  unfold addToRecentErrors.
  destruct (Nat.ltb_spec maxRecentErrors (length (entryOf ev info :: recentErrors st)))
    as [Hlt|Hge]; cbn [recentErrors setRecent]; [reflexivity|].
  symmetry. apply firstn_all2. exact Hge.
Qed.

Lemma firstn_app_firstn_le {A} (l1 l2 : list A) (n m : nat) :
  (n <= m)%nat -> firstn n (l1 ++ firstn m l2) = firstn n (l1 ++ l2).
Proof.
  revert n m; induction l1 as [|x l1 IH]; intros n m Hle; simpl.
  - rewrite firstn_firstn. f_equal. lia.
  - destruct n as [|n]; [reflexivity|]. simpl. f_equal. apply IH. lia.
Qed.

Lemma insertAll_log (rest : list (env * errorInfo)) (i : env * errorInfo) (st : state) :
  recentErrors (insertAll (i :: rest) st) =
  firstn maxRecentErrors (rev (map entryOfInput (i :: rest)) ++ recentErrors st).
Proof.
  revert i st; induction rest as [|j rest IH]; intros [ev info] st.
  - simpl. apply addToRecentErrors_log.
  - change (insertAll ((ev, info) :: j :: rest) st)
      with (insertAll (j :: rest) (addToRecentErrors ev info st)).
    rewrite IH, addToRecentErrors_log.
    rewrite firstn_app_firstn_le by lia.
    change (map entryOfInput ((ev, info) :: j :: rest))
      with (entryOf ev info :: map entryOfInput (j :: rest)).
    cbn [rev]. rewrite <- app_assoc. reflexivity.
Qed.

Lemma handleAccountError_log (ev : env) (accountId context : string)
    (error : js_error) (st : state) :
  recentErrors (handleAccountError ev accountId error context st) =
  firstn maxRecentErrors
    (entryOf ev {| info_accountId := accountId; info_error := errorOrMessage error;
                   info_context := context; info_timestamp := isoNow ev |}
     :: recentErrors st).
Proof.
  unfold handleAccountError.
  set (info := {| info_accountId := accountId; info_error := errorOrMessage error;
                  info_context := context; info_timestamp := isoNow ev |}).
  transitivity (recentErrors (addToRecentErrors ev info (logError info st)));
    [|exact (addToRecentErrors_log ev info (logError info st))].
  destruct (isCriticalError error); [|destruct (isNetworkError error)].
  - unfold handleCriticalError. destruct (mainWindow ev); cbn [recentErrors emit setRetries];
      apply notifyUser_recentErrors.
  - unfold handleNetworkError. destruct (_ <? _); cbn [recentErrors emit setRetries];
      now rewrite notifyUser_recentErrors.
  - unfold handleRetryableError. destruct (_ <? _); cbn [recentErrors emit setRetries];
      now rewrite notifyUser_recentErrors.
Qed.

Lemma step_log_bounded (st : state) (i : env * input) :
  (length (recentErrors st) <= maxRecentErrors)%nat ->
  (length (recentErrors (step st i)) <= maxRecentErrors)%nat.
Proof.
  intros H. destruct i as [ev [a e c | c e | [a] | a]]; cbn [step].
  - rewrite handleAccountError_log. apply firstn_le_length.
  - unfold handleError. rewrite notifyUser_recentErrors, addToRecentErrors_log.
    apply firstn_le_length.
  - unfold retryAccountConnection. destruct (mainWindow ev); exact H.
  - unfold clearRetries. destruct (retryAttempts st !! a); exact H.
Qed.

Lemma run_log_bounded (inputs : list (env * input)) (st : state) :
  (length (recentErrors st) <= maxRecentErrors)%nat ->
  (length (recentErrors (run inputs st)) <= maxRecentErrors)%nat.
Proof.
  revert st; induction inputs as [|i inputs IH]; intros st H; [exact H|].
  apply IH, step_log_bounded, H.
Qed.

(** C7: whatever the log held, once anything is inserted it has at most 50
    entries, the newest first: it is the first 50 of the inserted entries in
    reverse order of insertion, followed by what was there before. Inserting
    60 errors [f 0], ..., [f 59] into a fresh handler leaves exactly the
    entries of [f 59], [f 58], ..., [f 10], in that order. In no state the
    handler reaches, whatever account errors, system errors, timer callbacks
    and recoveries it is given, does the log hold more than 50 entries. *)
Theorem recentErrors_bounded_newest_first :
  (forall inputs : list (env * input),
     (length (recentErrors (run inputs new)) <= 50)%nat) /\
  (forall (st : state) (i : env * errorInfo) (rest : list (env * errorInfo)),
     let log := recentErrors (insertAll (i :: rest) st) in
     (length log <= 50)%nat /\
     log = firstn 50 (rev (map entryOfInput (i :: rest)) ++ recentErrors st)) /\
  (forall f : nat -> env * errorInfo,
     let log := recentErrors (insertAll (map f (seq 0 60)) new) in
     length log = 50%nat /\
     log = map (fun k => entryOfInput (f k)) (rev (seq 10 50)) /\
     hd_error log = Some (entryOfInput (f 59%nat))).
Proof.
  split; [|split].
  - intros inputs. apply run_log_bounded. cbn. lia.
  - intros st i rest log. subst log. rewrite insertAll_log. split; [|reflexivity].
    apply firstn_le_length.
  - intros f log.
    assert (E : log = map (fun k => entryOfInput (f k)) (rev (seq 10 50))).
    { subst log. change (seq 0 60) with (0%nat :: seq 1 59).
      cbn [map]. rewrite insertAll_log.
      change (f 0%nat :: map f (seq 1 59)) with (map f (seq 0 60)).
      cbn [recentErrors new]. rewrite app_nil_r.
      rewrite map_map, <- map_rev.
      change maxRecentErrors with 50%nat.
      rewrite firstn_map. reflexivity. }
    rewrite E. repeat split.
Qed.

(** *** Retry policy *)

Lemma logged_retryAttempts (ev : env) (info : errorInfo) (st : state) :
  retryAttempts (addToRecentErrors ev info (logError info st)) = retryAttempts st.
Proof. now rewrite addToRecentErrors_retryAttempts. Qed.

Lemma logged_scheduled (ev : env) (info : errorInfo) (st : state) :
  scheduled (trace (addToRecentErrors ev info (logError info st))) = scheduled (trace st).
Proof.
  rewrite addToRecentErrors_trace. unfold logError, emit. cbn [trace].
  rewrite scheduled_app. apply app_nil_r.
Qed.

Lemma handleCriticalError_effect (ev : env) (accountId context : string)
    (error : js_error) (st : state) :
  let st' := handleCriticalError ev accountId error context st in
  retryAttempts st' = delete accountId (retryAttempts st) /\
  scheduled (trace st') = scheduled (trace st) /\
  In (Console "error"
        ("[CRITICAL] Account " +:+ accountId +:+ " disabled due to critical error: " +:+
         messageText error)) (trace st') /\
  (mainWindow ev = true ->
     exists before,
       trace st' = before ++
         [WindowSend "account:update" (AccountUpdate accountId "disabled" (message error))]).
Proof.
  unfold handleCriticalError.
  set (m := "Account " +:+ accountId +:+ " disabled due to critical error: " +:+
            messageText error).
  assert (Hin : In (Console "error" ("[CRITICAL] " +:+ m))
                   (trace (notifyUser ev m "critical" st))).
  { destruct (notifyUser_trace ev m "critical" st) as [extra [-> _]].
    apply in_or_app. right. left. reflexivity. }
  pose proof (notifyUser_retryAttempts ev m "critical" st) as Hr.
  pose proof (notifyUser_scheduled ev m "critical" st) as Hs.
  destruct (mainWindow ev); cbn [retryAttempts trace setRetries emit].
  - rewrite Hr, scheduled_app, Hs. repeat split.
    + apply app_nil_r.
    + apply in_or_app. left. exact Hin.
    + intros _. eexists. reflexivity.
  - rewrite Hr, Hs. repeat split; [exact Hin | discriminate].
Qed.

(** The delay of the retry that follows [retries] earlier attempts. *)
Lemma backoff_values (retries : Z) :
  0 <= retries < maxRetries ->
  retryDelay * 2 ^ retries = nth (Z.to_nat retries) [10000; 20000; 40000] 0.
Proof.
  unfold maxRetries, retryDelay. intros H.
  assert (retries = 0 \/ retries = 1 \/ retries = 2) as [-> | [-> | ->]] by lia;
    reflexivity.
Qed.

Lemma handleNetworkError_effect (ev : env) (accountId context : string)
    (error : js_error) (st : state) :
  let r := retriesOf st accountId in
  let st' := handleNetworkError ev accountId error context st in
  (r < maxRetries ->
     retryAttempts st' = <[accountId := r + 1]> (retryAttempts st) /\
     scheduled (trace st') = scheduled (trace st) ++ [(accountId, 5000)]) /\
  (maxRetries <= r ->
     retryAttempts st' = delete accountId (retryAttempts st) /\
     scheduled (trace st') = scheduled (trace st) /\
     In (Console "error"
           ("[ERROR] Account " +:+ accountId +:+ " failed after 3 network retry attempts"))
        (trace st')).
Proof.
  intros r st'. subst r st'. unfold handleNetworkError.
  destruct (Z.ltb_spec (retriesOf st accountId) maxRetries) as [Hlt|Hge].
  - split; [intros _ | lia].
    cbn [retryAttempts trace emit]. rewrite notifyUser_retryAttempts.
    rewrite scheduled_app, notifyUser_scheduled. split; reflexivity.
  - split; [lia | intros _].
    cbn [retryAttempts trace setRetries].
    rewrite notifyUser_retryAttempts, notifyUser_scheduled. repeat split.
    match goal with |- In _ (trace (notifyUser ?e ?m ?t ?s)) =>
      destruct (notifyUser_trace e m t s) as [extra [-> _]] end.
    apply in_or_app. right. left. reflexivity.
Qed.

Lemma handleRetryableError_effect (ev : env) (accountId context : string)
    (error : js_error) (st : state) :
  let r := retriesOf st accountId in
  let st' := handleRetryableError ev accountId error context st in
  (r < maxRetries ->
     retryAttempts st' = <[accountId := r + 1]> (retryAttempts st) /\
     scheduled (trace st') = scheduled (trace st) ++ [(accountId, retryDelay * 2 ^ r)]) /\
  (maxRetries <= r ->
     retryAttempts st' = delete accountId (retryAttempts st) /\
     scheduled (trace st') = scheduled (trace st) /\
     In (Console "error"
           ("[ERROR] Account " +:+ accountId +:+
            " failed after 3 retry attempts. Manual intervention required."))
        (trace st')).
Proof.
  intros r st'. subst r st'. unfold handleRetryableError.
  destruct (Z.ltb_spec (retriesOf st accountId) maxRetries) as [Hlt|Hge].
  - split; [intros _ | lia].
    cbn [retryAttempts trace emit]. rewrite notifyUser_retryAttempts.
    rewrite scheduled_app, notifyUser_scheduled. split; reflexivity.
  - split; [lia | intros _].
    cbn [retryAttempts trace setRetries].
    rewrite notifyUser_retryAttempts, notifyUser_scheduled. repeat split.
    match goal with |- In _ (trace (notifyUser ?e ?m ?t ?s)) =>
      destruct (notifyUser_trace e m t s) as [extra [-> _]] end.
    apply in_or_app. right. left. reflexivity.
Qed.

Lemma retriesOf_bounded (st : state) (accountId : string) :
  countersBounded st -> 0 <= retriesOf st accountId <= maxRetries.
Proof.
  intros H. unfold retriesOf.
  destruct (retryAttempts st !! accountId) as [r|] eqn:E; [|unfold maxRetries; lia].
  apply H in E. destruct (Z.eqb_spec r 0); unfold maxRetries in *; lia.
Qed.

Lemma countersBounded_delete (st st' : state) (accountId : string) :
  countersBounded st ->
  retryAttempts st' = delete accountId (retryAttempts st) ->
  countersBounded st'.
Proof.
  intros H E a r. rewrite E. intros Hl.
  apply lookup_delete_Some in Hl. apply (H a r), Hl.
Qed.

Lemma countersBounded_bump (st st' : state) (accountId : string) :
  countersBounded st ->
  retriesOf st accountId < maxRetries ->
  retryAttempts st' = <[accountId := retriesOf st accountId + 1]> (retryAttempts st) ->
  countersBounded st'.
Proof.
  intros H Hlt E a r. rewrite E. intros Hl.
  apply lookup_insert_Some in Hl as [[<- <-] | [_ Hl]].
  - pose proof (retriesOf_bounded st accountId H). lia.
  - apply (H a r), Hl.
Qed.

Lemma retriesOf_logged (ev : env) (info : errorInfo) (st : state) (accountId : string) :
  retriesOf (addToRecentErrors ev info (logError info st)) accountId = retriesOf st accountId.
Proof. apply retriesOf_ext, logged_retryAttempts. Qed.

Lemma countersBounded_ext (st st' : state) :
  retryAttempts st' = retryAttempts st -> countersBounded st -> countersBounded st'.
Proof. unfold countersBounded. now intros ->. Qed.

Lemma handleAccountError_bounded (ev : env) (accountId context : string)
    (error : js_error) (st : state) :
  countersBounded st ->
  countersBounded (handleAccountError ev accountId error context st).
Proof.
  intros H. rewrite classify_dispatch. cbv zeta.
  set (info := {| info_accountId := accountId; info_error := errorOrMessage error;
                  info_context := context; info_timestamp := isoNow ev |}).
  set (st1 := addToRecentErrors ev info (logError info st)).
  assert (H1 : countersBounded st1)
    by (eapply countersBounded_ext; [apply logged_retryAttempts | exact H]).
  destruct (classify error).
  - eapply countersBounded_delete; [exact H1|].
    apply handleCriticalError_effect.
  - destruct (handleNetworkError_effect ev accountId context error st1) as [Hlo Hhi].
    destruct (Z.lt_ge_cases (retriesOf st1 accountId) maxRetries) as [Hlt|Hge].
    + eapply countersBounded_bump; [exact H1 | exact Hlt | apply Hlo, Hlt].
    + eapply countersBounded_delete; [exact H1 | apply Hhi, Hge].
  - destruct (handleRetryableError_effect ev accountId context error st1) as [Hlo Hhi].
    destruct (Z.lt_ge_cases (retriesOf st1 accountId) maxRetries) as [Hlt|Hge].
    + eapply countersBounded_bump; [exact H1 | exact Hlt | apply Hlo, Hlt].
    + eapply countersBounded_delete; [exact H1 | apply Hhi, Hge].
Qed.

Lemma step_bounded (st : state) (i : env * input) :
  countersBounded st -> countersBounded (step st i).
Proof.
  intros H. destruct i as [ev [a e c | c e | [a] | a]]; cbn [step].
  - now apply handleAccountError_bounded.
  - unfold handleError. eapply countersBounded_ext; [|exact H].
    now rewrite notifyUser_retryAttempts, logged_retryAttempts.
  - unfold retryAccountConnection. destruct (mainWindow ev); exact H.
  - unfold clearRetries. destruct (retryAttempts st !! a) eqn:E; [|exact H].
    eapply countersBounded_delete; [exact H | reflexivity].
Qed.

Lemma run_bounded (inputs : list (env * input)) (st : state) :
  countersBounded st -> countersBounded (run inputs st).
Proof.
  revert st; induction inputs as [|i inputs IH]; intros st H; [exact H|].
  apply IH, step_bounded, H.
Qed.

Lemma new_bounded : countersBounded new.
Proof. intros a r. cbn. rewrite lookup_empty. discriminate. Qed.

Lemma retriesOf_deleted (st st' : state) (accountId : string) :
  retryAttempts st' = delete accountId (retryAttempts st) ->
  retryAttempts st' !! accountId = None /\ retriesOf st' accountId = 0.
Proof.
  intros E. unfold retriesOf. rewrite E, lookup_delete_eq. split; reflexivity.
Qed.

Lemma clearRetries_resets (st : state) (accountId : string) :
  retryAttempts (clearRetries accountId st) !! accountId = None /\
  retriesOf (clearRetries accountId st) accountId = 0.
Proof.
  unfold clearRetries. destruct (retryAttempts st !! accountId) eqn:E.
  - now apply (retriesOf_deleted st).
  - unfold retriesOf. rewrite E. split; reflexivity.
Qed.

Lemma retriesOf_bumped (st st' : state) (accountId : string) (r : Z) :
  0 <= r ->
  retryAttempts st' = <[accountId := r + 1]> (retryAttempts st) ->
  retriesOf st' accountId = r + 1.
Proof.
  intros Hr E. unfold retriesOf. rewrite E, lookup_insert_eq.
  destruct (Z.eqb_spec (r + 1) 0); lia.
Qed.

(** C4: in every reachable state the attempt counter [r] of an account is
    between 0 and 3. Handling a non-critical error with [r < 3] schedules
    exactly one retry, after 5 seconds for a network error and after the
    [r]-th of 10, 20, 40 seconds for a generic one, and counts it; with
    [r = 3] it schedules nothing, emits the terminal failure notification
    and deletes the counter. [clearRetries] makes the counter read 0. *)
Theorem retry_policy (inputs : list (env * input)) (ev : env)
    (accountId context : string) (error : js_error) :
  classify error <> Critical ->
  let st := run inputs new in
  let r := retriesOf st accountId in
  let st' := handleAccountError ev accountId error context st in
  0 <= r <= 3 /\
  (r < 3 ->
     scheduled (trace st') =
       scheduled (trace st) ++
       [(accountId,
         match classify error with
         | NetworkTransient => 5000
         | _ => nth (Z.to_nat r) [10000; 20000; 40000] 0
         end)] /\
     retriesOf st' accountId = r + 1) /\
  (r = 3 ->
     scheduled (trace st') = scheduled (trace st) /\
     In (Console "error"
           ("[ERROR] Account " +:+ accountId +:+
            match classify error with
            | NetworkTransient => " failed after 3 network retry attempts"
            | _ => " failed after 3 retry attempts. Manual intervention required."
            end)) (trace st') /\
     retryAttempts st' !! accountId = None) /\
  retriesOf (clearRetries accountId st) accountId = 0 /\
  retriesOf (clearRetries accountId st') accountId = 0.
Proof.
  intros Hnc st r st'.
  assert (Hb : countersBounded st) by apply run_bounded, new_bounded.
  pose proof (retriesOf_bounded st accountId Hb) as Hr. fold r in Hr.
  change maxRetries with 3 in Hr.
  split; [exact Hr|].
  split; [|split; [|split; apply clearRetries_resets]].
  - intros Hlt. subst st'. rewrite classify_dispatch. cbv zeta.
    set (info := {| info_accountId := accountId; info_error := errorOrMessage error;
                    info_context := context; info_timestamp := isoNow ev |}).
    pose proof (retriesOf_logged ev info st accountId) as E1.
    pose proof (logged_scheduled ev info st) as E2.
    destruct (classify error); [congruence | |].
    + destruct (handleNetworkError_effect ev accountId context error
                  (addToRecentErrors ev info (logError info st))) as [[Ha Hs] _].
      { rewrite E1. exact Hlt. }
      rewrite Hs, E2. split; [reflexivity|].
      rewrite E1 in Ha. apply (retriesOf_bumped _ _ _ _ (proj1 Hr) Ha).
    + destruct (handleRetryableError_effect ev accountId context error
                  (addToRecentErrors ev info (logError info st))) as [[Ha Hs] _].
      { rewrite E1. exact Hlt. }
      rewrite Hs, E2, E1. fold r. rewrite backoff_values by (unfold maxRetries; lia).
      split; [reflexivity|].
      rewrite E1 in Ha. apply (retriesOf_bumped _ _ _ _ (proj1 Hr) Ha).
  - intros H3. subst st'. rewrite classify_dispatch. cbv zeta.
    set (info := {| info_accountId := accountId; info_error := errorOrMessage error;
                    info_context := context; info_timestamp := isoNow ev |}).
    pose proof (retriesOf_logged ev info st accountId) as E1.
    pose proof (logged_scheduled ev info st) as E2.
    destruct (classify error); [congruence | |].
    + destruct (handleNetworkError_effect ev accountId context error
                  (addToRecentErrors ev info (logError info st))) as [_ [Ha [Hs Hi]]].
      { rewrite E1. fold r. unfold maxRetries. lia. }
      rewrite Hs, E2. repeat split; [exact Hi|].
      eapply retriesOf_deleted, Ha.
    + destruct (handleRetryableError_effect ev accountId context error
                  (addToRecentErrors ev info (logError info st))) as [_ [Ha [Hs Hi]]].
      { rewrite E1. fold r. unfold maxRetries. lia. }
      rewrite Hs, E2. repeat split; [exact Hi|].
      eapply retriesOf_deleted, Ha.
Qed.

Lemma retry_policy_witness :
  classify (ErrorObj "Error" "socket hang up") <> Critical /\
  0 <= retriesOf (run [] new) "account_1" <= 3.
Proof.
  assert (H : classify (ErrorObj "Error" "socket hang up") <> Critical)
    by (vm_compute; discriminate).
  split; [exact H|].
  exact (proj1 (retry_policy [] sampleEnv "account_1" "client_error"
                  (ErrorObj "Error" "socket hang up") H)).
Defined.

(** Three network errors in a row are retried after 5 s each, the fourth is
    not; three generic ones after 10, 20 and 40 s. *)
Example network_retries :
  let e := ErrorEvent "account_1" (ErrorObj "Error" "socket hang up") "client_error" in
  let st := run (repeat (sampleEnv, e) 4) new in
  scheduled (trace st) = repeat ("account_1", 5000) 3 /\
  retryAttempts st !! "account_1" = None.
Proof. vm_compute. split; reflexivity. Qed.

Example generic_retries :
  let e := ErrorEvent "account_1" (ErrorObj "Error" "Evaluation failed") "client_error" in
  let st := run (repeat (sampleEnv, e) 4) new in
  scheduled (trace st) =
    [("account_1", 10000); ("account_1", 20000); ("account_1", 40000)] /\
  retryAttempts st !! "account_1" = None.
Proof. vm_compute. split; reflexivity. Qed.

(** A recovery after the second attempt: the counter reads 0 again and the
    next error is attempt 1. *)
Example recovery_after_second_attempt :
  let e := ErrorEvent "account_1" (ErrorObj "Error" "Evaluation failed") "client_error" in
  let st := run [(sampleEnv, e); (sampleEnv, e); (sampleEnv, Recovered "account_1")] new in
  retriesOf st "account_1" = 0 /\
  scheduled (trace (step st (sampleEnv, e))) =
    [("account_1", 10000); ("account_1", 20000); ("account_1", 10000)].
Proof. vm_compute. split; reflexivity. Qed.

(** *** Critical errors *)

Lemma quiet_step (st : state) (i : env * input) :
  criticalOnly i -> scheduled (trace (step st i)) = scheduled (trace st).
Proof.
  destruct i as [ev [a e c | c e | [a] | a]]; cbn [step criticalOnly snd].
  - intros Hc. rewrite classify_dispatch. cbv zeta. rewrite Hc.
    destruct (handleCriticalError_effect ev a c e
                (addToRecentErrors ev
                   {| info_accountId := a; info_error := errorOrMessage e;
                      info_context := c; info_timestamp := isoNow ev |}
                   (logError
                      {| info_accountId := a; info_error := errorOrMessage e;
                         info_context := c; info_timestamp := isoNow ev |} st)))
      as [_ [Hs _]].
    rewrite Hs. apply logged_scheduled.
  - intros _. unfold handleError. rewrite notifyUser_scheduled. apply logged_scheduled.
  - intros _. unfold retryAccountConnection. destruct (mainWindow ev); [|reflexivity].
    cbn [trace emit]. rewrite scheduled_app. apply app_nil_r.
  - intros _. unfold clearRetries. destruct (retryAttempts st !! a); reflexivity.
Qed.

Lemma quiet_run (inputs : list (env * input)) (st : state) :
  Forall criticalOnly inputs -> scheduled (trace (run inputs st)) = scheduled (trace st).
Proof.
  revert st; induction inputs as [|i inputs IH]; intros st H; [reflexivity|].
  inversion H as [|? ? Hi Hrest]; subst.
  change (run (i :: inputs) st) with (run inputs (step st i)).
  rewrite IH by exact Hrest. now apply quiet_step.
Qed.

(** C3, as stated, fails: the handler keeps no record of the disabling, so a
    network error that arrives for the same account after a critical one is
    retried like any other. *)
Lemma retry_after_critical_counterexample :
  classify (ErrorObj "Error" "Account banned") = Critical /\
  classify (ErrorObj "Error" "socket hang up") = NetworkTransient /\
  scheduled (trace (run
    [ (sampleEnv, ErrorEvent "account_1" (ErrorObj "Error" "Account banned") "client_error");
      (sampleEnv, ErrorEvent "account_1" (ErrorObj "Error" "socket hang up") "client_error") ]
    new)) = [("account_1", 5000)].
Proof. vm_compute. repeat split; reflexivity. Qed.

(** C3 (amended): handling a critical error for an account emits the
    critical notice that the account is disabled and, when a main window
    exists, ends by sending it [account:update] with status ["disabled"];
    it deletes the account's retry counter and schedules no retry. Later
    inputs that are critical errors, timer callbacks or recoveries schedule
    nothing either; a later non-critical error for the account is handled
    from a counter of 0, so it schedules a first retry. *)
Theorem critical_error_disables (ev : env) (accountId context : string)
    (error : js_error) (st : state) :
  classify error = Critical ->
  let st' := handleAccountError ev accountId error context st in
  In (Console "error"
        ("[CRITICAL] Account " +:+ accountId +:+ " disabled due to critical error: " +:+
         messageText error)) (trace st') /\
  (mainWindow ev = true ->
     exists before,
       trace st' = before ++
         [WindowSend "account:update" (AccountUpdate accountId "disabled" (message error))]) /\
  retryAttempts st' = delete accountId (retryAttempts st) /\
  retriesOf st' accountId = 0 /\
  scheduled (trace st') = scheduled (trace st) /\
  (forall later : list (env * input),
     Forall criticalOnly later ->
     scheduled (trace (run later st')) = scheduled (trace st)) /\
  (forall (ev2 : env) (context2 : string) (error2 : js_error),
     classify error2 <> Critical ->
     scheduled (trace (handleAccountError ev2 accountId error2 context2 st')) =
       scheduled (trace st) ++
       [(accountId,
         match classify error2 with NetworkTransient => 5000 | _ => 10000 end)]).
Proof.
  intros Hc st'.
  set (info := {| info_accountId := accountId; info_error := errorOrMessage error;
                  info_context := context; info_timestamp := isoNow ev |}).
  assert (E : st' = handleCriticalError ev accountId error context
                      (addToRecentErrors ev info (logError info st))).
  { subst st'. rewrite classify_dispatch. cbv zeta. now rewrite Hc. }
  destruct (handleCriticalError_effect ev accountId context error
              (addToRecentErrors ev info (logError info st))) as [Ha [Hs [Hi Hw]]].
  rewrite <- E in Ha, Hs, Hi, Hw.
  rewrite logged_retryAttempts in Ha. rewrite logged_scheduled in Hs.
  destruct (retriesOf_deleted _ _ _ Ha) as [Hnone Hzero].
  repeat split; try assumption.
  - intros later Hl. rewrite quiet_run by exact Hl. exact Hs.
  - intros ev2 context2 error2 Hnc.
    rewrite classify_dispatch. cbv zeta.
    set (info2 := {| info_accountId := accountId; info_error := errorOrMessage error2;
                     info_context := context2; info_timestamp := isoNow ev2 |}).
    pose proof (retriesOf_logged ev2 info2 st' accountId) as E1.
    pose proof (logged_scheduled ev2 info2 st') as E2.
    rewrite Hzero in E1.
    destruct (classify error2); [congruence | |].
    + destruct (handleNetworkError_effect ev2 accountId context2 error2
                  (addToRecentErrors ev2 info2 (logError info2 st'))) as [[_ Hs2] _].
      { rewrite E1. reflexivity. }
      now rewrite Hs2, E2, Hs.
    + destruct (handleRetryableError_effect ev2 accountId context2 error2
                  (addToRecentErrors ev2 info2 (logError info2 st'))) as [[_ Hs2] _].
      { rewrite E1. reflexivity. }
      now rewrite Hs2, E2, Hs, E1.
Qed.

Lemma critical_error_disables_witness :
  classify (ErrorObj "Error" "Account banned") = Critical /\
  retriesOf (handleAccountError sampleEnv "account_1" (ErrorObj "Error" "Account banned")
               "client_error" new) "account_1" = 0.
Proof.
  assert (H : classify (ErrorObj "Error" "Account banned") = Critical)
    by (vm_compute; reflexivity).
  split; [exact H|].
  exact (proj1 (proj2 (proj2 (proj2
    (critical_error_disables sampleEnv "account_1" "client_error"
       (ErrorObj "Error" "Account banned") new H))))).
Defined.

End ErrorHandlerFacts.

(** ** The account manager *)
Section AccountManagerFacts.
Import JsString Js AccountManager.

(** *** Admission *)

Lemma ensureDirectory_runs (p : string) (st : manager) :
  exists st', ensureDirectory p st = (Return tt, st') /\
              accounts st' = accounts st /\ activeAccount st' = activeAccount st.
Proof.
  unfold ensureDirectory, bind, get, ret, emit, modify.
  destruct (existsSync p (directories st)); eexists; repeat split.
Qed.

(** [LocalAuth] accepts the client id of an account exactly when the
    account id consists of letters, digits, underscores and hyphens. *)
Lemma rejects_account_clientId (id : string) :
  LocalAuth.rejects ("account_" +:+ id) = negb (LocalAuth.idChars id).
Proof. reflexivity. Qed.

Lemma idChars_noSeparator (id : string) :
  LocalAuth.idChars id = true -> NodePath.noSeparator id = true.
Proof.
  induction id as [|c id IH]; [reflexivity|]. cbn [LocalAuth.idChars NodePath.noSeparator].
  intros [Hc Hid]%andb_prop. rewrite (IH Hid), andb_true_r.
  destruct (Ascii.eqb_spec c "/") as [->|_]; [discriminate Hc | reflexivity].
Qed.

Lemma setupClientEventHandlers_runs (c : client) (id : string) (st : manager) :
  exists st', setupClientEventHandlers c id st = (Return tt, st') /\
              accounts st' = accounts st /\ activeAccount st' = activeAccount st.
Proof.
  unfold setupClientEventHandlers, bind, emit, modify. eexists; repeat split.
Qed.

(** The record [createAccount] stores for a new account. *)
Lemma createAccount_accepts (now : Z) (data : accountData) (st : manager) :
  (size (accounts st) < maxAccounts)%nat ->
  accounts st !! data_accountId data = None ->
  LocalAuth.idChars (data_accountId data) = true ->
  exists st',
    createAccount now data st =
      (Return {| created_accountId := data_accountId data;
                 created_displayName := data_displayName data;
                 created_status := "created" |}, st') /\
    exists info,
      accounts st' = <[data_accountId data := info]> (accounts st) /\
      accountId info = data_accountId data /\
      displayName info = data_displayName data /\
      (dataPath info, chromeProfilePath info) = isolationPaths (data_accountId data) /\
      authDataPath (accountClient info) = dataPath info /\
      isActive info = false /\ isAuthenticated info = false /\
      messageCache (ui info) = ∅ /\
      In ("--user-data-dir=" +:+ chromeProfilePath info) (args (accountClient info)).
Proof.
  intros Hsize Hfresh Hvalid. unfold createAccount.
  unfold bind at 1, get at 1.
  destruct (Nat.leb_spec maxAccounts (size (accounts st))) as [Hfull|_]; [lia|].
  destruct (decide (is_Some (accounts st !! data_accountId data))) as [Hsome|_].
  { rewrite Hfresh in Hsome. destruct Hsome; discriminate. }
  unfold bind at 1.
  destruct (ensureDirectory_runs (NodePath.join ["./data/accounts"; data_accountId data]) st)
    as [st1 [-> [Ha1 _]]].
  unfold bind at 1.
  destruct (ensureDirectory_runs
              (NodePath.join ["./data/chrome_profiles"; "chrome_" +:+ data_accountId data]) st1)
    as [st2 [-> [Ha2 _]]].
  rewrite rejects_account_clientId, Hvalid. cbn [negb].
  unfold bind at 1.
  match goal with |- context [setupClientEventHandlers ?c ?i st2] =>
    destruct (setupClientEventHandlers_runs c i st2) as [st3 [-> [Ha3 _]]] end.
  unfold bind, setAccount, modify, ret. cbn [accounts].
  eexists. split; [reflexivity|].
  eexists. rewrite Ha3, Ha2, Ha1. repeat split.
  cbn [args accountClient chromeProfilePath]. do 7 right. left. reflexivity.
Qed.

Lemma createAccount_rejects (now : Z) (data : accountData) (st : manager) :
  (maxAccounts <= size (accounts st))%nat \/ is_Some (accounts st !! data_accountId data) ->
  createAccount now data st =
    (Throw (if (maxAccounts <=? size (accounts st))%nat
            then "Maximum 10 accounts allowed"
            else "Account " +:+ data_accountId data +:+ " already exists"), st).
Proof.
  intros H. unfold createAccount, bind, get, throw.
  destruct (Nat.leb_spec maxAccounts (size (accounts st))) as [Hfull|Hroom];
    [reflexivity|].
  destruct H as [H|H]; [lia|].
  destruct (decide (is_Some (accounts st !! data_accountId data))); [reflexivity|contradiction].
Qed.

(** A client id that [LocalAuth] refuses: the two directories are made, the
    constructor throws, and nothing is registered. *)
Lemma createAccount_invalid (now : Z) (data : accountData) (st : manager) :
  (size (accounts st) < maxAccounts)%nat ->
  accounts st !! data_accountId data = None ->
  LocalAuth.idChars (data_accountId data) = false ->
  exists st',
    createAccount now data st = (Throw LocalAuth.invalidClientId, st') /\
    accounts st' = accounts st /\ activeAccount st' = activeAccount st.
Proof.
  intros Hsize Hfresh Hinvalid. unfold createAccount.
  unfold bind at 1, get at 1.
  destruct (Nat.leb_spec maxAccounts (size (accounts st))) as [Hfull|_]; [lia|].
  destruct (decide (is_Some (accounts st !! data_accountId data))) as [Hsome|_].
  { rewrite Hfresh in Hsome. destruct Hsome; discriminate. }
  unfold bind at 1.
  destruct (ensureDirectory_runs (NodePath.join ["./data/accounts"; data_accountId data]) st)
    as [st1 [-> [Ha1 Hb1]]].
  unfold bind at 1.
  destruct (ensureDirectory_runs
              (NodePath.join ["./data/chrome_profiles"; "chrome_" +:+ data_accountId data]) st1)
    as [st2 [-> [Ha2 Hb2]]].
  rewrite rejects_account_clientId, Hinvalid. cbn [negb]. unfold throw.
  eexists. split; [reflexivity|]. now rewrite Ha2, Ha1, Hb2, Hb1.
Qed.




Example refused_id_leaves_directories :
  elements (directories (snd (createAccount 1700000000000
                                {| data_accountId := "a/b"; data_displayName := "Line" |}
                                (new ∅)))) =
  ["data/chrome_profiles/chrome_a/b"; "data/chrome_profiles/chrome_a";
   "data/chrome_profiles"; "data/accounts/a/b"; "data/accounts/a"; "data/accounts"; "data"].
Proof. vm_compute. reflexivity. Qed.



Example eleventh_account_rejected :
  size (accounts tenAccounts) = 10%nat /\
  createAccount 1700000000011
    {| data_accountId := "account_11"; data_displayName := "Line 11" |} tenAccounts =
  (Throw "Maximum 10 accounts allowed", tenAccounts).
Proof.
  split; [vm_compute; reflexivity|].
  apply createAccount_rejects. left. vm_compute. apply le_n.
Qed.

(** *** Sending *)

(** C5: for an account of the registry that is not both active and
    authenticated, [sendMessage] throws the not-ready error and the manager,
    with every message buffer and the trace of client calls, is exactly as
    before. *)
Theorem sendMessage_not_ready (now : Z) (reply : completion string)
    (id phoneNumber messageText : string) (account : accountInfo) (st : manager) :
  accounts st !! id = Some account ->
  isActive account && isAuthenticated account = false ->
  let result := sendMessage now reply id phoneNumber messageText st in
  fst result = Throw ("Account " +:+ id +:+ " is not ready") /\
  snd result = st /\
  (forall account', accounts (snd result) !! id = Some account' ->
     messageCache (ui account') = messageCache (ui account)) /\
  effects (snd result) = effects st.
Proof.
  intros Hacc Hflags result. subst result.
  unfold sendMessage, bind, get, throw. rewrite Hacc.
  assert (Hn : negb (isActive account) || negb (isAuthenticated account) = true)
    by (destruct (isActive account), (isAuthenticated account); simpl in *; congruence).
  rewrite Hn. cbn [fst snd]. repeat split.
  intros account' H. rewrite Hacc in H. now inversion H.
Qed.

Example oneAccount_lookup : accounts oneAccount !! "account_1" = Some firstAccount.
Proof. vm_compute. reflexivity. Qed.

Example oneReadyAccount_lookup :
  accounts oneReadyAccount !! "account_1" = Some (readyAccount firstAccount).
Proof. vm_compute. reflexivity. Qed.

Lemma sendMessage_not_ready_witness :
  accounts oneAccount !! "account_1" = Some firstAccount /\
  isActive firstAccount && isAuthenticated firstAccount = false /\
  snd (sendMessage 1700000000500 (Return "true_491234@c.us_3EB0")
         "account_1" "+49 1234" "hello" oneAccount) = oneAccount.
Proof.
  assert (H1 : accounts oneAccount !! "account_1" = Some firstAccount)
    by (vm_compute; reflexivity).
  assert (H2 : isActive firstAccount && isAuthenticated firstAccount = false)
    by reflexivity.
  split; [exact H1|]. split; [exact H2|].
  exact (proj1 (proj2 (sendMessage_not_ready 1700000000500 (Return "true_491234@c.us_3EB0")
                         "account_1" "+49 1234" "hello" firstAccount oneAccount H1 H2))).
Defined.

Lemma replaceNonDigits_filter (s : string) :
  replaceNonDigits s =
  string_of_list_ascii (List.filter isDigit (list_ascii_of_string s)).
Proof.
  induction s as [|c s IH]; [reflexivity|]. simpl.
  destruct (isDigit c); simpl; now rewrite IH.
Qed.

Lemma replaceNonDigits_none (s : string) :
  hasDigit s = false -> replaceNonDigits s = "".
Proof.
  induction s as [|c s IH]; [reflexivity|]. simpl.
  destruct (isDigit c); [discriminate|]. exact IH.
Qed.

(** C10: for an account that is active and authenticated, [sendMessage]
    calls the client with the destination stripped of every non-digit
    character and followed by ["@c.us"]; when the client call returns, the
    record it returns and stores carries that address and is appended to the
    buffer kept under that address; when the client call throws, the error
    is passed on and no account changes. A destination without any digit is
    not refused: the address is then ["@c.us"]. *)
Theorem sendMessage_normalizes (now : Z) (reply : completion string)
    (id phoneNumber messageText : string) (account : accountInfo) (st : manager) :
  accounts st !! id = Some account ->
  isActive account = true ->
  isAuthenticated account = true ->
  let to :=
    string_of_list_ascii (List.filter isDigit (list_ascii_of_string phoneNumber))
    +:+ "@c.us" in
  let result := sendMessage now reply id phoneNumber messageText st in
  effects (snd result) =
    effects st ++ [ClientSendMessage (clientId (accountClient account)) to messageText] /\
  match reply with
  | Return serialized =>
      let sent := {| msg_id := serialized; msg_to := to; msg_body := messageText;
                     msg_timestamp := now; msg_accountId := id; msg_status := "sent" |} in
      fst result = Return sent /\
      exists account',
        accounts (snd result) = <[id := account']> (accounts st) /\
        messageCache (ui account') !! to =
          Some (default [] (messageCache (ui account) !! to) ++ [sent]) /\
        (forall chat, chat <> to ->
           messageCache (ui account') !! chat = messageCache (ui account) !! chat)
  | Throw error => fst result = Throw error /\ accounts (snd result) = accounts st
  end /\
  (hasDigit phoneNumber = false -> to = "@c.us").
Proof.
  intros Hacc Hactive Hauth to result. subst to result.
  rewrite <- replaceNonDigits_filter.
  unfold sendMessage, bind, get, throw, emit, modify, setAccount, ret.
  rewrite Hacc, Hactive, Hauth. cbn [negb orb fst snd effects accounts].
  split; [destruct reply; reflexivity|]. split.
  - destruct reply as [serialized|error]; cbn [fst snd accounts]; [|split; reflexivity].
    split; [reflexivity|]. eexists. split; [reflexivity|].
    unfold pushMessage. cbn [ui withUi messageCache]. split.
    + rewrite lookup_insert_eq.
      destruct (messageCache (ui account) !! (replaceNonDigits phoneNumber +:+ "@c.us"))
        as [old|] eqn:E.
      * now rewrite E.
      * now rewrite lookup_insert_eq.
    + intros chat Hne. rewrite lookup_insert_ne by congruence.
      destruct (messageCache (ui account) !! (replaceNonDigits phoneNumber +:+ "@c.us"));
        [reflexivity|]. now rewrite lookup_insert_ne by congruence.
  - intros Hnone. now rewrite replaceNonDigits_none.
Qed.

Lemma sendMessage_normalizes_witness :
  accounts oneReadyAccount !! "account_1" = Some (readyAccount firstAccount) /\
  isActive (readyAccount firstAccount) = true /\
  isAuthenticated (readyAccount firstAccount) = true /\
  effects (snd (sendMessage 1700000000500 (Return "true_491234@c.us_3EB0")
                  "account_1" "+49 (0) 12-34" "hello" oneReadyAccount)) =
    effects oneReadyAccount ++
    [ClientSendMessage "account_account_1" "4901234@c.us" "hello"].
Proof.
  assert (H1 : accounts oneReadyAccount !! "account_1" = Some (readyAccount firstAccount))
    by (vm_compute; reflexivity).
  assert (H2 : isActive (readyAccount firstAccount) = true) by reflexivity.
  assert (H3 : isAuthenticated (readyAccount firstAccount) = true) by reflexivity.
  split; [exact H1|]. split; [exact H2|]. split; [exact H3|].
  exact (proj1 (sendMessage_normalizes 1700000000500 (Return "true_491234@c.us_3EB0")
                  "account_1" "+49 (0) 12-34" "hello" (readyAccount firstAccount)
                  oneReadyAccount H1 H2 H3)).
Defined.

Example no_digit_destination :
  fst (sendMessage 1700000000500 (Return "true_@c.us_3EB0")
         "account_1" "call me" "hello" oneReadyAccount) =
  Return {| msg_id := "true_@c.us_3EB0"; msg_to := "@c.us"; msg_body := "hello";
            msg_timestamp := 1700000000500; msg_accountId := "account_1";
            msg_status := "sent" |}.
Proof. vm_compute. reflexivity. Qed.

(** *** Isolation paths *)

Lemma noSeparator_chrome (id : string) :
  NodePath.noSeparator id = true -> NodePath.noSeparator ("chrome_" +:+ id) = true.
Proof. intros H. rewrite !append_cons. cbn. exact H. Qed.

Lemma chromeProfilePathOf_plain (id : string) :
  NodePath.noSeparator id = true ->
  chromeProfilePathOf id = "data/chrome_profiles/chrome_" +:+ id.
Proof.
  intros H. unfold chromeProfilePathOf.
  change "./data/chrome_profiles" with ("./data/" +:+ "chrome_profiles").
  rewrite join_under_data; try reflexivity.
  - now apply noSeparator_chrome.
Qed.

Lemma isolationPaths_distinct_plain (id1 id2 : string) :
  NodePath.noSeparator id1 = true -> NodePath.noSeparator id2 = true ->
  id1 <> id2 -> isolationPaths id1 <> isolationPaths id2.
Proof.
  intros H1 H2 Hne Heq. apply Hne.
  unfold isolationPaths in Heq. injection Heq as _ Hc.
  rewrite !chromeProfilePathOf_plain in Hc by assumption.
  now apply append_inj_l in Hc.
Qed.

(** What one call of [createAccount] does to the registry: nothing, or one
    new account under an id that [LocalAuth] accepted, with the namespaces
    of that id. *)
Lemma createAccount_registry (now : Z) (data : accountData) (st : manager) :
  accounts (snd (createAccount now data st)) = accounts st \/
  LocalAuth.idChars (data_accountId data) = true /\
  exists info,
    accounts (snd (createAccount now data st)) =
      <[data_accountId data := info]> (accounts st) /\
    (dataPath info, chromeProfilePath info) = isolationPaths (data_accountId data).
Proof.
  destruct (Nat.leb_spec maxAccounts (size (accounts st))) as [Hfull|Hroom].
  { left. now rewrite createAccount_rejects by (left; exact Hfull). }
  destruct (accounts st !! data_accountId data) as [a|] eqn:E.
  { left. now rewrite createAccount_rejects by (right; rewrite E; eauto). }
  destruct (LocalAuth.idChars (data_accountId data)) eqn:Hvalid.
  - right. split; [reflexivity|].
    destruct (createAccount_accepts now data st Hroom E Hvalid)
      as [st' [E1 [info [E2 [_ [_ [Hp _]]]]]]].
    rewrite E1. exists info. split; assumption.
  - left. destruct (createAccount_invalid now data st Hroom E Hvalid) as (st' & -> & Ha & _).
    exact Ha.
Qed.

(** Every account of a registry built by [createAccount] carries an id
    that [LocalAuth] accepted and the namespaces of that id. *)
Lemma createAll_registered (requests : list (Z * accountData)) (st : manager) :
  (forall id a, accounts st !! id = Some a ->
     LocalAuth.idChars id = true /\ (dataPath a, chromeProfilePath a) = isolationPaths id) ->
  forall id a, accounts (createAll requests st) !! id = Some a ->
    LocalAuth.idChars id = true /\ (dataPath a, chromeProfilePath a) = isolationPaths id.
Proof.
  revert st. induction requests as [|[now data] requests IH]; intros st Hinv; [exact Hinv|].
  cbn [createAll fold_left fst snd]. apply IH. intros id a.
  destruct (createAccount_registry now data st) as [->|(Hvalid & info & -> & Hp)];
    [apply Hinv|].
  destruct (decide (data_accountId data = id)) as [<-|Hne].
  - rewrite lookup_insert_eq. intros [= <-]. split; assumption.
  - rewrite lookup_insert_ne by exact Hne. apply Hinv.
Qed.

(** C9: the two namespaces of an account are derived from its id alone, by
    the same two [path.join] calls in [createSimpleIsolatedClient] and in
    [createAccount], whatever the state of the manager. Two distinct ids
    that [LocalAuth] accepts (letters, digits, underscores, hyphens) never
    derive the same pair; every account of the registry carries such an id
    and the pair derived from it, so no two registered accounts share their
    namespaces. *)
Theorem isolationPaths_stable_and_distinct (id1 id2 : string) :
  (LocalAuth.idChars id1 = true ->
   forall (chrome : option string) (st : manager),
     exists c st',
       createSimpleIsolatedClient chrome id1 st = (Return c, st') /\
       authDataPath c = fst (isolationPaths id1) /\
       In ("--user-data-dir=" +:+ snd (isolationPaths id1)) (args c)) /\
  (LocalAuth.idChars id1 = true ->
   forall (now : Z) (name : string) (st : manager),
     (size (accounts st) < 10)%nat ->
     accounts st !! id1 = None ->
     exists info,
       accounts (snd (createAccount now {| data_accountId := id1; data_displayName := name |}
                        st)) !! id1 = Some info /\
       (dataPath info, chromeProfilePath info) = isolationPaths id1 /\
       authDataPath (accountClient info) = fst (isolationPaths id1) /\
       In ("--user-data-dir=" +:+ snd (isolationPaths id1)) (args (accountClient info))) /\
  (LocalAuth.idChars id1 = true -> LocalAuth.idChars id2 = true ->
   id1 <> id2 -> isolationPaths id1 <> isolationPaths id2) /\
  (forall (dirs : gset string) (requests : list (Z * accountData)) (a1 a2 : accountInfo),
     accounts (createAll requests (new dirs)) !! id1 = Some a1 ->
     accounts (createAll requests (new dirs)) !! id2 = Some a2 ->
     id1 <> id2 ->
     LocalAuth.idChars id1 = true /\ LocalAuth.idChars id2 = true /\
     (dataPath a1, chromeProfilePath a1) = isolationPaths id1 /\
     (dataPath a2, chromeProfilePath a2) = isolationPaths id2 /\
     (dataPath a1, chromeProfilePath a1) <> (dataPath a2, chromeProfilePath a2)).
Proof.
  split; [|split; [|split]].
  - intros _ chrome st. unfold createSimpleIsolatedClient.
    unfold bind at 1.
    destruct (ensureDirectory_runs (NodePath.join ["./data/accounts"; id1]) st)
      as [st1 [-> _]].
    unfold bind at 1.
    destruct (ensureDirectory_runs
                (NodePath.join ["./data/chrome_profiles"; "chrome_" +:+ id1]) st1)
      as [st2 [-> _]].
    unfold ret. eexists. eexists. split; [reflexivity|].
    split; [reflexivity|]. cbn [args]. do 7 right. left. reflexivity.
  - intros Hvalid now name st Hroom Hfresh.
    destruct (createAccount_accepts now
                {| data_accountId := id1; data_displayName := name |} st Hroom Hfresh Hvalid)
      as [st' [E1 [info [E2 [_ [_ [Hp [Hc [_ [_ [_ Harg]]]]]]]]]]].
    rewrite E1. cbn [snd data_accountId] in *. exists info.
    rewrite E2, lookup_insert_eq. split; [reflexivity|].
    unfold isolationPaths in *. cbn [fst snd].
    injection Hp as Hp1 Hp2.
    split; [now rewrite Hp1, Hp2|]. split.
    + now rewrite Hc.
    + now rewrite <- Hp2.
  - intros H1 H2. apply isolationPaths_distinct_plain; now apply idChars_noSeparator.
  - intros dirs requests a1 a2 Hl1 Hl2 Hne.
    assert (Hinv : forall id a, accounts (new dirs) !! id = Some a ->
              LocalAuth.idChars id = true /\
              (dataPath a, chromeProfilePath a) = isolationPaths id)
      by (intros id a; cbn [accounts new]; now rewrite lookup_empty).
    destruct (createAll_registered requests (new dirs) Hinv id1 a1 Hl1) as [Hv1 Hp1].
    destruct (createAll_registered requests (new dirs) Hinv id2 a2 Hl2) as [Hv2 Hp2].
    repeat (split; [assumption|]).
    rewrite Hp1, Hp2.
    apply isolationPaths_distinct_plain; [now apply idChars_noSeparator ..|exact Hne].
Qed.

Lemma isolationPaths_stable_and_distinct_witness :
  LocalAuth.idChars "account_1" = true /\
  LocalAuth.idChars "account_2" = true /\
  "account_1" <> "account_2" /\
  isolationPaths "account_1" <> isolationPaths "account_2".
Proof.
  assert (H1 : LocalAuth.idChars "account_1" = true) by reflexivity.
  assert (H2 : LocalAuth.idChars "account_2" = true) by reflexivity.
  assert (H3 : "account_1" <> "account_2") by discriminate.
  repeat (split; [assumption|]).
  exact (proj1 (proj2 (proj2 (isolationPaths_stable_and_distinct "account_1" "account_2")))
           H1 H2 H3).
Defined.

End AccountManagerFacts.

(** ** The handshake waiters *)
Section WaiterFacts.
Import JsString Handshake.

(** *** The waiter with the plain timeout *)

Lemma simple_start_pending : SimpleWaiter.pending SimpleWaiter.start.
Proof. repeat split. Qed.

(** In a pending waiter every callback gets through, and what it asks for
    is what is settled. *)
Lemma simple_step_pending (accountId : string) (attempt : Z)
    (w : SimpleWaiter.waiter) (ev : event) :
  SimpleWaiter.pending w ->
  SimpleWaiter.calls (SimpleWaiter.step accountId attempt w ev) =
    asList (SimpleWaiter.trigger accountId attempt ev) /\
  match SimpleWaiter.trigger accountId attempt ev with
  | Some _ => SimpleWaiter.settled (SimpleWaiter.step accountId attempt w ev)
  | None => SimpleWaiter.step accountId attempt w ev = w
  end.
Proof.
  destruct w as [r t q rd af dc ip cs].
  intros (Hr & Hc & Ht & Hq & Hrd & Haf & Hdc & Hip). cbn in *. subst.
  destruct ev; cbn; repeat split; eauto.
Qed.

(** Once settled, nothing is settled again and the timer stays cancelled. *)
Lemma simple_step_settled (accountId : string) (attempt : Z)
    (w : SimpleWaiter.waiter) (ev : event) :
  SimpleWaiter.settled w ->
  SimpleWaiter.settled (SimpleWaiter.step accountId attempt w ev) /\
  SimpleWaiter.calls (SimpleWaiter.step accountId attempt w ev) = SimpleWaiter.calls w.
Proof.
  destruct w as [r t q rd af dc ip cs].
  intros (Hr & [s Hc] & Ht). cbn in *. subst.
  destruct ev; cbn;
    repeat match goal with |- context [if ?b then _ else _] => destruct b; cbn end;
    repeat split; eauto.
Qed.

Lemma simple_run_settled (accountId : string) (attempt : Z)
    (evs : list event) (w : SimpleWaiter.waiter) :
  SimpleWaiter.settled w ->
  SimpleWaiter.settled (SimpleWaiter.run accountId attempt evs w) /\
  SimpleWaiter.calls (SimpleWaiter.run accountId attempt evs w) = SimpleWaiter.calls w.
Proof.
  revert w; induction evs as [|ev evs IH]; intros w H; [split; [exact H | reflexivity]|].
  destruct (simple_step_settled accountId attempt w ev H) as [H1 E1].
  destruct (IH _ H1) as [H2 E2].
  change (SimpleWaiter.run accountId attempt (ev :: evs) w)
    with (SimpleWaiter.run accountId attempt evs (SimpleWaiter.step accountId attempt w ev)).
  split; [exact H2|]. now rewrite E2.
Qed.

Lemma simple_run_state (accountId : string) (attempt : Z)
    (evs : list event) (w : SimpleWaiter.waiter) :
  SimpleWaiter.pending w ->
  SimpleWaiter.pending (SimpleWaiter.run accountId attempt evs w) \/
  SimpleWaiter.settled (SimpleWaiter.run accountId attempt evs w).
Proof.
  revert w; induction evs as [|ev evs IH]; intros w H; [left; exact H|].
  change (SimpleWaiter.run accountId attempt (ev :: evs) w)
    with (SimpleWaiter.run accountId attempt evs (SimpleWaiter.step accountId attempt w ev)).
  destruct (simple_step_pending accountId attempt w ev H) as [_ Hs].
  destruct (SimpleWaiter.trigger accountId attempt ev).
  - right. now apply simple_run_settled.
  - rewrite Hs. now apply IH.
Qed.

(** *** The waiter with health checks *)

Lemma health_start_pending : HealthWaiter.pending HealthWaiter.start.
Proof. repeat split. Qed.

Lemma health_step_pending (accountId : string) (attempt : Z)
    (w : HealthWaiter.waiter) (ev : event) :
  HealthWaiter.pending w ->
  HealthWaiter.calls (HealthWaiter.step accountId attempt w ev) =
    asList (HealthWaiter.trigger accountId attempt w ev) /\
  match HealthWaiter.trigger accountId attempt w ev with
  | Some _ => HealthWaiter.settled (HealthWaiter.step accountId attempt w ev)
  | None => HealthWaiter.pending (HealthWaiter.step accountId attempt w ev)
  end.
Proof.
  destruct w as [r t h n q rd af dc ip g cs].
  intros (Hr & Hc & Ht & Hh & Hq & Hrd & Haf & Hdc). cbn in *. subst.
  destruct ev as [qr | | | msg | reason | p | | message | ]; cbn.
  1-5: repeat split; eauto.
  - destruct p; cbn; try (repeat split; eauto; fail).
    all: destruct (Z.ltb_spec 12 (n + 1)), (Z.leb_spec 12 n); try lia;
      cbn; repeat split; eauto.
  - repeat split; eauto.
  - destruct ip; repeat split.
  - destruct g; cbn; repeat split; eauto.
Qed.

Lemma health_step_settled (accountId : string) (attempt : Z)
    (w : HealthWaiter.waiter) (ev : event) :
  HealthWaiter.settled w ->
  HealthWaiter.settled (HealthWaiter.step accountId attempt w ev) /\
  HealthWaiter.calls (HealthWaiter.step accountId attempt w ev) = HealthWaiter.calls w.
Proof.
  destruct w as [r t h n q rd af dc ip g cs].
  intros (Hr & [s Hc] & Ht & Hh). cbn in *. subst.
  destruct ev as [qr | | | msg | reason | p | | message | ]; cbn;
    repeat match goal with
           | |- context [if ?b then _ else _] => destruct b; cbn
           | |- context [match ?o with Some _ => _ | None => _ end] => destruct o; cbn
           end;
    repeat split; eauto.
Qed.

Lemma health_run_settled (accountId : string) (attempt : Z)
    (evs : list event) (w : HealthWaiter.waiter) :
  HealthWaiter.settled w ->
  HealthWaiter.settled (HealthWaiter.run accountId attempt evs w) /\
  HealthWaiter.calls (HealthWaiter.run accountId attempt evs w) = HealthWaiter.calls w.
Proof.
  revert w; induction evs as [|ev evs IH]; intros w H; [split; [exact H | reflexivity]|].
  destruct (health_step_settled accountId attempt w ev H) as [H1 E1].
  destruct (IH _ H1) as [H2 E2].
  change (HealthWaiter.run accountId attempt (ev :: evs) w)
    with (HealthWaiter.run accountId attempt evs (HealthWaiter.step accountId attempt w ev)).
  split; [exact H2|]. now rewrite E2.
Qed.

Lemma health_run_state (accountId : string) (attempt : Z)
    (evs : list event) (w : HealthWaiter.waiter) :
  HealthWaiter.pending w ->
  HealthWaiter.pending (HealthWaiter.run accountId attempt evs w) \/
  HealthWaiter.settled (HealthWaiter.run accountId attempt evs w).
Proof.
  revert w; induction evs as [|ev evs IH]; intros w H; [left; exact H|].
  change (HealthWaiter.run accountId attempt (ev :: evs) w)
    with (HealthWaiter.run accountId attempt evs (HealthWaiter.step accountId attempt w ev)).
  destruct (health_step_pending accountId attempt w ev H) as [_ Hs].
  destruct (HealthWaiter.trigger accountId attempt w ev).
  - right. now apply health_run_settled.
  - now apply IH.
Qed.

(** C1: for both waiters, whatever events, timer callbacks and rejections
    of [initialize] the event loop runs, and in whatever order, [resolve] or
    [reject] is called at most once. While nothing has settled, the first
    callback that asks for a settlement gets it: from then on the single
    recorded call never changes, whatever runs later, and the timeout (and,
    for the second waiter, the health-check interval) is cancelled. *)
Theorem waitForQR_settles_once (accountId : string) (attempt : Z)
    (pre post : list event) (ev : event) :
  let s0 := SimpleWaiter.run accountId attempt pre SimpleWaiter.start in
  let s1 := SimpleWaiter.step accountId attempt s0 ev in
  let s2 := SimpleWaiter.run accountId attempt post s1 in
  let h0 := HealthWaiter.run accountId attempt pre HealthWaiter.start in
  let h1 := HealthWaiter.step accountId attempt h0 ev in
  let h2 := HealthWaiter.run accountId attempt post h1 in
  (length (SimpleWaiter.calls s2) <= 1)%nat /\
  (length (HealthWaiter.calls h2) <= 1)%nat /\
  (SimpleWaiter.calls s0 = [] ->
     match SimpleWaiter.trigger accountId attempt ev with
     | Some s =>
         SimpleWaiter.calls s1 = [s] /\ SimpleWaiter.calls s2 = [s] /\
         SimpleWaiter.timeoutId s1 = false /\ SimpleWaiter.timeoutId s2 = false
     | None => SimpleWaiter.calls s1 = []
     end) /\
  (HealthWaiter.calls h0 = [] ->
     match HealthWaiter.trigger accountId attempt h0 ev with
     | Some s =>
         HealthWaiter.calls h1 = [s] /\ HealthWaiter.calls h2 = [s] /\
         HealthWaiter.qrTimeout h1 = false /\ HealthWaiter.healthCheckInterval h1 = false /\
         HealthWaiter.qrTimeout h2 = false /\ HealthWaiter.healthCheckInterval h2 = false
     | None => HealthWaiter.calls h1 = []
     end).
Proof.
  intros s0 s1 s2 h0 h1 h2.
  assert (Hs2 : SimpleWaiter.pending s2 \/ SimpleWaiter.settled s2).
  { replace s2 with (SimpleWaiter.run accountId attempt (pre ++ ev :: post) SimpleWaiter.start).
    - apply simple_run_state, simple_start_pending.
    - unfold s2, s1, s0, SimpleWaiter.run. now rewrite fold_left_app. }
  assert (Hh2 : HealthWaiter.pending h2 \/ HealthWaiter.settled h2).
  { replace h2 with (HealthWaiter.run accountId attempt (pre ++ ev :: post) HealthWaiter.start).
    - apply health_run_state, health_start_pending.
    - unfold h2, h1, h0, HealthWaiter.run. now rewrite fold_left_app. }
  split; [|split; [|split]].
  - destruct Hs2 as [(_ & -> & _) | (_ & [s ->] & _)]; cbn; lia.
  - destruct Hh2 as [(_ & -> & _) | (_ & [s ->] & _)]; cbn; lia.
  - intros Hc.
    assert (Hp : SimpleWaiter.pending s0).
    { destruct (simple_run_state accountId attempt pre _ simple_start_pending)
        as [Hp | (_ & [s Hs] & _)]; [exact Hp|].
      fold s0 in Hs. congruence. }
    destruct (simple_step_pending accountId attempt s0 ev Hp) as [E1 Hst]. fold s1 in E1, Hst.
    destruct (SimpleWaiter.trigger accountId attempt ev) as [s|]; [|exact E1].
    destruct (simple_run_settled accountId attempt post s1 Hst) as [(_ & _ & Ht2) E2].
    fold s2 in E2, Ht2. destruct Hst as (_ & _ & Ht1).
    repeat split; try assumption. now rewrite E2.
  - intros Hc.
    assert (Hp : HealthWaiter.pending h0).
    { destruct (health_run_state accountId attempt pre _ health_start_pending)
        as [Hp | (_ & [s Hs] & _)]; [exact Hp|].
      fold h0 in Hs. congruence. }
    destruct (health_step_pending accountId attempt h0 ev Hp) as [E1 Hst]. fold h1 in E1, Hst.
    destruct (HealthWaiter.trigger accountId attempt h0 ev) as [s|]; [|exact E1].
    destruct (health_run_settled accountId attempt post h1 Hst) as [(_ & _ & Ht2 & Hi2) E2].
    fold h2 in E2, Ht2, Hi2. destruct Hst as (_ & _ & Ht1 & Hi1).
    repeat split; try assumption. now rewrite E2.
Qed.

Lemma waitForQR_settles_once_witness :
  SimpleWaiter.calls
    (SimpleWaiter.run "account_1" 1 [Authenticated] SimpleWaiter.start) = [] /\
  SimpleWaiter.calls
    (SimpleWaiter.run "account_1" 1
       [Authenticated; Qr "2@kT9"; Ready; Disconnected "NAVIGATION"; Timeout]
       SimpleWaiter.start) = [Resolved (QrGenerated "account_1" "2@kT9")].
Proof.
  assert (H : SimpleWaiter.calls
                (SimpleWaiter.run "account_1" 1 [Authenticated] SimpleWaiter.start) = [])
    by reflexivity.
  split; [exact H|].
  exact (proj1 (proj2 (proj1 (proj2 (proj2
    (waitForQR_settles_once "account_1" 1 [Authenticated]
       [Ready; Disconnected "NAVIGATION"; Timeout] (Qr "2@kT9")))) H))).
Defined.

(** A rejection of [initialize] is not fatal by itself: a code that arrives
    within the grace period wins, and the grace timer then does nothing. *)
Example init_error_then_code :
  HealthWaiter.calls
    (HealthWaiter.run "account_1" 2 [InitRejected "net::ERR_FAILED"; Qr "2@kT9"; GraceElapsed]
       HealthWaiter.start) = [Resolved (QrGenerated "account_1" "2@kT9")].
Proof. reflexivity. Qed.

Example init_error_grace_elapsed :
  HealthWaiter.calls
    (HealthWaiter.run "account_1" 2 [InitRejected "net::ERR_FAILED"; GraceElapsed; Qr "2@kT9"]
       HealthWaiter.start) = [Rejected "Initialization failed: net::ERR_FAILED"].
Proof. reflexivity. Qed.

(** Twelve healthy checks pass; the thirteenth gives up, before the 70 s
    timeout would. *)
Example thirteen_health_checks :
  HealthWaiter.calls
    (HealthWaiter.run "account_1" 1 (repeat (HealthTick PageOpen) 12) HealthWaiter.start) = [] /\
  HealthWaiter.calls
    (HealthWaiter.run "account_1" 1 (repeat (HealthTick PageOpen) 13 ++ [Timeout])
       HealthWaiter.start) =
    [Rejected "Client appears to be unresponsive (health check failed)"].
Proof. split; reflexivity. Qed.

End WaiterFacts.

(** ** The strategy cascade *)
Section CascadeFacts.
Import JsString Js AccountManager Handshake Handshake.Cascade.

Lemma attempted_app (t1 t2 : list effect) :
  attempted (t1 ++ t2) = attempted t1 ++ attempted t2.
Proof. unfold attempted. apply omap_app. Qed.

Lemma flag_updateAccount (accountId : string) (f : accountInfo -> accountInfo) (st : world) :
  (forall a, isAuthenticated (f a) = isAuthenticated a) ->
  authenticatedFlag (updateAccount accountId f st) accountId = authenticatedFlag st accountId.
Proof.
  intros Hf. unfold authenticatedFlag, updateAccount. cbn [Cascade.accounts].
  rewrite lookup_alter_eq. destruct (Cascade.accounts st !! accountId); cbn; [|reflexivity].
  now rewrite Hf.
Qed.

Lemma flag_destroyClient (accountId : string) (st : world) :
  authenticatedFlag (destroyClient accountId st) accountId = authenticatedFlag st accountId.
Proof.
  unfold destroyClient. destruct (Cascade.accounts st !! accountId); reflexivity.
Qed.

Lemma attempted_destroyClient (accountId : string) (st : world) :
  attempted (trace (destroyClient accountId st)) = attempted (trace st).
Proof.
  unfold destroyClient. destruct (Cascade.accounts st !! accountId); [|reflexivity].
  cbn [trace emit]. rewrite attempted_app. apply app_nil_r.
Qed.

Lemma onClientEvent_attempted (env : surroundings) (c : client) (accountId : string)
    (ev : event) (st : world) :
  attempted (trace (onClientEvent env c accountId ev st)) = attempted (trace st).
Proof.
  destruct ev; cbn [onClientEvent]; try reflexivity;
    try (destruct (mainWindow env); [|reflexivity]);
    cbn [trace emit updateAccount]; rewrite attempted_app; apply app_nil_r.
Qed.

Lemma onClientEvent_flag (env : surroundings) (c : client) (accountId : string)
    (ev : event) (st : world) :
  ev <> Authenticated ->
  authenticatedFlag (onClientEvent env c accountId ev st) accountId =
  authenticatedFlag st accountId.
Proof.
  intros Hne. destruct ev; cbn [onClientEvent]; try reflexivity; try congruence.
  - destruct (mainWindow env); reflexivity.
  - destruct (mainWindow env);
      [change (authenticatedFlag (emit ?e ?s) accountId) with (authenticatedFlag s accountId)|];
      now apply flag_updateAccount.
  - change (authenticatedFlag (emit ?e ?s) accountId) with (authenticatedFlag s accountId).
    now apply flag_updateAccount.
Qed.

(** The wait ends as the waiter alone says. *)
Lemma attend_outcome (env : surroundings) (c : client) (accountId : string) (attempt : Z)
    (evs : list event) (w : SimpleWaiter.waiter) (st : world) :
  SimpleWaiter.pending w ->
  fst (attend env c accountId attempt evs w st) =
  hd_error (SimpleWaiter.calls (SimpleWaiter.run accountId attempt evs w)).
Proof.
  revert w st; induction evs as [|ev evs IH]; intros w st Hp.
  - destruct Hp as (_ & Hc & _). cbn. now rewrite Hc.
  - cbn [attend].
    change (SimpleWaiter.run accountId attempt (ev :: evs) w)
      with (SimpleWaiter.run accountId attempt evs (SimpleWaiter.step accountId attempt w ev)).
    destruct (simple_step_pending accountId attempt w ev Hp) as [E Hs].
    destruct (SimpleWaiter.trigger accountId attempt ev) as [s|]; cbn [asList] in E.
    + rewrite E. destruct (simple_run_settled accountId attempt evs _ Hs) as [_ ->].
      rewrite E. reflexivity.
    + rewrite E, Hs. now apply IH.
Qed.

Lemma attend_attempted (env : surroundings) (c : client) (accountId : string) (attempt : Z)
    (evs : list event) (w : SimpleWaiter.waiter) (st : world) :
  attempted (trace (snd (attend env c accountId attempt evs w st))) = attempted (trace st).
Proof.
  revert w st; induction evs as [|ev evs IH]; intros w st; [reflexivity|].
  cbn [attend].
  destruct (SimpleWaiter.calls (SimpleWaiter.step accountId attempt w ev)).
  - rewrite IH. apply onClientEvent_attempted.
  - cbn [snd]. apply onClientEvent_attempted.
Qed.

Lemma attend_flag (env : surroundings) (c : client) (accountId : string) (attempt : Z)
    (evs : list event) (w : SimpleWaiter.waiter) (st : world) :
  reportsAuthenticated evs = false ->
  authenticatedFlag (snd (attend env c accountId attempt evs w st)) accountId =
  authenticatedFlag st accountId.
Proof.
  revert w st; induction evs as [|ev evs IH]; intros w st H; [reflexivity|].
  cbn [reportsAuthenticated existsb] in H. apply orb_false_elim in H as [Hev Hrest].
  assert (Hne : ev <> Authenticated) by (intros ->; discriminate).
  cbn [attend].
  destruct (SimpleWaiter.calls (SimpleWaiter.step accountId attempt w ev)).
  - rewrite IH by exact Hrest. now apply onClientEvent_flag.
  - cbn [snd]. now apply onClientEvent_flag.
Qed.

Lemma waitForQR_facts (env : surroundings) (c : client) (accountId : string)
    (evs : list event) (st : world) :
  fst (Cascade.waitForQR env c accountId 1 evs st) = waitOutcome accountId 1 evs /\
  attempted (trace (snd (Cascade.waitForQR env c accountId 1 evs st))) =
    attempted (trace st) /\
  (reportsAuthenticated evs = false ->
   authenticatedFlag (snd (Cascade.waitForQR env c accountId 1 evs st)) accountId =
   authenticatedFlag st accountId).
Proof.
  unfold Cascade.waitForQR, waitOutcome. split; [|split].
  - apply attend_outcome, simple_start_pending.
  - rewrite attend_attempted. cbn [trace emit]. rewrite attempted_app. apply app_nil_r.
  - intros H. now rewrite attend_flag.
Qed.

Lemma directPuppeteerQR_facts (env : surroundings) (accountId : string) (st : world) :
  fst (directPuppeteerQR env accountId st) =
    match directOutcome env with
    | Return qrCode => Return (QrGenerated accountId qrCode)
    | Throw error => Throw error
    end /\
  attempted (trace (snd (directPuppeteerQR env accountId st))) = attempted (trace st) /\
  authenticatedFlag (snd (directPuppeteerQR env accountId st)) accountId =
    authenticatedFlag st accountId.
Proof.
  unfold directPuppeteerQR.
  destruct (directOutcome env); [destruct (mainWindow env)|]; cbn [fst snd trace emit];
    rewrite ?attempted_app, ?app_nil_r; repeat split; cbn; now rewrite ?app_nil_r.
Qed.

(** C2, as stated, fails in its last clause: the [authenticated] listener
    of the account sets the flag while a strategy waits, and nothing resets
    it when that strategy then times out. Here all three strategies fail and
    the account is left authenticated. *)
Lemma cascade_leaves_authenticated_counterexample :
  authenticatedFlag oneAccountWorld "account_1" = Some false /\
  fst (getQRCode authenticatedThenTimeout "account_1" oneAccountWorld) =
    Some (Throw ("All QR generation strategies failed. " +:+
                 "Simplified: QR generation timed out after 90 seconds (attempt 1), " +:+
                 "Direct: Could not find QR code element with any known selector, " +:+
                 "Minimal: QR generation timed out after 90 seconds (attempt 1)")) /\
  authenticatedFlag (snd (getQRCode authenticatedThenTimeout "account_1" oneAccountWorld))
    "account_1" = Some true.
Proof. vm_compute. repeat split; reflexivity. Qed.

(** C2 (amended): for a registered, unauthenticated account the cascade
    runs the simplified, the direct and the minimal strategy in that order.
    It returns the result of the first one that succeeds and starts no
    further strategy; when all three fail it throws one error whose message
    carries the three reasons, in order, after exactly three attempts. The
    cascade itself never writes the authentication flag: after such a
    failure the account is unauthenticated provided the client reported no
    [authenticated] event while the strategies waited. *)
Theorem getQRCode_cascade (env : surroundings) (accountId : string)
    (account : accountInfo) (st : world) :
  Cascade.accounts st !! accountId = Some account ->
  isAuthenticated account = false ->
  let result := getQRCode env accountId st in
  let tried := attempted (trace (snd result)) in
  match waitOutcome accountId 1 (simplifiedEvents env) with
  | None => fst result = None
  | Some (Resolved r) =>
      fst result = Some (Return r) /\ tried = attempted (trace st) ++ [Simplified]
  | Some (Rejected simpleError) =>
      match directOutcome env with
      | Return qrCode =>
          fst result = Some (Return (QrGenerated accountId qrCode)) /\
          tried = attempted (trace st) ++ [Simplified; Direct]
      | Throw directError =>
          match waitOutcome accountId 1 (minimalEvents env) with
          | None => fst result = None
          | Some (Resolved r) =>
              fst result = Some (Return r) /\
              tried = attempted (trace st) ++ [Simplified; Direct; Minimal]
          | Some (Rejected minimalError) =>
              fst result =
                Some (Throw ("All QR generation strategies failed. Simplified: " +:+
                             simpleError +:+ ", Direct: " +:+ directError +:+
                             ", Minimal: " +:+ minimalError)) /\
              tried = attempted (trace st) ++ [Simplified; Direct; Minimal] /\
              (reportsAuthenticated (simplifiedEvents env) = false ->
               reportsAuthenticated (minimalEvents env) = false ->
               authenticatedFlag (snd result) accountId = Some false)
          end
      end
  end.
Proof.
  intros Hacc Hauth result tried. subst tried result.
  unfold getQRCode. rewrite Hacc, Hauth.
  set (st1 := emit (HandlersSet (createIsolatedClient env accountId) accountId)
                (updateAccount accountId (withClient (createIsolatedClient env accountId))
                   (destroyClient accountId (emit (Trying Simplified accountId) st)))).
  assert (T1 : attempted (trace st1) = attempted (trace st) ++ [Simplified]).
  { subst st1. cbn [trace emit updateAccount]. rewrite attempted_app, attempted_destroyClient.
    cbn [trace emit]. rewrite attempted_app. cbn. now rewrite app_nil_r. }
  assert (F1 : authenticatedFlag st1 accountId = Some false).
  { subst st1.
    change (authenticatedFlag (emit ?e ?s) accountId) with (authenticatedFlag s accountId).
    rewrite flag_updateAccount by reflexivity. rewrite flag_destroyClient.
    unfold authenticatedFlag. cbn [Cascade.accounts emit]. now rewrite Hacc, <- Hauth. }
  destruct (waitForQR_facts env (createIsolatedClient env accountId) accountId
              (simplifiedEvents env) st1) as (O1 & A1 & G1).
  destruct (Cascade.waitForQR env (createIsolatedClient env accountId) accountId 1
              (simplifiedEvents env) st1) as [o1 st2].
  cbn [fst snd] in O1, A1, G1. rewrite <- O1.
  destruct o1 as [[r|simpleError]|]; cbn [fst snd]; [split; [reflexivity | congruence] | | reflexivity].
  set (st3 := emit (Trying Direct accountId) (destroyClient accountId st2)).
  assert (T3 : attempted (trace st3) = attempted (trace st) ++ [Simplified; Direct]).
  { subst st3. cbn [trace emit]. rewrite attempted_app, attempted_destroyClient, A1, T1.
    now rewrite <- app_assoc. }
  destruct (directPuppeteerQR_facts env accountId st3) as (O2 & A2 & G2).
  destruct (directPuppeteerQR env accountId st3) as [o2 st4].
  cbn [fst snd] in O2, A2, G2.
  destruct (directOutcome env) as [qrCode|directError]; subst o2; cbn [fst snd];
    [split; [reflexivity | congruence]|].
  set (minimalClient := {| clientId := "account_" +:+ accountId;
                           authDataPath := NodePath.join ["./data/accounts"; accountId];
                           headless := Headless true; executablePath := None;
                           args := ["--no-sandbox"] |}).
  set (st5 := emit (HandlersSet minimalClient accountId)
                (updateAccount accountId (withClient minimalClient)
                   (emit (Trying Minimal accountId) st4))).
  assert (T5 : attempted (trace st5) = attempted (trace st) ++ [Simplified; Direct; Minimal]).
  { subst st5. cbn [trace emit updateAccount]. rewrite !attempted_app, A2, T3.
    cbn. now rewrite app_nil_r, <- app_assoc. }
  assert (F5 : reportsAuthenticated (simplifiedEvents env) = false ->
               authenticatedFlag st5 accountId = Some false).
  { intros H. subst st5.
    change (authenticatedFlag (emit ?e ?s) accountId) with (authenticatedFlag s accountId).
    rewrite flag_updateAccount by reflexivity.
    change (authenticatedFlag (emit ?e ?s) accountId) with (authenticatedFlag s accountId).
    rewrite G2. subst st3.
    change (authenticatedFlag (emit ?e ?s) accountId) with (authenticatedFlag s accountId).
    rewrite flag_destroyClient, G1 by exact H. exact F1. }
  destruct (waitForQR_facts env minimalClient accountId (minimalEvents env) st5)
    as (O3 & A3 & G3).
  destruct (Cascade.waitForQR env minimalClient accountId 1 (minimalEvents env) st5)
    as [o3 st6].
  cbn [fst snd] in O3, A3, G3. rewrite <- O3.
  destruct o3 as [[r|minimalError]|]; cbn [fst snd];
    [split; [reflexivity | congruence] | | reflexivity].
  split; [reflexivity|]. split; [congruence|].
  intros H1 H3. rewrite G3 by exact H3. now apply F5.
Qed.

Lemma getQRCode_cascade_witness :
  Cascade.accounts oneAccountWorld !! "account_1" = Some firstAccount /\
  isAuthenticated firstAccount = false /\
  fst (getQRCode allStrategiesFail "account_1" oneAccountWorld) =
    Some (Throw ("All QR generation strategies failed. " +:+
                 "Simplified: QR generation timed out after 90 seconds (attempt 1), " +:+
                 "Direct: Could not find QR code element with any known selector, " +:+
                 "Minimal: Client initialization failed: Failed to launch the browser process")) /\
  attempted (trace (snd (getQRCode allStrategiesFail "account_1" oneAccountWorld))) =
    [Simplified; Direct; Minimal] /\
  authenticatedFlag (snd (getQRCode allStrategiesFail "account_1" oneAccountWorld))
    "account_1" = Some false.
Proof.
  assert (H1 : Cascade.accounts oneAccountWorld !! "account_1" = Some firstAccount)
    by (vm_compute; reflexivity).
  assert (H2 : isAuthenticated firstAccount = false) by reflexivity.
  split; [exact H1|]. split; [exact H2|].
  pose proof (getQRCode_cascade allStrategiesFail "account_1" firstAccount oneAccountWorld
                H1 H2) as (R & T & F).
  split; [exact R|]. split; [exact T|]. apply F; reflexivity.
Defined.

(** The second strategy succeeds: the third is never started. *)
Example cascade_stops_at_first_success :
  fst (getQRCode directSucceeds "account_1" oneAccountWorld) =
    Some (Return (QrGenerated "account_1" "iVBORw0KGgo")) /\
  attempted (trace (snd (getQRCode directSucceeds "account_1" oneAccountWorld))) =
    [Simplified; Direct].
Proof. vm_compute. split; reflexivity. Qed.

End CascadeFacts.

(** ** The error handler: isolation, long runs, reports and maintenance *)
Section ErrorReportsFacts.
Import JsString ErrorHandler ErrorReports.

Lemma handleAccountError_counters (ev : env) (accountId context : string)
    (error : js_error) (st : state) :
  let r := retriesOf st accountId in
  let st' := handleAccountError ev accountId error context st in
  (retryAttempts st' = delete accountId (retryAttempts st) /\
   scheduled (trace st') = scheduled (trace st)) \/
  (r < maxRetries /\ classify error <> Critical /\
   retryAttempts st' = <[accountId := r + 1]> (retryAttempts st) /\
   exists delay, scheduled (trace st') = scheduled (trace st) ++ [(accountId, delay)]).
Proof.
  intros r st'. subst r st'. rewrite classify_dispatch. cbv zeta.
  set (info := {| info_accountId := accountId; info_error := errorOrMessage error;
                  info_context := context; info_timestamp := isoNow ev |}).
  pose proof (retriesOf_logged ev info st accountId) as E1.
  pose proof (logged_scheduled ev info st) as E2.
  pose proof (logged_retryAttempts ev info st) as E3.
  destruct (classify error) eqn:Ec.
  - left. destruct (handleCriticalError_effect ev accountId context error
                      (addToRecentErrors ev info (logError info st))) as (Ha & Hs & _).
    now rewrite Ha, Hs, E2, E3.
  - destruct (handleNetworkError_effect ev accountId context error
                (addToRecentErrors ev info (logError info st))) as [Hlo Hhi].
    rewrite E1 in Hlo, Hhi.
    destruct (Z.lt_ge_cases (retriesOf st accountId) maxRetries) as [Hlt|Hge].
    + right. destruct (Hlo Hlt) as [Ha Hs]. rewrite Ha, Hs, E2, E3.
      repeat split; try assumption; try discriminate. eauto.
    + left. destruct (Hhi Hge) as (Ha & Hs & _). now rewrite Ha, Hs, E2, E3.
  - destruct (handleRetryableError_effect ev accountId context error
                (addToRecentErrors ev info (logError info st))) as [Hlo Hhi].
    rewrite E1 in Hlo, Hhi.
    destruct (Z.lt_ge_cases (retriesOf st accountId) maxRetries) as [Hlt|Hge].
    + right. destruct (Hlo Hlt) as [Ha Hs]. rewrite Ha, Hs, E2, E3.
      repeat split; try assumption; try discriminate. eauto.
    + left. destruct (Hhi Hge) as (Ha & Hs & _). now rewrite Ha, Hs, E2, E3.
Qed.

(** X1: Handling an error of one account leaves the retry counter of every
    other account as it is, and every retry it schedules is for the account
    the error belongs to. *)
Theorem handleAccountError_isolated (ev : env) (accountId other context : string)
    (error : js_error) (st : state) :
  other <> accountId ->
  let st' := handleAccountError ev accountId error context st in
  retryAttempts st' !! other = retryAttempts st !! other /\
  retriesOf st' other = retriesOf st other /\
  exists added,
    scheduled (trace st') = scheduled (trace st) ++ added /\
    Forall (fun p => fst p = accountId) added.
Proof.
  intros Hne st'.
  assert (Hl : retryAttempts st' !! other = retryAttempts st !! other).
  { destruct (handleAccountError_counters ev accountId context error st)
      as [[Ha _] | (_ & _ & Ha & _)]; fold st' in Ha; rewrite Ha.
    - now apply lookup_delete_ne.
    - now apply lookup_insert_ne. }
  split; [exact Hl|]. split; [unfold retriesOf; now rewrite Hl|].
  destruct (handleAccountError_counters ev accountId context error st)
    as [[_ Hs] | (_ & _ & _ & [delay Hs])]; fold st' in Hs; rewrite Hs.
  - exists []. now rewrite app_nil_r.
  - exists [(accountId, delay)]. split; [reflexivity|]. now constructor.
Qed.

Lemma handleAccountError_isolated_witness :
  "account_2" <> "account_1" /\
  retriesOf (handleAccountError sampleEnv "account_1" (ErrorObj "Error" "socket hang up")
               "client_error"
               (handleAccountError sampleEnv "account_2" (ErrorObj "Error" "timeout")
                  "client_error" new)) "account_2" = 1.
Proof.
  assert (H : "account_2" <> "account_1") by discriminate.
  split; [exact H|].
  exact (eq_trans
           (proj1 (proj2 (handleAccountError_isolated sampleEnv "account_1" "account_2"
                            "client_error" (ErrorObj "Error" "socket hang up")
                            (handleAccountError sampleEnv "account_2"
                               (ErrorObj "Error" "timeout") "client_error" new) H)))
           eq_refl).
Defined.

(** *** Long runs of errors *)

Lemma run_errorsOf_cons (accountId : string) (x : env * js_error * string)
    (errors : list (env * js_error * string)) (st : state) :
  run (errorsOf accountId (x :: errors)) st =
  run (errorsOf accountId errors)
      (handleAccountError (fst (fst x)) accountId (snd (fst x)) (snd x) st).
Proof. reflexivity. Qed.

Lemma retry_cycle_from (accountId : string) (errors : list (env * js_error * string))
    (st : state) :
  countersBounded st ->
  Forall (fun x => classify (snd (fst x)) <> Critical) errors ->
  let st' := run (errorsOf accountId errors) st in
  let r := retriesOf st accountId in
  let n := Z.of_nat (length errors) in
  retriesOf st' accountId = (r + n) mod 4 /\
  Z.of_nat (length (scheduled (trace st'))) =
    Z.of_nat (length (scheduled (trace st))) + n - (r + n) / 4.
Proof.
  revert st; induction errors as [|x errors IH]; intros st Hb Hall; cbv zeta.
  - pose proof (retriesOf_bounded st accountId Hb) as Hr. unfold maxRetries in Hr.
    cbn [length Z.of_nat errorsOf map run fold_left]. rewrite Z.add_0_r.
    rewrite Z.mod_small, Z.div_small by lia. lia.
  - inversion Hall as [|? ? Hx Hrest]; subst.
    rewrite run_errorsOf_cons.
    pose proof (retriesOf_bounded st accountId Hb) as Hr. unfold maxRetries in Hr.
    pose proof (handleAccountError_bounded (fst (fst x)) accountId (snd x) (snd (fst x)) st Hb)
      as Hb'.
    destruct (IH _ Hb' Hrest) as [IH1 IH2]. rewrite IH1, IH2. clear IH IH1 IH2.
    replace (Z.of_nat (length (x :: errors))) with (Z.of_nat (length errors) + 1)
      by (cbn [length]; lia).
    set (n := Z.of_nat (length errors)).
    destruct (handleAccountError_counters (fst (fst x)) accountId (snd x) (snd (fst x)) st)
      as [[Ha Hs] | (Hlt & _ & Ha & [delay Hs])].
    + (* the counter is deleted: a critical error is excluded, so it was at 3 *)
      destruct (retriesOf_deleted _ _ _ Ha) as [_ Hz]. rewrite Hz, Hs.
      assert (H3 : retriesOf st accountId = 3).
      { destruct (Z.lt_ge_cases (retriesOf st accountId) 3) as [Hlt|Hge]; [|lia].
        exfalso.
        destruct (handleAccountError_counters (fst (fst x)) accountId (snd x)
                    (snd (fst x)) st) as [[_ Hs'] | (_ & _ & Ha' & _)].
        - revert Hs'. rewrite classify_dispatch. cbv zeta.
          set (info := {| info_accountId := accountId;
                          info_error := errorOrMessage (snd (fst x));
                          info_context := snd x; info_timestamp := isoNow (fst (fst x)) |}).
          pose proof (retriesOf_logged (fst (fst x)) info st accountId) as E1.
          pose proof (logged_scheduled (fst (fst x)) info st) as E2.
          destruct (classify (snd (fst x))); [congruence | |].
          + destruct (handleNetworkError_effect (fst (fst x)) accountId (snd x) (snd (fst x))
                        (addToRecentErrors (fst (fst x)) info (logError info st)))
              as [[_ Hs2] _]; [rewrite E1; exact Hlt|].
            rewrite Hs2, E2. intros Habs.
            apply (f_equal (@length _)) in Habs. rewrite length_app in Habs.
            cbn in Habs. lia.
          + destruct (handleRetryableError_effect (fst (fst x)) accountId (snd x)
                        (snd (fst x))
                        (addToRecentErrors (fst (fst x)) info (logError info st)))
              as [[_ Hs2] _]; [rewrite E1; exact Hlt|].
            rewrite Hs2, E2. intros Habs.
            apply (f_equal (@length _)) in Habs. rewrite length_app in Habs.
            cbn in Habs. lia.
        - rewrite Ha in Ha'. apply (f_equal (fun m => m !! accountId)) in Ha'.
          rewrite lookup_delete_eq, lookup_insert_eq in Ha'. discriminate. }
      rewrite H3.
      replace (3 + (n + 1)) with (n + 1 * 4) by lia.
      rewrite Z.div_add, Z_mod_plus_full by lia. rewrite Z.add_0_l. lia.
    + rewrite (retriesOf_bumped _ _ _ _ (proj1 Hr) Ha), Hs, length_app.
      cbn [length]. replace (retriesOf st accountId + 1 + n)
        with (retriesOf st accountId + (n + 1)) by lia. lia.
Qed.

(** X2: Of any [n] consecutive non-critical errors of an account, every fourth
    one (counting from the counter the account starts with) ends a round:
    it is not retried and the counter starts again. So the counter ends at
    [(r + n) mod 4] and [n - (r + n) / 4] retries are scheduled: retrying
    never stops for good. *)
Theorem retry_cycle (inputs : list (env * input)) (accountId : string)
    (errors : list (env * js_error * string)) :
  Forall (fun x => classify (snd (fst x)) <> Critical) errors ->
  let st := run inputs new in
  let st' := run (errorsOf accountId errors) st in
  let r := retriesOf st accountId in
  let n := Z.of_nat (length errors) in
  retriesOf st' accountId = (r + n) mod 4 /\
  Z.of_nat (length (scheduled (trace st'))) =
    Z.of_nat (length (scheduled (trace st))) + n - (r + n) / 4.
Proof.
  intros Hall. apply retry_cycle_from; [|exact Hall].
  apply run_bounded, new_bounded.
Qed.

Lemma retry_cycle_witness :
  Forall (fun x : env * js_error * string => classify (snd (fst x)) <> Critical)
    (repeat (sampleEnv, ErrorObj "Error" "socket hang up", "client_error") 9) /\
  retriesOf (run (errorsOf "account_1"
                    (repeat (sampleEnv, ErrorObj "Error" "socket hang up", "client_error") 9))
               (run [] new)) "account_1" = 1.
Proof.
  assert (H : Forall (fun x : env * js_error * string => classify (snd (fst x)) <> Critical)
                (repeat (sampleEnv, ErrorObj "Error" "socket hang up", "client_error") 9)).
  { assert (Hc : classify (ErrorObj "Error" "socket hang up") <> Critical)
      by (vm_compute; discriminate).
    cbn [repeat]. repeat (constructor; [exact Hc|]). constructor. }
  split; [exact H|].
  exact (proj1 (retry_cycle [] "account_1"
                  (repeat (sampleEnv, ErrorObj "Error" "socket hang up", "client_error") 9) H)).
Defined.

(** *** Reports *)

Lemma firstn_firstn_cons {A} (n m : nat) (x : A) (l : list A) :
  (n <= m)%nat -> firstn n (firstn m (x :: l)) = firstn n (x :: firstn n l).
Proof.
  intros Hle. rewrite firstn_firstn, Nat.min_l by exact Hle.
  change (x :: firstn n l) with ([x] ++ firstn n l).
  now rewrite firstn_app_firstn_le by lia.
Qed.

Lemma handleError_log (ev : env) (context : string) (error : js_error) (st : state) :
  recentErrors (handleError ev context error st) =
  firstn maxRecentErrors
    (entryOf ev {| info_accountId := "system"; info_error := errorOrMessage error;
                   info_context := context; info_timestamp := isoNow ev |}
     :: recentErrors st).
Proof.
  unfold handleError. rewrite notifyUser_recentErrors.
  exact (addToRecentErrors_log ev _ (logError _ st)).
Qed.

(** X3: The list shown to the user holds at most 10 entries. Each handled
    error, of an account or of the application, becomes its first entry and
    moves the others down by one; the tenth drops out. *)
Theorem getRecentErrors_shifts (ev : env) (accountId context : string)
    (error : js_error) (st : state) :
  let entry who :=
    entryOf ev {| info_accountId := who; info_error := errorOrMessage error;
                  info_context := context; info_timestamp := isoNow ev |} in
  (length (getRecentErrors st) <= 10)%nat /\
  getRecentErrors (handleAccountError ev accountId error context st) =
    firstn 10 (entry accountId :: getRecentErrors st) /\
  getRecentErrors (handleError ev context error st) =
    firstn 10 (entry "system" :: getRecentErrors st) /\
  hd_error (getRecentErrors (handleAccountError ev accountId error context st)) =
    Some (entry accountId) /\
  hd_error (getRecentErrors (handleError ev context error st)) = Some (entry "system").
Proof.
  intros entry. unfold getRecentErrors.
  rewrite handleAccountError_log, handleError_log.
  change maxRecentErrors with 50%nat.
  rewrite !firstn_firstn_cons by lia.
  repeat split. apply firstn_le_length.
Qed.

Lemma filter_length_le {A} (p q : A -> bool) (l : list A) :
  (forall x, p x = true -> q x = true) ->
  (length (List.filter p l) <= length (List.filter q l))%nat.
Proof.
  intros Hpq. induction l as [|x l IH]; [reflexivity|]. cbn [List.filter].
  destruct (p x) eqn:Ep.
  - rewrite (Hpq x Ep). cbn [length]. lia.
  - destruct (q x); cbn [length]; lia.
Qed.

Lemma filter_length_all {A} (p : A -> bool) (l : list A) :
  (length (List.filter p l) <= length l)%nat.
Proof.
  induction l as [|x l IH]; [reflexivity|]. cbn [List.filter].
  destruct (p x); cbn [length]; lia.
Qed.

Lemma newerThan_mono (getTime : string -> option Z) (c1 c2 : Z) (err : recentError) :
  c2 <= c1 -> newerThan getTime c1 err = true -> newerThan getTime c2 err = true.
Proof.
  unfold newerThan. destruct (getTime (re_timestamp err)); [|discriminate].
  intros Hle H. apply Z.ltb_lt in H. apply Z.ltb_lt. lia.
Qed.

(** X4: The statistics are consistent in every state the handler reaches,
    whatever [Date] makes of the logged timestamps: the errors of the last
    hour are among those of the last day, these among the logged ones, of
    which there are at most 50, and the list shown to the user has the
    first ten of them. *)
Theorem getErrorStats_ordered (getTime : string -> option Z) (ev : env)
    (inputs : list (env * input)) :
  let st := run inputs new in
  let stats := getErrorStats getTime ev st in
  (lastHour stats <= lastDay stats)%nat /\
  (lastDay stats <= totalRecent stats)%nat /\
  (totalRecent stats <= 50)%nat /\
  length (getRecentErrors st) = Nat.min 10 (totalRecent stats).
Proof.
  intros st stats. subst stats. unfold getErrorStats. cbn [lastHour lastDay totalRecent].
  split; [|split; [|split]].
  - apply filter_length_le. intros x. apply newerThan_mono. lia.
  - apply filter_length_all.
  - apply (run_log_bounded inputs new). cbn. lia.
  - unfold getRecentErrors. apply length_firstn.
Qed.

Example stats_after_one_error :
  getErrorStats JsDate.parseIso sampleEnv
    (run [(sampleEnv, SystemError "account:list" (ErrorStr "boom"))] new) =
  {| totalRecent := 1; lastHour := 1; lastDay := 1; activeRetries := 0 |}.
Proof. vm_compute. reflexivity. Qed.

Example parseIso_values :
  JsDate.parseIso "1970-01-01T00:00:00.000Z" = Some 0 /\
  JsDate.parseIso "2023-11-14T22:13:20.000Z" = Some 1700000000000 /\
  JsDate.parseIso "2024-02-29T12:00:00.500Z" = Some 1709208000500 /\
  JsDate.parseIso "1700000000000" = None.
Proof. vm_compute. repeat split; reflexivity. Qed.

(** *** Maintenance *)

Lemma filter_sublist {A} (p : A -> bool) (l : list A) : sublist (List.filter p l) l.
Proof.
  induction l as [|x l IH]; [constructor|]. cbn [List.filter].
  destruct (p x); now constructor.
Qed.

Lemma filter_idem {A} (p : A -> bool) (l : list A) :
  List.filter p (List.filter p l) = List.filter p l.
Proof.
  induction l as [|x l IH]; [reflexivity|]. cbn [List.filter].
  destruct (p x) eqn:E; [|exact IH]. cbn [List.filter]. now rewrite E, IH.
Qed.

(** X5: [cleanup] forgets every retry counter and keeps, in their order,
    exactly the logged errors that are less than seven days old (an entry
    whose timestamp is no date goes); a second [cleanup] at the same time
    changes nothing. It cancels no timer: a retry scheduled earlier still
    fires afterwards and sends [account:retry]. *)
Theorem cleanup_effect (getTime : string -> option Z) (ev : env) (st : state) :
  let cutoff := now ev - 604800000 in
  let st' := cleanup getTime ev st in
  (forall accountId, retriesOf st' accountId = 0) /\
  sublist (recentErrors st') (recentErrors st) /\
  (forall err, In err (recentErrors st') <->
     In err (recentErrors st) /\
     exists t, getTime (re_timestamp err) = Some t /\ cutoff < t) /\
  cleanup getTime ev st' = st' /\
  trace st' = trace st /\
  (forall (ev2 : env) (accountId : string),
     mainWindow ev2 = true ->
     trace (step st' (ev2, TimerFires (RetryAccountConnection accountId))) =
       trace st ++ [WindowSend "account:retry" (AccountRetry accountId)]).
Proof.
  intros cutoff st'. subst st'. unfold cleanup, clearOldErrors.
  cbn [retryAttempts recentErrors trace setRecent setRetries].
  change (now ev - 7 * 24 * 60 * 60 * 1000) with cutoff.
  split; [|split; [|split; [|split; [|split]]]].
  - intros accountId. unfold retriesOf. cbn [retryAttempts setRecent setRetries].
    now rewrite lookup_empty.
  - apply filter_sublist.
  - intros err. rewrite filter_In. unfold newerThan.
    split; intros [Hin H]; (split; [exact Hin|]).
    + destruct (getTime (re_timestamp err)) as [t|]; [|discriminate].
      exists t. split; [reflexivity|]. now apply Z.ltb_lt.
    + destruct H as [t [-> Ht]]. now apply Z.ltb_lt.
  - unfold setRecent, setRetries. cbn [retryAttempts recentErrors trace].
    now rewrite filter_idem.
  - reflexivity.
  - intros ev2 accountId Hw. cbn [step]. unfold retryAccountConnection. now rewrite Hw.
Qed.

Lemma cleanup_effect_witness :
  mainWindow sampleEnv = true /\
  trace (step (cleanup JsDate.parseIso sampleEnv new)
           (sampleEnv, TimerFires (RetryAccountConnection "account_1"))) =
    [WindowSend "account:retry" (AccountRetry "account_1")].
Proof.
  assert (H : mainWindow sampleEnv = true) by reflexivity.
  split; [exact H|].
  exact (proj2 (proj2 (proj2 (proj2 (proj2
    (cleanup_effect JsDate.parseIso sampleEnv new))))) sampleEnv "account_1" H).
Defined.

End ErrorReportsFacts.

(** ** The account manager: listeners and the remaining operations *)
Section AccountOpsFacts.
Import JsString Js AccountManager AccountOps.

(** *** Listeners *)

Lemma sendToWindow_manager (window : bool) (channel : string) (p : payload) (w : world) :
  manager (sendToWindow window channel p w) = manager w.
Proof. unfold sendToWindow. destruct window; reflexivity. Qed.

Lemma sendToWindow_outputs (window : bool) (channel : string) (p : payload) (w : world) :
  outputs (sendToWindow window channel p w) =
  outputs w ++ (if window then [WindowSend channel p] else []).
Proof. unfold sendToWindow. destruct window; cbn; [reflexivity | now rewrite app_nil_r]. Qed.

Lemma onClientEvent_lookup (window : bool) (accountId : string) (ev : clientEvent)
    (w : world) (account : accountInfo) :
  accounts (manager w) !! accountId = Some account ->
  exists account',
    accounts (manager (onClientEvent window accountId ev w)) !! accountId = Some account' /\
    isActive account' = activeAfter [ev] (isActive account) /\
    isAuthenticated account' = isAuthenticated account || authenticates ev /\
    accountClient account' = accountClient account /\
    messageCache (ui account') = messageCache (ui account) /\
    dataPath account' = dataPath account /\
    chromeProfilePath account' = chromeProfilePath account.
Proof.
  intros Hacc.
  destruct ev; cbn [onClientEvent]; rewrite ?sendToWindow_manager;
    cbn [manager updateAccount accounts];
    rewrite ?lookup_alter_eq, Hacc; cbn;
    eexists; (split; [reflexivity|]); cbn;
    rewrite ?orb_false_r, ?orb_true_r; repeat split.
Qed.

Lemma onClientEvent_other (window : bool) (accountId other : string) (ev : clientEvent)
    (w : world) :
  other <> accountId ->
  accounts (manager (onClientEvent window accountId ev w)) !! other =
  accounts (manager w) !! other.
Proof.
  intros Hne.
  destruct ev; cbn [onClientEvent]; rewrite ?sendToWindow_manager;
    cbn [manager updateAccount accounts]; try reflexivity;
    now rewrite lookup_alter_ne by congruence.
Qed.

Lemma onClientEvent_outputs (window : bool) (accountId : string) (ev : clientEvent)
    (w : world) :
  exists added,
    outputs (onClientEvent window accountId ev w) = outputs w ++ added /\
    Forall (fun o => exists channel p, o = WindowSend channel p /\
                                       payloadAccount p = accountId) added /\
    (window = false -> added = []).
Proof.
  destruct ev; cbn [onClientEvent]; rewrite ?sendToWindow_outputs;
    cbn [outputs updateAccount];
    try (exists []; rewrite app_nil_r; repeat split; constructor);
    (eexists; split; [reflexivity|]; split;
     [destruct window; repeat constructor; eauto | intros ->; reflexivity]).
Qed.

Lemma deliver_cons (window : bool) (accountId : string) (ev : clientEvent)
    (evs : list clientEvent) (w : world) :
  deliver window accountId (ev :: evs) w =
  deliver window accountId evs (onClientEvent window accountId ev w).
Proof. reflexivity. Qed.

Lemma activeAfter_cons (ev : clientEvent) (evs : list clientEvent) (b : bool) :
  activeAfter (ev :: evs) b = activeAfter evs (activeAfter [ev] b).
Proof. destruct ev; reflexivity. Qed.

Lemma deliver_lookup (window : bool) (accountId : string) (evs : list clientEvent)
    (w : world) (account : accountInfo) :
  accounts (manager w) !! accountId = Some account ->
  exists account',
    accounts (manager (deliver window accountId evs w)) !! accountId = Some account' /\
    isActive account' = activeAfter evs (isActive account) /\
    isAuthenticated account' = isAuthenticated account || existsb authenticates evs /\
    accountClient account' = accountClient account /\
    messageCache (ui account') = messageCache (ui account) /\
    dataPath account' = dataPath account /\
    chromeProfilePath account' = chromeProfilePath account.
Proof.
  revert w account; induction evs as [|ev evs IH]; intros w account Hacc.
  - exists account. cbn. rewrite orb_false_r. repeat split. exact Hacc.
  - rewrite deliver_cons.
    destruct (onClientEvent_lookup window accountId ev w account Hacc)
      as (a1 & H1 & Hact & Hauth & Hc & Hm & Hd & Hp).
    destruct (IH _ _ H1) as (a2 & H2 & Hact2 & Hauth2 & Hc2 & Hm2 & Hd2 & Hp2).
    exists a2. split; [exact H2|].
    rewrite Hact2, Hauth2, Hc2, Hm2, Hd2, Hp2, Hact, Hauth, Hc, Hm, Hd, Hp.
    rewrite <- activeAfter_cons. cbn [existsb]. rewrite orb_assoc. repeat split.
Qed.

Lemma deliver_other (window : bool) (accountId other : string) (evs : list clientEvent)
    (w : world) :
  other <> accountId ->
  accounts (manager (deliver window accountId evs w)) !! other =
  accounts (manager w) !! other.
Proof.
  intros Hne. revert w; induction evs as [|ev evs IH]; intros w; [reflexivity|].
  rewrite deliver_cons, IH. now apply onClientEvent_other.
Qed.

Lemma onClientEvent_frame (window : bool) (accountId : string) (ev : clientEvent)
    (w : world) :
  activeAccount (manager (onClientEvent window accountId ev w)) = activeAccount (manager w) /\
  directories (manager (onClientEvent window accountId ev w)) = directories (manager w) /\
  effects (manager (onClientEvent window accountId ev w)) = effects (manager w) /\
  dom (accounts (manager (onClientEvent window accountId ev w))) = dom (accounts (manager w)).
Proof.
  destruct ev; cbn [onClientEvent]; rewrite ?sendToWindow_manager;
    cbn [manager updateAccount accounts activeAccount directories effects];
    repeat split; try reflexivity; apply dom_alter_L.
Qed.

Lemma deliver_frame (window : bool) (accountId : string) (evs : list clientEvent)
    (w : world) :
  activeAccount (manager (deliver window accountId evs w)) = activeAccount (manager w) /\
  directories (manager (deliver window accountId evs w)) = directories (manager w) /\
  effects (manager (deliver window accountId evs w)) = effects (manager w) /\
  dom (accounts (manager (deliver window accountId evs w))) = dom (accounts (manager w)).
Proof.
  revert w; induction evs as [|ev evs IH]; intros w; [repeat split|].
  rewrite deliver_cons.
  destruct (IH (onClientEvent window accountId ev w)) as (H1 & H2 & H3 & H4).
  destruct (onClientEvent_frame window accountId ev w) as (G1 & G2 & G3 & G4).
  rewrite H1, H2, H3, H4. repeat split; assumption.
Qed.

Lemma deliver_outputs (window : bool) (accountId : string) (evs : list clientEvent)
    (w : world) :
  exists added,
    outputs (deliver window accountId evs w) = outputs w ++ added /\
    Forall (fun o => exists channel p, o = WindowSend channel p /\
                                       payloadAccount p = accountId) added /\
    (window = false -> added = []).
Proof.
  revert w; induction evs as [|ev evs IH]; intros w.
  - exists []. cbn. rewrite app_nil_r. repeat split. constructor.
  - rewrite deliver_cons.
    destruct (IH (onClientEvent window accountId ev w)) as (a2 & E2 & F2 & N2).
    destruct (onClientEvent_outputs window accountId ev w) as (a1 & E1 & F1 & N1).
    exists (a1 ++ a2). rewrite E2, E1, app_assoc. split; [reflexivity|].
    split; [now apply Forall_app|].
    intros Hw. now rewrite N1, N2.
Qed.

(** How [sendMessage] and [getQRCode] decide on the flags of an account. *)
Lemma sendMessage_gate (now : Z) (reply : completion string)
    (id phoneNumber messageText : string) (account : accountInfo) (st : AccountManager.manager) :
  accounts st !! id = Some account ->
  (isActive account && isAuthenticated account = false ->
   sendMessage now reply id phoneNumber messageText st =
     (Throw ("Account " +:+ id +:+ " is not ready"), st)) /\
  (isActive account && isAuthenticated account = true ->
   effects (snd (sendMessage now reply id phoneNumber messageText st)) =
     effects st ++
     [ClientSendMessage (clientId (accountClient account))
        (replaceNonDigits phoneNumber +:+ "@c.us") messageText]).
Proof.
  intros Hacc. unfold sendMessage, bind, get, throw, emit, modify, setAccount, ret.
  rewrite Hacc. destruct (isActive account), (isAuthenticated account); cbn;
    split; try discriminate; try reflexivity; intros _; destruct reply; reflexivity.
Qed.

Lemma getQRCode_guard (chrome : option string) (id : string) (account : accountInfo)
    (w : world) :
  accounts (manager w) !! id = Some account ->
  isAuthenticated account = true ->
  getQRCode chrome id w =
    (Throw ("Account " +:+ id +:+ " is already authenticated"), w).
Proof.
  intros Hacc Hauth. unfold getQRCode, bind, get, throw. now rewrite Hacc, Hauth.
Qed.

(** X6: The flags of an account follow the events of its client: it is active
    exactly when the last [ready] or [disconnected] event was [ready], and
    authenticated once [authenticated] or [ready] has been seen; nothing
    ever takes the authentication back. So [sendMessage] is refused before
    the first [ready] and again after a [disconnected], and after a
    disconnection [getQRCode] still refuses to start a new handshake. The
    events leave the client and the message buffers of the account alone. *)
Theorem listeners_track_connection (window : bool) (id : string)
    (evs : list clientEvent) (account : accountInfo) (w : world) :
  accounts (manager w) !! id = Some account ->
  let w' := deliver window id evs w in
  let activeNow := activeAfter evs (isActive account) in
  let authNow := isAuthenticated account || existsb authenticates evs in
  (exists account',
     accounts (manager w') !! id = Some account' /\
     isActive account' = activeNow /\ isAuthenticated account' = authNow /\
     accountClient account' = accountClient account /\
     messageCache (ui account') = messageCache (ui account)) /\
  (forall now reply phoneNumber messageText,
     activeNow && authNow = false ->
     sendMessage now reply id phoneNumber messageText (manager w') =
       (Throw ("Account " +:+ id +:+ " is not ready"), manager w')) /\
  (forall now reply phoneNumber messageText,
     activeNow && authNow = true ->
     effects (snd (sendMessage now reply id phoneNumber messageText (manager w'))) =
       effects (manager w) ++
       [ClientSendMessage (clientId (accountClient account))
          (replaceNonDigits phoneNumber +:+ "@c.us") messageText]) /\
  (forall chrome,
     authNow = true ->
     getQRCode chrome id w' =
       (Throw ("Account " +:+ id +:+ " is already authenticated"), w')).
Proof.
  intros Hacc w' activeNow authNow.
  destruct (deliver_lookup window id evs w account Hacc)
    as (a' & Ha' & Hact & Hauth & Hc & Hm & _).
  fold w' in Ha'. fold activeNow in Hact. fold authNow in Hauth.
  destruct (deliver_frame window id evs w) as (_ & _ & He & _). fold w' in He.
  split; [exists a'; repeat split; assumption|].
  split; [|split].
  - intros now reply phoneNumber messageText Hgate.
    apply (sendMessage_gate now reply id phoneNumber messageText a' _ Ha').
    now rewrite Hact, Hauth.
  - intros now reply phoneNumber messageText Hgate.
    rewrite <- He, <- Hc.
    apply (sendMessage_gate now reply id phoneNumber messageText a' _ Ha').
    now rewrite Hact, Hauth.
  - intros chrome Hgate. apply (getQRCode_guard chrome id a' w' Ha'). now rewrite Hauth.
Qed.

Lemma listeners_track_connection_witness :
  accounts (manager oneAccountWorld) !! "account_1" = Some firstAccount /\
  getQRCode None "account_1"
    (deliver true "account_1" [EvQr "2@kT9"; EvAuthenticated; EvReady; EvDisconnected "LOGOUT"]
       oneAccountWorld) =
  (Throw "Account account_1 is already authenticated",
   deliver true "account_1" [EvQr "2@kT9"; EvAuthenticated; EvReady; EvDisconnected "LOGOUT"]
     oneAccountWorld).
Proof.
  assert (H : accounts (manager oneAccountWorld) !! "account_1" = Some firstAccount)
    by (vm_compute; reflexivity).
  split; [exact H|].
  exact (proj2 (proj2 (proj2
    (listeners_track_connection true "account_1"
       [EvQr "2@kT9"; EvAuthenticated; EvReady; EvDisconnected "LOGOUT"]
       firstAccount oneAccountWorld H))) None eq_refl).
Defined.

(** X7: The listeners and watchdog timers of one account change no other
    account, nor the active account, the directories or the set of
    registered ids; everything they send to the window carries the id of
    their own account, and without a window they send nothing. *)
Theorem listeners_isolated (window : bool) (id other : string)
    (evs : list clientEvent) (w : world) :
  other <> id ->
  let w' := deliver window id evs w in
  accounts (manager w') !! other = accounts (manager w) !! other /\
  activeAccount (manager w') = activeAccount (manager w) /\
  dom (accounts (manager w')) = dom (accounts (manager w)) /\
  (exists added,
     outputs w' = outputs w ++ added /\
     Forall (fun o => exists channel p, o = WindowSend channel p /\
                                        payloadAccount p = id) added /\
     (window = false -> added = [])) /\
  (forall hasInfo t, manager (onWatchdog window hasInfo t w) = manager w).
Proof.
  intros Hne w'. subst w'.
  destruct (deliver_frame window id evs w) as (H1 & _ & _ & H4).
  split; [now apply deliver_other|]. split; [exact H1|]. split; [exact H4|].
  split; [apply deliver_outputs|].
  intros hasInfo t. unfold onWatchdog.
  destruct hasInfo; [reflexivity|]. destruct t; apply sendToWindow_manager.
Qed.

Lemma listeners_isolated_witness :
  "account_2" <> "account_1" /\
  accounts (manager (deliver true "account_1" [EvReady; EvDisconnected "LOGOUT"]
                       twoAccountsWorld)) !! "account_2" =
  accounts (manager twoAccountsWorld) !! "account_2".
Proof.
  assert (H : "account_2" <> "account_1") by discriminate.
  split; [exact H|].
  exact (proj1 (listeners_isolated true "account_1" "account_2"
                  [EvReady; EvDisconnected "LOGOUT"] twoAccountsWorld H)).
Defined.

(** *** Restarting the client *)

Lemma watchdogs_app (t1 t2 : list AccountManager.effect) :
  watchdogs (t1 ++ t2) = watchdogs t1 ++ watchdogs t2.
Proof. unfold watchdogs. apply omap_app. Qed.

Lemma ensureDirectory_frame (p : string) (st : AccountManager.manager) :
  exists st', ensureDirectory p st = (Return tt, st') /\
              accounts st' = accounts st /\ activeAccount st' = activeAccount st /\
              watchdogs (effects st') = watchdogs (effects st).
Proof.
  unfold ensureDirectory, bind, get, ret, emit, modify.
  destruct (existsSync p (directories st)); eexists; repeat split.
  cbn [effects]. rewrite watchdogs_app. apply app_nil_r.
Qed.

Lemma createSimpleIsolatedClient_frame (chrome : option string) (id : string)
    (st : AccountManager.manager) :
  exists c st',
    createSimpleIsolatedClient chrome id st = (Return c, st') /\
    accounts st' = accounts st /\ activeAccount st' = activeAccount st /\
    watchdogs (effects st') = watchdogs (effects st) /\
    clientId c = "account_" +:+ id /\
    authDataPath c = fst (isolationPaths id) /\
    In ("--user-data-dir=" +:+ snd (isolationPaths id)) (args c) /\
    headless c = Headless false /\ executablePath c = chrome.
Proof.
  unfold createSimpleIsolatedClient.
  unfold bind at 1.
  destruct (ensureDirectory_frame (NodePath.join ["./data/accounts"; id]) st)
    as (st1 & -> & A1 & B1 & W1).
  unfold bind at 1.
  destruct (ensureDirectory_frame
              (NodePath.join ["./data/chrome_profiles"; "chrome_" +:+ id]) st1)
    as (st2 & -> & A2 & B2 & W2).
  unfold ret. eexists. exists st2. split; [reflexivity|].
  rewrite A2, A1, B2, B1, W2, W1. repeat split.
  cbn [args]. do 7 right. left. reflexivity.
Qed.

Lemma getQRCode_runs (chrome : option string) (id : string)
    (account : accountInfo) (w : world) :
  accounts (manager w) !! id = Some account ->
  isAuthenticated account = false ->
  exists c st1,
    createSimpleIsolatedClient chrome id (manager w) = (Return c, st1) /\
    accounts st1 = accounts (manager w) /\
    watchdogs (effects st1) = watchdogs (effects (manager w)) /\
    clientId c = "account_" +:+ id /\
    authDataPath c = fst (isolationPaths id) /\
    In ("--user-data-dir=" +:+ snd (isolationPaths id)) (args c) /\
    headless c = Headless false /\ executablePath c = chrome /\
    getQRCode chrome id w =
      (Return {| init_accountId := id; init_status := "initializing";
                 init_message := "WhatsApp client is starting up..." |},
       {| manager :=
            {| accounts := alter (AccountOps.withClient c) id (accounts st1);
               activeAccount := activeAccount st1;
               directories := directories st1;
               effects := ((effects st1 ++ [HandlersRegistered (clientId c) id]) ++
                           [SetTimeout (QrTimeout id) 30000]) ++
                          [SetTimeout (CriticalTimeout id) 60000] |};
          outputs := (outputs w ++ [ClientDestroy (accountClient account)]) ++
                     [ClientInitialize c] |}).
Proof.
  intros Hacc Hauth.
  destruct (createSimpleIsolatedClient_frame chrome id (manager w))
    as (c & st1 & E & A1 & B1 & W1 & Hc1 & Hc2 & Hc3 & Hc4 & Hc5).
  exists c, st1. repeat (split; [assumption|]).
  unfold getQRCode. unfold bind at 1, get at 1. rewrite Hacc, Hauth.
  unfold bind at 1, modify at 1. unfold bind at 1, lift at 1. cbn [manager send].
  rewrite E. reflexivity.
Qed.

(** X8: For a registered account that is not authenticated, [getQRCode]
    answers ["initializing"] at once: it destroys the client of the account
    and starts a new, visible one that is bound to the same client id and
    the same two isolation paths, and changes nothing else of the account.
    Each call sets two more watchdog timers. *)
Theorem getQRCode_restarts_client (chrome : option string) (id : string)
    (account : accountInfo) (w : world) :
  accounts (manager w) !! id = Some account ->
  isAuthenticated account = false ->
  let result := getQRCode chrome id w in
  let w' := snd result in
  fst result =
    Return {| init_accountId := id; init_status := "initializing";
              init_message := "WhatsApp client is starting up..." |} /\
  (exists c,
     accounts (manager w') = <[id := AccountOps.withClient c account]> (accounts (manager w)) /\
     clientId c = "account_" +:+ id /\
     authDataPath c = fst (isolationPaths id) /\
     In ("--user-data-dir=" +:+ snd (isolationPaths id)) (args c) /\
     headless c = Headless false /\ executablePath c = chrome /\
     outputs w' = outputs w ++ [ClientDestroy (accountClient account); ClientInitialize c]) /\
  watchdogs (effects (manager w')) =
    watchdogs (effects (manager w)) ++ [(QrTimeout id, 30000); (CriticalTimeout id, 60000)].
Proof.
  intros Hacc Hauth result w'. subst w' result.
  destruct (getQRCode_runs chrome id account w Hacc Hauth)
    as (c & st1 & E & A1 & W1 & Hc1 & Hc2 & Hc3 & Hc4 & Hc5 & ->).
  cbn [fst snd manager outputs accounts effects].
  split; [reflexivity|]. split.
  - exists c. rewrite A1. repeat split; try assumption.
    + apply map_eq. intros k. destruct (decide (k = id)) as [->|Hne].
      * now rewrite lookup_alter_eq, lookup_insert_eq, Hacc.
      * now rewrite lookup_alter_ne, lookup_insert_ne by congruence.
    + now rewrite <- app_assoc.
  - rewrite !watchdogs_app, W1. cbn. now rewrite app_nil_r, <- ?app_assoc.
Qed.

Lemma getQRCode_restarts_client_witness :
  accounts (manager oneAccountWorld) !! "account_1" = Some firstAccount /\
  isAuthenticated firstAccount = false /\
  watchdogs (effects (manager (snd (getQRCode None "account_1" oneAccountWorld)))) =
    [(QrTimeout "account_1", 30000); (CriticalTimeout "account_1", 60000);
     (QrTimeout "account_1", 30000); (CriticalTimeout "account_1", 60000)].
Proof.
  assert (H1 : accounts (manager oneAccountWorld) !! "account_1" = Some firstAccount)
    by (vm_compute; reflexivity).
  assert (H2 : isAuthenticated firstAccount = false) by reflexivity.
  split; [exact H1|]. split; [exact H2|].
  exact (proj2 (proj2 (getQRCode_restarts_client None "account_1" firstAccount
                         oneAccountWorld H1 H2))).
Defined.


(** *** Switching, counting, shutting down *)

Lemma sendMessage_result_flags (now : Z) (reply : completion string)
    (id phoneNumber messageText : string) (st1 st2 : AccountManager.manager) :
  (isActive <$> accounts st1 !! id) = (isActive <$> accounts st2 !! id) ->
  (isAuthenticated <$> accounts st1 !! id) = (isAuthenticated <$> accounts st2 !! id) ->
  fst (sendMessage now reply id phoneNumber messageText st1) =
  fst (sendMessage now reply id phoneNumber messageText st2).
Proof.
  unfold sendMessage, bind, get, throw, emit, modify, setAccount, ret.
  destruct (accounts st1 !! id) as [a1|], (accounts st2 !! id) as [a2|]; cbn;
    try discriminate; [|reflexivity].
  intros [= ->] [= ->].
  destruct (isActive a2), (isAuthenticated a2); cbn; try reflexivity.
  destruct reply; reflexivity.
Qed.

(** X9: [switchAccount] fails for an unknown id and then changes nothing. For
    a registered account it returns the data of that account, makes it the
    active one and renews its time of last access; no other account and no
    flag, client or buffer changes, and what [sendMessage] answers, for any
    account, does not depend on which account is the active one. *)
Theorem switchAccount_frame (now : Z) (id : string) (st : AccountManager.manager) :
  let result := switchAccount now id st in
  match accounts st !! id with
  | None => result = (Throw ("Account " +:+ id +:+ " not found"), st)
  | Some account =>
      fst result =
        Return {| sw_accountId := id; sw_displayName := displayName account;
                  sw_isAuthenticated := isAuthenticated account;
                  sw_isActive := isActive account;
                  sw_unreadCount := unreadCount (ui account) |} /\
      activeAccount (snd result) = Some id /\
      accounts (snd result) = <[id := withLastAccessed now account]> (accounts st)
  end /\
  (forall other, other <> id -> accounts (snd result) !! other = accounts st !! other) /\
  (forall now' reply id' phoneNumber messageText,
     fst (sendMessage now' reply id' phoneNumber messageText (snd result)) =
     fst (sendMessage now' reply id' phoneNumber messageText st)).
Proof.
  intros result. subst result. unfold switchAccount, bind, get, throw, modify, ret.
  destruct (accounts st !! id) as [account|] eqn:Hacc; cbn [fst snd accounts activeAccount].
  - split; [repeat split|]. split.
    + intros other Hne. now rewrite lookup_insert_ne by congruence.
    + intros now' reply id' phoneNumber messageText.
      apply sendMessage_result_flags; cbn [accounts];
        (destruct (decide (id' = id)) as [->|Hne];
         [now rewrite lookup_insert_eq, Hacc | now rewrite lookup_insert_ne by congruence]).
  - repeat split.
Qed.

Lemma countFlags_comm (a1 a2 : accountInfo) (s : accountsStatus) :
  countFlags a1 (countFlags a2 s) = countFlags a2 (countFlags a1 s).
Proof.
  unfold countFlags. cbn.
  destruct (isActive a1), (isActive a2), (isAuthenticated a1), (isAuthenticated a2);
    reflexivity.
Qed.

Lemma getAccountsStatus_fold (st : AccountManager.manager) :
  getAccountsStatus st =
  map_fold (fun _ => countFlags)
    {| total := size (accounts st); active := 0; authenticated := 0 |} (accounts st).
Proof. reflexivity. Qed.

Lemma countFold_bounds (b : accountsStatus) (m : gmap string accountInfo) :
  let s := map_fold (fun _ : string => countFlags) b m in
  total s = total b /\
  (active b <= active s <= active b + size m)%nat /\
  (authenticated b <= authenticated s <= authenticated b + size m)%nat.
Proof.
  apply (map_fold_weak_ind
           (fun s m => total s = total b /\
                       (active b <= active s <= active b + size m)%nat /\
                       (authenticated b <= authenticated s <= authenticated b + size m)%nat)).
  - rewrite map_size_empty. cbn. lia.
  - intros i x m' r Hnone (Ht & Ha & Hu).
    rewrite map_size_insert_None by exact Hnone. unfold countFlags. cbn.
    destruct (isActive x), (isAuthenticated x); lia.
Qed.

Lemma countFold_alter (b : accountsStatus) (m : gmap string accountInfo) (id : string)
    (f : accountInfo -> accountInfo) (account : accountInfo) :
  m !! id = Some account ->
  let rest := map_fold (fun _ : string => countFlags) b (delete id m) in
  map_fold (fun _ : string => countFlags) b m = countFlags account rest /\
  map_fold (fun _ : string => countFlags) b (alter f id m) = countFlags (f account) rest.
Proof.
  intros Hacc rest. subst rest.
  assert (Hcomm : forall (m' : gmap string accountInfo) (j1 j2 : string)
                    (z1 z2 : accountInfo) (y : accountsStatus),
             j1 <> j2 -> m' !! j1 = Some z1 -> m' !! j2 = Some z2 ->
             countFlags z1 (countFlags z2 y) = countFlags z2 (countFlags z1 y))
    by (intros; apply countFlags_comm).
  split.
  - exact (map_fold_delete_L (fun _ : string => countFlags) b id account m (Hcomm m) Hacc).
  - assert (Hl : alter f id m !! id = Some (f account))
      by now rewrite lookup_alter_eq, Hacc.
    pose proof (map_fold_delete_L (fun _ : string => countFlags) b id (f account)
                  (alter f id m) (Hcomm _) Hl) as E.
    cbv beta in E. now rewrite delete_alter_eq in E.
Qed.

Lemma createAll_fresh_flags (requests : list (Z * accountData))
    (st : AccountManager.manager) :
  map_Forall (fun (_ : string) a => isActive a = false /\ isAuthenticated a = false)
    (accounts st) ->
  map_Forall (fun (_ : string) a => isActive a = false /\ isAuthenticated a = false)
    (accounts (createAll requests st)).
Proof.
  revert st; induction requests as [|r requests IH]; intros st H0; [exact H0|].
  cbn [createAll fold_left]. apply IH.
  destruct (Nat.leb_spec maxAccounts (size (accounts st))) as [Hfull|Hroom].
  - rewrite createAccount_rejects by (left; exact Hfull). exact H0.
  - destruct (accounts st !! data_accountId (snd r)) as [a|] eqn:E.
    + rewrite createAccount_rejects by (right; rewrite E; eauto). exact H0.
    + destruct (LocalAuth.idChars (data_accountId (snd r))) eqn:Hvalid.
      * destruct (createAccount_accepts (fst r) (snd r) st Hroom E Hvalid)
          as (st' & E1 & info & E2 & _ & _ & _ & _ & Hi1 & Hi2 & _).
        rewrite E1. cbn [snd]. rewrite E2. apply map_Forall_insert_2; [|exact H0].
        split; assumption.
      * destruct (createAccount_invalid (fst r) (snd r) st Hroom E Hvalid)
          as (st' & -> & Ha & _).
        cbn [snd]. now rewrite Ha.
Qed.

(** X10: The summary counts every registered account once: neither the active
    nor the authenticated accounts outnumber the registered ones, and
    accounts that were only created count as neither. An event of a client
    moves the counts by exactly what it does to the flags of its account. *)
Theorem getAccountsStatus_counts (window : bool) (id : string) (ev : clientEvent)
    (account : accountInfo) (w : world) :
  accounts (manager w) !! id = Some account ->
  let before := getAccountsStatus (manager w) in
  let after := getAccountsStatus (manager (onClientEvent window id ev w)) in
  let one (b : bool) : nat := if b then 1%nat else 0%nat in
  total before = size (accounts (manager w)) /\
  (active before <= total before)%nat /\
  (authenticated before <= total before)%nat /\
  total after = total before /\
  (active after + one (isActive account) =
     active before + one (activeAfter [ev] (isActive account)))%nat /\
  (authenticated after + one (isAuthenticated account) =
     authenticated before + one (isAuthenticated account || authenticates ev))%nat /\
  (forall dirs requests,
     getAccountsStatus (createAll requests (new dirs)) =
       {| total := size (accounts (createAll requests (new dirs)));
          active := 0; authenticated := 0 |}).
Proof.
  intros Hacc before after one.
  pose proof (countFold_bounds
                {| total := size (accounts (manager w)); active := 0; authenticated := 0 |}
                (accounts (manager w))) as (Ht & Ha & Hu).
  rewrite <- getAccountsStatus_fold in Ht, Ha, Hu. fold before in Ht, Ha, Hu.
  cbn [total active authenticated] in Ht, Ha, Hu.
  split; [exact Ht|]. split; [lia|]. split; [lia|].
  assert (Hev : exists f,
             accounts (manager (onClientEvent window id ev w)) =
               alter f id (accounts (manager w)) /\
             isActive (f account) = activeAfter [ev] (isActive account) /\
             isAuthenticated (f account) = isAuthenticated account || authenticates ev).
  { destruct ev; cbn [onClientEvent]; rewrite ?sendToWindow_manager;
      cbn [manager updateAccount accounts];
      try (exists (fun a => a); rewrite alter_id by reflexivity; cbn;
           rewrite ?orb_false_r; repeat split; fail);
      (eexists; split; [reflexivity|]; cbn; rewrite ?orb_true_r, ?orb_false_r;
       split; reflexivity). }
  destruct Hev as (f & Ealt & Hfa & Hfu).
  assert (Hsize : size (accounts (manager (onClientEvent window id ev w))) =
                  size (accounts (manager w))).
  { rewrite Ealt.
    replace (alter f id (accounts (manager w)))
      with (<[id := f account]> (accounts (manager w))).
    - apply map_size_insert_Some. rewrite Hacc. eauto.
    - apply map_eq. intros k. destruct (decide (k = id)) as [->|Hne].
      + now rewrite lookup_alter_eq, lookup_insert_eq, Hacc.
      + now rewrite lookup_alter_ne, lookup_insert_ne by congruence. }
  destruct (countFold_alter
              {| total := size (accounts (manager w)); active := 0; authenticated := 0 |}
              (accounts (manager w)) id f account Hacc) as [E1 E2].
  assert (Eb : before = countFlags account
                 (map_fold (fun _ : string => countFlags)
                    {| total := size (accounts (manager w)); active := 0;
                       authenticated := 0 |} (delete id (accounts (manager w)))))
    by (subst before; rewrite getAccountsStatus_fold; exact E1).
  assert (Ea : after = countFlags (f account)
                 (map_fold (fun _ : string => countFlags)
                    {| total := size (accounts (manager w)); active := 0;
                       authenticated := 0 |} (delete id (accounts (manager w))))).
  { subst after. rewrite getAccountsStatus_fold, Hsize, Ealt. exact E2. }
  rewrite Ea, Eb. unfold countFlags. cbn [total active authenticated].
  rewrite Hfa, Hfu. subst one. cbv beta.
  split; [reflexivity|]. split; [|split].
  - generalize (activeAfter [ev] (isActive account)). intros x.
    destruct x, (isActive account); lia.
  - destruct (authenticates ev), (isAuthenticated account); cbn; lia.
  - intros dirs requests. rewrite getAccountsStatus_fold.
    set (m := accounts (createAll requests (new dirs))).
    assert (Hall : map_Forall (fun _ a => isActive a = false /\ isAuthenticated a = false) m).
    { subst m. apply createAll_fresh_flags. cbn. apply map_Forall_empty. }
    revert Hall. generalize (size m). intros n.
    apply (map_fold_weak_ind
             (fun s m => map_Forall (fun _ a => isActive a = false /\
                                                isAuthenticated a = false) m ->
                         s = {| total := n; active := 0; authenticated := 0 |})).
    + reflexivity.
    + intros i x m' r Hnone IH Hall.
      apply map_Forall_insert in Hall as [[Hx1 Hx2] Hrest]; [|exact Hnone].
      rewrite (IH Hrest). unfold countFlags. cbn. now rewrite Hx1, Hx2.
Qed.

Lemma getAccountsStatus_counts_witness :
  accounts (manager oneAccountWorld) !! "account_1" = Some firstAccount /\
  (active (getAccountsStatus (manager (onClientEvent true "account_1" EvReady oneAccountWorld)))
   + 0 = active (getAccountsStatus (manager oneAccountWorld)) + 1)%nat.
Proof.
  assert (H : accounts (manager oneAccountWorld) !! "account_1" = Some firstAccount)
    by (vm_compute; reflexivity).
  split; [exact H|].
  exact (proj1 (proj2 (proj2 (proj2 (proj2
    (getAccountsStatus_counts true "account_1" EvReady firstAccount oneAccountWorld H)))))).
Defined.


End AccountOpsFacts.

(** ** The handshake with retries *)
Section RetryLoopFacts.
Import JsString Js AccountManager Handshake RetryLoop.

Lemma started_app (t1 t2 : list effect) : started (t1 ++ t2) = started t1 ++ started t2.
Proof. unfold started. apply omap_app. Qed.

Lemma pauses_app (t1 t2 : list effect) : pauses (t1 ++ t2) = pauses t1 ++ pauses t2.
Proof. unfold pauses. apply omap_app. Qed.

Lemma released_app (t1 t2 : list effect) : released (t1 ++ t2) = released t1 ++ released t2.
Proof. unfold released. apply omap_app. Qed.

Lemma onClientEvent_counts (env : surroundings) (c : client) (accountId : string)
    (ev : event) (st : world) :
  started (trace (onClientEvent env c accountId ev st)) = started (trace st) /\
  pauses (trace (onClientEvent env c accountId ev st)) = pauses (trace st) /\
  released (trace (onClientEvent env c accountId ev st)) = released (trace st) /\
  (accountClient <$> accounts (onClientEvent env c accountId ev st) !! accountId) =
    (accountClient <$> accounts st !! accountId).
Proof.
  destruct ev; cbn [onClientEvent]; try (repeat split; fail);
    try (destruct (mainWindow env)); cbn [trace emit updateAccount accounts];
    rewrite ?started_app, ?pauses_app, ?released_app, ?app_nil_r, ?lookup_alter_eq;
    repeat split; try (cbn; now rewrite ?app_nil_r);
    destruct (accounts st !! accountId); reflexivity.
Qed.

Lemma attend_counts (env : surroundings) (c : client) (accountId : string) (attempt : Z)
    (evs : list event) (w : HealthWaiter.waiter) (st : world) :
  let st' := snd (attend env c accountId attempt evs w st) in
  started (trace st') = started (trace st) /\
  pauses (trace st') = pauses (trace st) /\
  released (trace st') = released (trace st) /\
  (accountClient <$> accounts st' !! accountId) =
    (accountClient <$> accounts st !! accountId).
Proof.
  revert w st; induction evs as [|ev evs IH]; intros w st; [repeat split|].
  cbn [attend].
  destruct (onClientEvent_counts env c accountId ev st) as (H1 & H2 & H3 & H4).
  destruct (HealthWaiter.calls (HealthWaiter.step accountId attempt w ev)).
  - destruct (IH (HealthWaiter.step accountId attempt w ev)
                (onClientEvent env c accountId ev st)) as (G1 & G2 & G3 & G4).
    cbv zeta in *. rewrite G1, G2, G3, G4. repeat split; assumption.
  - cbn [snd]. repeat split; assumption.
Qed.

(** The wait ends as the waiter alone says. *)
Lemma attend_health_outcome (env : surroundings) (c : client) (accountId : string)
    (attempt : Z) (evs : list event) (w : HealthWaiter.waiter) (st : world) :
  HealthWaiter.pending w ->
  fst (attend env c accountId attempt evs w st) =
  hd_error (HealthWaiter.calls (HealthWaiter.run accountId attempt evs w)).
Proof.
  revert w st; induction evs as [|ev evs IH]; intros w st Hp.
  - destruct Hp as (_ & Hc & _). cbn. now rewrite Hc.
  - cbn [attend].
    change (HealthWaiter.run accountId attempt (ev :: evs) w)
      with (HealthWaiter.run accountId attempt evs (HealthWaiter.step accountId attempt w ev)).
    destruct (health_step_pending accountId attempt w ev Hp) as [E Hs].
    destruct (HealthWaiter.trigger accountId attempt w ev) as [s|]; cbn [asList] in E.
    + rewrite E. destruct (health_run_settled accountId attempt evs _ Hs) as [_ ->].
      rewrite E. reflexivity.
    + rewrite E. now apply IH.
Qed.

Lemma tryOnce_facts (env : surroundings) (accountId : string) (attempt : Z)
    (account : accountInfo) (st : world) :
  accounts st !! accountId = Some account ->
  let result := tryOnce env accountId attempt st in
  fst result = RetryLoop.waitOutcome accountId attempt (attemptEvents env attempt) /\
  started (trace (snd result)) = started (trace st) ++ [attempt] /\
  pauses (trace (snd result)) = pauses (trace st) /\
  released (trace (snd result)) = released (trace st) /\
  exists account',
    accounts (snd result) !! accountId = Some account' /\
    accountClient account' = createIsolatedClient env accountId.
Proof.
  intros Hacc result. subst result. unfold tryOnce, RetryLoop.waitForQR.
  split; [apply attend_health_outcome, health_start_pending|].
  set (c := createIsolatedClient env accountId).
  set (st1 := emit (Initialized c)
                (emit (HandlersSet c accountId)
                   (updateAccount accountId (Cascade.withClient c)
                      (emit (AttemptStarted attempt) st)))).
  destruct (attend_counts env c accountId attempt (attemptEvents env attempt)
              HealthWaiter.start st1) as (H1 & H2 & H3 & H4).
  rewrite H1, H2, H3.
  assert (T : trace st1 = ((trace st ++ [AttemptStarted attempt]) ++
                           [HandlersSet c accountId]) ++ [Initialized c]) by reflexivity.
  assert (A : accounts st1 !! accountId = Some (Cascade.withClient c account)).
  { subst st1. cbn [accounts emit updateAccount]. now rewrite lookup_alter_eq, Hacc. }
  rewrite T, !started_app, !pauses_app, !released_app. cbn.
  rewrite !app_nil_r. repeat split.
  rewrite A in H4. cbn in H4.
  destruct (accounts (snd (attend env c accountId attempt (attemptEvents env attempt)
                             HealthWaiter.start st1)) !! accountId) as [a'|];
    [|discriminate].
  exists a'. split; [reflexivity|]. now inversion H4.
Qed.

Lemma destroyClient_facts (accountId : string) (account : accountInfo) (st : world) :
  accounts st !! accountId = Some account ->
  started (trace (destroyClient accountId st)) = started (trace st) /\
  pauses (trace (destroyClient accountId st)) = pauses (trace st) /\
  released (trace (destroyClient accountId st)) =
    released (trace st) ++ [accountClient account] /\
  accounts (destroyClient accountId st) = accounts st.
Proof.
  intros Hacc. unfold destroyClient. rewrite Hacc. cbn [trace emit accounts].
  rewrite started_app, pauses_app, released_app. cbn. now rewrite !app_nil_r.
Qed.

(** One failed turn of the loop: the attempt, the release of its client and
    the pause that follows all but the last attempt. *)
Lemma failed_turn (env : surroundings) (accountId : string) (attempt : Z)
    (account : accountInfo) (st : world) :
  accounts st !! accountId = Some account ->
  let st1 := destroyClient accountId (snd (tryOnce env accountId attempt st)) in
  let st2 := if attempt <? RetryLoop.maxRetries then emit (Slept (attempt * 2000)) st1
             else st1 in
  started (trace st2) = started (trace st) ++ [attempt] /\
  pauses (trace st2) =
    pauses (trace st) ++ (if attempt <? RetryLoop.maxRetries then [attempt * 2000] else []) /\
  released (trace st2) = released (trace st) ++ [createIsolatedClient env accountId] /\
  exists account', accounts st2 !! accountId = Some account'.
Proof.
  intros Hacc st1 st2.
  destruct (tryOnce_facts env accountId attempt account st Hacc)
    as (_ & S1 & P1 & R1 & a' & Ha' & Hc').
  destruct (destroyClient_facts accountId a' _ Ha') as (S2 & P2 & R2 & A2).
  fold st1 in S2, P2, R2, A2.
  subst st2. destruct (attempt <? RetryLoop.maxRetries); cbn [trace emit accounts];
    rewrite ?started_app, ?pauses_app, ?released_app, S2, P2, R2, S1, P1, R1, Hc', A2;
    cbn; rewrite ?app_nil_r; repeat split; eauto.
Qed.

(** X12: For a registered, unauthenticated account the loop makes up to three
    attempts, each with a fresh client. It returns the result of the first
    attempt that succeeds and starts no further one; the client of a failed
    attempt is released, and the loop pauses 2 s after the first and 4 s
    after the second failure. When the third attempt fails too it throws,
    without a further pause, an error that carries the reason of the third
    failure only. *)
Theorem getQRCode_retries (env : surroundings) (id : string) (account : accountInfo)
    (st : world) :
  accounts st !! id = Some account ->
  isAuthenticated account = false ->
  let outcome n := RetryLoop.waitOutcome id n (attemptEvents env n) in
  let result := RetryLoop.getQRCode env id st in
  let c := createIsolatedClient env id in
  let shows (ns ds : list Z) (cs : list client) :=
    started (trace (snd result)) = started (trace st) ++ ns /\
    pauses (trace (snd result)) = pauses (trace st) ++ ds /\
    released (trace (snd result)) = released (trace st) ++ accountClient account :: cs in
  match outcome 1 with
  | None => fst result = None
  | Some (Resolved r) => fst result = Some (Return r) /\ shows [1] [] []
  | Some (Rejected _) =>
      match outcome 2 with
      | None => fst result = None
      | Some (Resolved r) => fst result = Some (Return r) /\ shows [1; 2] [2000] [c]
      | Some (Rejected _) =>
          match outcome 3 with
          | None => fst result = None
          | Some (Resolved r) =>
              fst result = Some (Return r) /\ shows [1; 2; 3] [2000; 4000] [c; c]
          | Some (Rejected message) =>
              fst result =
                Some (Throw ("Failed to generate QR after 3 attempts. Last error: " +:+
                             message)) /\
              shows [1; 2; 3] [2000; 4000] [c; c; c]
          end
      end
  end.
Proof.
  intros Hacc Hauth outcome result c shows. subst shows result outcome. cbv beta.
  unfold RetryLoop.getQRCode. rewrite Hacc, Hauth.
  destruct (destroyClient_facts id account st Hacc) as (S0 & P0 & R0 & A0).
  set (st0 := destroyClient id st) in *.
  assert (H0 : accounts st0 !! id = Some account) by now rewrite A0.
  change (Z.to_nat RetryLoop.maxRetries) with 3%nat. cbn [attempts].
  (* first attempt *)
  destruct (tryOnce_facts env id 1 account st0 H0) as (O1 & S1 & P1 & R1 & _).
  destruct (failed_turn env id 1 account st0 H0) as (FS1 & FP1 & FR1 & a1 & H1).
  destruct (tryOnce env id 1 st0) as [o1 st1]. cbn [fst snd] in *. rewrite <- O1.
  destruct o1 as [[r|m1]|]; cbn [fst snd];
    [rewrite S1, P1, R1, S0, P0, R0, ?app_nil_r, <- ?app_assoc; repeat split | | reflexivity].
  change (1 <? RetryLoop.maxRetries) with true in *. cbv iota in *.
  change (1 * 2000) with 2000 in *. change (1 + 1) with 2.
  set (st1' := emit (Slept 2000) (destroyClient id st1)) in *.
  (* second attempt *)
  destruct (tryOnce_facts env id 2 a1 st1' H1) as (O2 & S2 & P2 & R2 & _).
  destruct (failed_turn env id 2 a1 st1' H1) as (FS2 & FP2 & FR2 & a2 & H2).
  destruct (tryOnce env id 2 st1') as [o2 st2]. cbn [fst snd] in *. rewrite <- O2.
  destruct o2 as [[r|m2]|]; cbn [fst snd];
    [rewrite S2, P2, R2, FS1, FP1, FR1, S0, P0, R0, ?app_nil_r, <- ?app_assoc;
     repeat split | | reflexivity].
  change (2 <? RetryLoop.maxRetries) with true in *. cbv iota in *.
  change (2 * 2000) with 4000 in *. change (2 + 1) with 3.
  set (st2' := emit (Slept 4000) (destroyClient id st2)) in *.
  (* third attempt *)
  destruct (tryOnce_facts env id 3 a2 st2' H2) as (O3 & S3 & P3 & R3 & _).
  destruct (failed_turn env id 3 a2 st2' H2) as (FS3 & FP3 & FR3 & _).
  destruct (tryOnce env id 3 st2') as [o3 st3]. cbn [fst snd] in *. rewrite <- O3.
  destruct o3 as [[r|m3]|]; cbn [fst snd];
    [rewrite S3, P3, R3, FS2, FP2, FR2, FS1, FP1, FR1, S0, P0, R0, ?app_nil_r,
       <- ?app_assoc; repeat split | | reflexivity].
  change (3 <? RetryLoop.maxRetries) with false in *. cbv iota in *.
  split; [reflexivity|].
  rewrite FS3, FP3, FR3, FS2, FP2, FR2, FS1, FP1, FR1, S0, P0, R0, ?app_nil_r,
    <- ?app_assoc. repeat split.
Qed.

Lemma getQRCode_retries_witness :
  accounts RetryLoop.oneAccountWorld !! "account_1" = Some firstAccount /\
  isAuthenticated firstAccount = false /\
  fst (RetryLoop.getQRCode pageAlwaysClosed "account_1" RetryLoop.oneAccountWorld) =
    Some (Throw ("Failed to generate QR after 3 attempts. Last error: " +:+
                 "Browser page was closed unexpectedly")) /\
  pauses (trace (snd (RetryLoop.getQRCode pageAlwaysClosed "account_1"
                        RetryLoop.oneAccountWorld))) = [2000; 4000].
Proof.
  assert (H1 : accounts RetryLoop.oneAccountWorld !! "account_1" = Some firstAccount)
    by (vm_compute; reflexivity).
  assert (H2 : isAuthenticated firstAccount = false) by reflexivity.
  split; [exact H1|]. split; [exact H2|].
  pose proof (getQRCode_retries pageAlwaysClosed "account_1" firstAccount
                RetryLoop.oneAccountWorld H1 H2) as (R & _ & P & _).
  split; [exact R | exact P].
Defined.

Example second_attempt_succeeds :
  fst (RetryLoop.getQRCode secondAttemptSucceeds "account_1" RetryLoop.oneAccountWorld) =
    Some (Return (QrGenerated "account_1" "2@kT9")) /\
  started (trace (snd (RetryLoop.getQRCode secondAttemptSucceeds "account_1"
                         RetryLoop.oneAccountWorld))) = [1; 2] /\
  pauses (trace (snd (RetryLoop.getQRCode secondAttemptSucceeds "account_1"
                        RetryLoop.oneAccountWorld))) = [2000].
Proof. vm_compute. repeat split; reflexivity. Qed.

End RetryLoopFacts.

(** * The main process: failures of a handler are system errors *)

Section MainProcessFacts.
Import JsString Js AccountManager MainProcess.

Lemma handleError_frame (ev : ErrorHandler.env) (context : string)
    (error : ErrorHandler.js_error) (st : ErrorHandler.state) :
  ErrorHandler.retryAttempts (ErrorHandler.handleError ev context error st) =
    ErrorHandler.retryAttempts st /\
  ErrorHandler.scheduled (ErrorHandler.trace (ErrorHandler.handleError ev context error st)) =
    ErrorHandler.scheduled (ErrorHandler.trace st).
Proof.
  unfold ErrorHandler.handleError. split.
  - rewrite notifyUser_retryAttempts, addToRecentErrors_retryAttempts. reflexivity.
  - rewrite notifyUser_scheduled, addToRecentErrors_trace. unfold ErrorHandler.logError.
    cbn [ErrorHandler.trace ErrorHandler.emit]. rewrite scheduled_app. cbn. apply app_nil_r.
Qed.

(** What the shared [try]/[catch] does with the outcome of the operation. *)
Lemma guarded_facts {A} (ev : ErrorHandler.env) (channel : string) (op : M manager A)
    (st : app) :
  accountManager (snd (guarded ev channel op st)) = snd (op (accountManager st)) /\
  ErrorHandler.retryAttempts (errorHandler (snd (guarded ev channel op st))) =
    ErrorHandler.retryAttempts (errorHandler st) /\
  ErrorHandler.scheduled (ErrorHandler.trace (errorHandler (snd (guarded ev channel op st)))) =
    ErrorHandler.scheduled (ErrorHandler.trace (errorHandler st)) /\
  match fst (op (accountManager st)) with
  | Return data =>
      fst (guarded ev channel op st) = Success data /\
      errorHandler (snd (guarded ev channel op st)) = errorHandler st
  | Throw error =>
      fst (guarded ev channel op st) = Failure error /\
      ErrorHandler.recentErrors (errorHandler (snd (guarded ev channel op st))) =
        firstn ErrorHandler.maxRecentErrors
          (systemEntry ev channel error :: ErrorHandler.recentErrors (errorHandler st))
  end.
Proof.
  unfold guarded. destruct (op (accountManager st)) as [[data|error] m]; cbn [fst snd accountManager errorHandler].
  - repeat split.
  - destruct (handleError_frame ev channel (ErrorHandler.ErrorObj "Error" error)
                (errorHandler st)) as [Hr Hs].
    repeat split; try assumption. apply handleError_log.
Qed.

(** X13: The handler of "message:send" always answers. A send that succeeds
    answers with the record of the message, tagged with the sending account
    and addressed to the digits of the destination, and leaves the error
    handler as it is. A send that fails answers with the message of the
    error and is logged as one entry of the pseudo-account "system" in
    context "message:send"; no account of the registry is changed. In
    neither case does the handler touch a retry counter or schedule a
    reconnection. For a registered account that is not ready the answer is
    the failure "Account <id> is not ready" and the manager is untouched. *)
Theorem messageSend_reports (ev : ErrorHandler.env) (now : Z) (reply : completion string)
    (id phoneNumber text : string) (st : app) :
  let result := messageSend ev now reply id phoneNumber text st in
  let handler := errorHandler st in
  let handler' := errorHandler (snd result) in
  ErrorHandler.retryAttempts handler' = ErrorHandler.retryAttempts handler /\
  ErrorHandler.scheduled (ErrorHandler.trace handler') =
    ErrorHandler.scheduled (ErrorHandler.trace handler) /\
  match fst result with
  | Success data =>
      handler' = handler /\
      msg_accountId data = id /\
      msg_to data = replaceNonDigits phoneNumber +:+ "@c.us" /\
      msg_body data = text
  | Failure error =>
      ErrorHandler.recentErrors handler' =
        firstn ErrorHandler.maxRecentErrors
          (systemEntry ev "message:send" error :: ErrorHandler.recentErrors handler) /\
      accounts (accountManager (snd result)) = accounts (accountManager st)
  end /\
  (forall account,
     accounts (accountManager st) !! id = Some account ->
     isActive account && isAuthenticated account = false ->
     fst result = Failure ("Account " +:+ id +:+ " is not ready") /\
     accountManager (snd result) = accountManager st).
Proof.
  intros result handler handler'. subst result handler handler'. unfold messageSend.
  destruct (guarded_facts ev "message:send" (sendMessage now reply id phoneNumber text) st)
    as (Hm & Hr & Hs & Hout).
  split; [exact Hr|]. split; [exact Hs|]. split.
  - revert Hm Hout. generalize (guarded ev "message:send"
                                  (sendMessage now reply id phoneNumber text) st).
    intros [response st'] Hm. cbn [fst snd] in *. rewrite Hm. clear Hm.
    unfold sendMessage, bind, get, throw, emit, modify, setAccount, ret.
    destruct (accounts (accountManager st) !! id) as [account|]; cbn [fst snd].
    + destruct (negb (isActive account) || negb (isAuthenticated account)); cbn [fst snd].
      * intros [-> E]. split; [exact E | reflexivity].
      * destruct reply as [serialized|error]; cbn [fst snd].
        -- intros [-> E]. repeat split. exact E.
        -- intros [-> E]. split; [exact E | reflexivity].
    + intros [-> E]. split; [exact E | reflexivity].
  - intros account Hacc Hflags.
    destruct (sendMessage_gate now reply id phoneNumber text account (accountManager st) Hacc)
      as [Hnot _]. specialize (Hnot Hflags).
    rewrite Hnot in Hout, Hm. cbn [fst snd] in Hout, Hm. destruct Hout as [Hf _].
    split; assumption.
Qed.

Example messageSend_not_connected :
  fst (messageSend ErrorHandler.sampleEnv 1700000001000 (Return "true_1@c.us_3EB0")
         "account_1" "+60 12-345 6789" "hello" oneAccountApp) =
    Failure "Account account_1 is not ready" /\
  ErrorHandler.re_accountId <$>
    ErrorHandler.recentErrors
      (errorHandler (snd (messageSend ErrorHandler.sampleEnv 1700000001000
                            (Return "true_1@c.us_3EB0") "account_1" "+60 12-345 6789"
                            "hello" oneAccountApp))) = ["system"].
Proof. vm_compute. split; reflexivity. Qed.

Lemma messageSend_reports_witness :
  accounts (accountManager oneAccountApp) !! "account_1" = Some firstAccount /\
  isActive firstAccount && isAuthenticated firstAccount = false /\
  fst (messageSend ErrorHandler.sampleEnv 1700000001000 (Return "true_1@c.us_3EB0")
         "account_1" "+60 12-345 6789" "hello" oneAccountApp) =
    Failure "Account account_1 is not ready".
Proof.
  assert (H1 : accounts (accountManager oneAccountApp) !! "account_1" = Some firstAccount)
    by (vm_compute; reflexivity).
  assert (H2 : isActive firstAccount && isAuthenticated firstAccount = false)
    by reflexivity.
  split; [exact H1|]. split; [exact H2|].
  exact (proj1 (proj2 (proj2 (proj2
    (messageSend_reports ErrorHandler.sampleEnv 1700000001000 (Return "true_1@c.us_3EB0")
       "account_1" "+60 12-345 6789" "hello" oneAccountApp))) firstAccount H1 H2)).
Defined.

End MainProcessFacts.

(** * Scheduled messages and templates *)

Section AutoMessagingFacts.
Import JsString Js AccountManager AutoMessaging.

Variable parseDate : string -> date.
Variable plusDays : Z -> Z -> Z.

Lemma digitsOnly_replaceNonDigits (s : string) : digitsOnly (replaceNonDigits s) = true.
Proof.
  induction s as [|c s IH]; [reflexivity|]. cbn [replaceNonDigits].
  destruct (isDigit c) eqn:E; [|exact IH]. cbn [digitsOnly]. now rewrite E, IH.
Qed.

Lemma replaceNonDigits_digitsOnly (s : string) :
  digitsOnly s = true -> replaceNonDigits s = s.
Proof.
  induction s as [|c s IH]; [reflexivity|]. cbn [digitsOnly replaceNonDigits].
  intros [Hc Hs]%andb_prop. rewrite Hc. now rewrite IH.
Qed.

Lemma validatePhoneNumber_dialable (phone : string) :
  dialable (replaceNonDigits phone) = Preload.validatePhoneNumber phone.
Proof.
  unfold dialable, Preload.validatePhoneNumber.
  now rewrite digitsOnly_replaceNonDigits.
Qed.

Lemma delay_due (d : date) (now : Z) :
  match (fun t => t - now) <$> d with Some delay => delay <=? 0 | None => false end =
  notAfter d now.
Proof.
  destruct d as [t|]; [|reflexivity]. cbn.
  destruct (Z.leb_spec (t - now) 0), (Z.leb_spec t now); try reflexivity; lia.
Qed.

(** [startScheduledMessage] either begins the execution at once or arms
    one timer, and registers that timer under the id of the schedule. *)
Lemma startScheduledMessage_facts (now : Z) (object : nat) (m : scheduledMessage)
    (st : state) :
  objects st !! object = Some m ->
  let st' := startScheduledMessage now object st in
  manager st' = manager st /\
  objects st' = objects st /\
  scheduledMessages st' = scheduledMessages st /\
  templates st' = templates st /\
  if notAfter (sm_nextRun m) now then
    paused st' = object :: paused st /\
    timers st' = timers st /\
    activeTimeouts st' = activeTimeouts st /\
    trace st' = trace st ++ [Pause object]
  else
    paused st' = paused st /\
    timers st' = <[timersMade (trace st) := object]> (timers st) /\
    activeTimeouts st' = <[sm_id m := timersMade (trace st)]> (activeTimeouts st) /\
    trace st' = trace st ++
      [SetTimeout (timersMade (trace st)) object ((fun t => t - now) <$> sm_nextRun m)].
Proof.
  intros Hobj st'. subst st'. unfold startScheduledMessage. rewrite Hobj, delay_due.
  destruct (notAfter (sm_nextRun m) now); repeat split.
Qed.

Lemma scheduleMessage_objects (c : moment) (data : scheduleData) (st : state) :
  objects (snd (scheduleMessage parseDate plusDays c data st)) = objects st \/
  exists m,
    dialable (sm_phoneNumber m) = true /\
    objects (snd (scheduleMessage parseDate plusDays c data st)) =
      <[size (objects st) := m]> (objects st).
Proof.
  unfold scheduleMessage, bind, get, throw, modify, ret.
  destruct (findAccount (sd_accountId data) (manager st)); cbn [negb]; [|now left].
  pose proof (validatePhoneNumber_dialable (sd_phoneNumber data)) as Hd.
  unfold Preload.validatePhoneNumber in Hd.
  set (cleanPhone := replaceNonDigits (sd_phoneNumber data)) in *.
  destruct ((String.length cleanPhone <? 10)%nat || (15 <? String.length cleanPhone)%nat)
    eqn:Hbad; [now left|].
  right. cbn [fst snd].
  match goal with
  | |- context [withObjects (insert _ ?m) st] => set (obj := m)
  end.
  exists obj. split.
  - change (dialable cleanPhone = true). rewrite Hd.
    apply orb_false_elim in Hbad as [H10 H15].
    apply Nat.ltb_ge in H10, H15. apply andb_true_intro.
    split; now apply Nat.leb_le.
  - set (st1 := withScheduled _ (withObjects _ st)).
    assert (Hobj : objects st1 !! size (objects st) = Some obj)
      by (subst st1; cbn [objects withScheduled withObjects]; apply lookup_insert_eq).
    destruct (startScheduledMessage_facts (startNow c) _ obj st1 Hobj) as (_ & Ho & _).
    unfold saveScheduledMessages. cbn [objects emit]. now rewrite Ho.
Qed.

(** X14: [scheduleMessage] checks the account first and the number second, and
    accepts exactly the numbers [validatePhoneNumber] of the preload script
    accepts. A refused request changes nothing. An accepted one makes one
    object, stores it under a new id with the digits of the number, and
    either begins its execution at once (next run not after the clock) or
    arms one timer registered under the id. *)
Theorem scheduleMessage_admission (c : moment) (data : scheduleData) (st : state) :
  let result := scheduleMessage parseDate plusDays c data st in
  let st' := snd result in
  let object := size (objects st) in
  if negb (findAccount (sd_accountId data) (manager st)) then
    result = (Throw ("Account " +:+ sd_accountId data +:+ " not found"), st)
  else if negb (Preload.validatePhoneNumber (sd_phoneNumber data)) then
    result = (Throw "Invalid phone number format", st)
  else
    exists m,
      fst result = Return {| scheduleId := sm_id m; nextRun := sm_nextRun m;
                             scheduledNote := "Message scheduled successfully" |} /\
      sm_id m = "schedule_" +:+ ofNumber (idNow c) +:+ "_" +:+ random c /\
      sm_accountId m = sd_accountId data /\
      sm_phoneNumber m = replaceNonDigits (sd_phoneNumber data) /\
      dialable (sm_phoneNumber m) = true /\
      sm_nextRun m =
        calculateNextRun parseDate plusDays (sd_scheduleType data) (sd_datetime data)
          (calcNow c) /\
      sm_sendCount m = 0 /\
      manager st' = manager st /\
      objects st' = <[object := m]> (objects st) /\
      scheduledMessages st' = <[sm_id m := object]> (scheduledMessages st) /\
      if notAfter (sm_nextRun m) (startNow c) then
        paused st' = object :: paused st /\
        timers st' = timers st /\
        activeTimeouts st' = activeTimeouts st
      else
        paused st' = paused st /\
        timers st' = <[timersMade (trace st) := object]> (timers st) /\
        activeTimeouts st' = <[sm_id m := timersMade (trace st)]> (activeTimeouts st).
Proof.
  intros result st' object. subst result st' object.
  unfold scheduleMessage, bind, get, throw, modify, ret.
  destruct (findAccount (sd_accountId data) (manager st)); cbn [negb]; [|reflexivity].
  pose proof (validatePhoneNumber_dialable (sd_phoneNumber data)) as Hd.
  unfold Preload.validatePhoneNumber in *.
  set (cleanPhone := replaceNonDigits (sd_phoneNumber data)) in *.
  replace ((String.length cleanPhone <? 10)%nat || (15 <? String.length cleanPhone)%nat)
    with (negb ((10 <=? String.length cleanPhone)%nat &&
                (String.length cleanPhone <=? 15)%nat)).
  2:{ destruct (Nat.ltb_spec (String.length cleanPhone) 10),
               (Nat.leb_spec 10 (String.length cleanPhone)),
               (Nat.ltb_spec 15 (String.length cleanPhone)),
               (Nat.leb_spec (String.length cleanPhone) 15); try reflexivity; lia. }
  destruct ((10 <=? String.length cleanPhone)%nat &&
            (String.length cleanPhone <=? 15)%nat) eqn:Hvalid; cbn [negb]; [|reflexivity].
  cbn [fst snd].
  match goal with
  | |- context [withObjects (insert _ ?m) st] => set (obj := m)
  end.
  exists obj.
  set (st1 := withScheduled _ (withObjects _ st)).
  assert (Hobj : objects st1 !! size (objects st) = Some obj)
    by (subst st1; cbn [objects withScheduled withObjects]; apply lookup_insert_eq).
  destruct (startScheduledMessage_facts (startNow c) _ obj st1 Hobj)
    as (Hm & Ho & Hs & _ & Hstart).
  unfold saveScheduledMessages.
  cbn [manager objects scheduledMessages paused timers activeTimeouts emit].
  rewrite Hm, Ho, Hs.
  repeat (split; [reflexivity || exact Hd|]).
  destruct (notAfter (sm_nextRun obj) (startNow c)).
  - destruct Hstart as (-> & -> & -> & _). repeat split.
  - destruct Hstart as (-> & -> & -> & _). repeat split.
Qed.

Lemma alter_present {K : Type} `{Countable K} {A : Type} (f : A -> A) (i : K) (x : A)
    (m : gmap K A) :
  m !! i = Some x -> alter f i m = <[i := f x]> m.
Proof.
  intros Hi. apply map_eq. intros j. destruct (decide (i = j)) as [->|Hne].
  - now rewrite lookup_alter_eq, lookup_insert_eq, Hi.
  - now rewrite lookup_alter_ne, lookup_insert_ne.
Qed.

Lemma timersMade_app (t1 t2 : list effect) :
  timersMade (t1 ++ t2) = (timersMade t1 + timersMade t2)%nat.
Proof. unfold timersMade. now rewrite omap_app, length_app. Qed.

(** The step that keeps a recurring schedule going. *)
Lemma scheduleNext_facts (c : moment) (object : nat) (m : scheduledMessage) (st : state) :
  objects st !! object = Some m ->
  let m' := setNextRun (calculateNextRunRecurring plusDays m (calcNow c)) m in
  let st' := scheduleNext plusDays c object st in
  manager st' = manager st /\
  templates st' = templates st /\
  objects st' = <[object := m']> (objects st) /\
  scheduledMessages st' = scheduledMessages st /\
  timersMade (trace st') =
    (if notAfter (sm_nextRun m') (startNow c) then timersMade (trace st)
     else S (timersMade (trace st))) /\
  if notAfter (sm_nextRun m') (startNow c) then
    paused st' = object :: paused st /\
    timers st' = timers st /\
    activeTimeouts st' = activeTimeouts st
  else
    paused st' = paused st /\
    timers st' = <[timersMade (trace st) := object]> (timers st) /\
    activeTimeouts st' = <[sm_id m := timersMade (trace st)]> (activeTimeouts st).
Proof.
  intros Hobj m' st'. subst st'. unfold scheduleNext.
  set (st1 := withObjects _ st).
  assert (Ho1 : objects st1 = <[object := m']> (objects st))
    by (subst st1; cbn [objects withObjects];
        exact (alter_present
                 (fun x => setNextRun (calculateNextRunRecurring plusDays x (calcNow c)) x)
                 object m (objects st) Hobj)).
  assert (Hobj1 : objects st1 !! object = Some m')
    by (rewrite Ho1; apply lookup_insert_eq).
  destruct (startScheduledMessage_facts (startNow c) object m' st1 Hobj1)
    as (Hm & Ho & Hs & Ht & Hstart).
  change (trace st1) with (trace st) in Hstart.
  change (paused st1) with (paused st) in Hstart.
  change (timers st1) with (timers st) in Hstart.
  change (activeTimeouts st1) with (activeTimeouts st) in Hstart.
  change (sm_id m') with (sm_id m) in Hstart.
  unfold saveScheduledMessages.
  cbn [manager objects scheduledMessages templates paused timers activeTimeouts emit trace].
  rewrite Hm, Ho, Hs, Ht, Ho1.
  repeat (split; [reflexivity|]).
  rewrite timersMade_app.
  destruct (notAfter (sm_nextRun m') (startNow c)).
  - destruct Hstart as (-> & -> & -> & ->). rewrite timersMade_app. cbn.
    split; [lia|]. repeat split.
  - destruct Hstart as (-> & -> & -> & ->). rewrite timersMade_app. cbn.
    split; [lia|]. repeat split.
Qed.

(** [executeScheduledMessage] from the end of its pause on, outcome by
    outcome. *)
Lemma resumed_facts (c : moment) (object : nat) (reply : completion string)
    (m : scheduledMessage) (st : state) :
  objects st !! object = Some m ->
  let sent := sendMessage (sendNow c) reply (sm_accountId m) (sm_phoneNumber m)
                (sm_message m) (manager st) in
  let st' := executeScheduledMessage_resumed plusDays c object reply st in
  let m1 := match fst sent with
            | Return _ => setSent (stampNow c) m
            | Throw error => setFailed error (stampNow c) m
            end in
  let m2 := setNextRun (calculateNextRunRecurring plusDays m1 (calcNow c)) m1 in
  manager st' = snd sent /\
  templates st' = templates st /\
  if String.eqb (sm_scheduleType m) "once" then
    objects st' = <[object := m1]> (objects st) /\
    timers st' = timers st /\
    paused st' = paused st /\
    match fst sent with
    | Return _ =>
        scheduledMessages st' = delete (sm_id m) (scheduledMessages st) /\
        activeTimeouts st' = delete (sm_id m) (activeTimeouts st)
    | Throw _ =>
        scheduledMessages st' = scheduledMessages st /\
        activeTimeouts st' = activeTimeouts st
    end
  else
    objects st' = <[object := m2]> (objects st) /\
    scheduledMessages st' = scheduledMessages st /\
    if notAfter (sm_nextRun m2) (startNow c) then
      paused st' = object :: paused st /\
      timers st' = timers st /\
      activeTimeouts st' = activeTimeouts st
    else
      paused st' = paused st /\
      timers st' = <[timersMade (trace st) := object]> (timers st) /\
      activeTimeouts st' = <[sm_id m := timersMade (trace st)]> (activeTimeouts st).
Proof.
  intros Hobj sent st' m1 m2. subst st' m2 m1 sent.
  unfold executeScheduledMessage_resumed. rewrite Hobj.
  destruct (sendMessage (sendNow c) reply (sm_accountId m) (sm_phoneNumber m)
              (sm_message m) (manager st)) as [[serialized|error] mgr]; cbn [fst snd].
  - set (st1 := withObjects _ (withManager mgr st)).
    assert (Ho1 : objects st1 = <[object := setSent (stampNow c) m]> (objects st))
      by (subst st1; cbn [objects withObjects withManager]; now apply alter_present).
    assert (Hobj1 : objects st1 !! object = Some (setSent (stampNow c) m))
      by (rewrite Ho1; apply lookup_insert_eq).
    destruct (String.eqb (sm_scheduleType m) "once") eqn:Honce; cbn [negb].
    + destruct (mainWindow c);
        cbn [manager objects scheduledMessages templates paused timers activeTimeouts
             emit trace withScheduled withActive saveScheduledMessages];
        unfold saveScheduledMessages;
        cbn [manager objects scheduledMessages templates paused timers activeTimeouts
             emit trace withScheduled withActive];
        rewrite Ho1; repeat split.
    + destruct (scheduleNext_facts c object _ st1 Hobj1)
        as (Hm & Ht & Ho & Hs & _ & Hstart).
      rewrite Ho1, insert_insert_eq in Ho.
      change (sm_id (setSent (stampNow c) m)) with (sm_id m) in Hstart.
      destruct (mainWindow c);
        cbn [manager objects scheduledMessages templates paused timers activeTimeouts
             emit trace];
        rewrite Hm, Ht, Ho, Hs; (split; [reflexivity|]); (split; [reflexivity|]);
        (split; [reflexivity|]); (split; [reflexivity|]); exact Hstart.
  - set (st1 := withObjects _ (withManager mgr st)).
    assert (Ho1 : objects st1 = <[object := setFailed error (stampNow c) m]> (objects st))
      by (subst st1; cbn [objects withObjects withManager]; now apply alter_present).
    set (st2 := if mainWindow c then emit _ st1 else st1).
    assert (H2 : manager st2 = mgr /\ templates st2 = templates st /\
                 objects st2 = objects st1 /\
                 scheduledMessages st2 = scheduledMessages st /\
                 paused st2 = paused st /\ timers st2 = timers st /\
                 activeTimeouts st2 = activeTimeouts st /\
                 timersMade (trace st2) = timersMade (trace st)).
    { subst st2. destruct (mainWindow c);
        cbn [manager objects scheduledMessages templates paused timers activeTimeouts
             emit trace withObjects withManager];
        rewrite ?timersMade_app; cbn; rewrite ?Nat.add_0_r; repeat split. }
    destruct H2 as (Hm2 & Ht2 & Ho2 & Hs2 & Hp2 & Hti2 & Ha2 & Htm2).
    assert (Hobj2 : objects st2 !! object = Some (setFailed error (stampNow c) m))
      by (rewrite Ho2, Ho1; apply lookup_insert_eq).
    destruct (String.eqb (sm_scheduleType m) "once") eqn:Honce; cbn [negb].
    + rewrite Hm2, Ht2, Ho2, Ho1, Hs2, Hp2, Hti2, Ha2. repeat split.
    + destruct (scheduleNext_facts c object _ st2 Hobj2)
        as (Hm & Ht & Ho & Hs & _ & Hstart).
      rewrite Ho2, Ho1, insert_insert_eq in Ho.
      change (sm_id (setFailed error (stampNow c) m)) with (sm_id m) in Hstart.
      rewrite Htm2, Hp2, Hti2, Ha2 in Hstart.
      rewrite Hm, Ht, Ho, Hs, Hm2, Ht2, Hs2.
      (split; [reflexivity|]); (split; [reflexivity|]);
        (split; [reflexivity|]); (split; [reflexivity|]); exact Hstart.
Qed.

Lemma cancelScheduledMessage_runs (scheduleId : string) (st : state) :
  let result := cancelScheduledMessage scheduleId st in
  let st' := snd result in
  match scheduledMessages st !! scheduleId with
  | None =>
      result = (Throw ("Scheduled message " +:+ scheduleId +:+ " not found"), st)
  | Some _ =>
      fst result = Return {| success := true; doneNote := "Scheduled message cancelled" |} /\
      manager st' = manager st /\
      objects st' = objects st /\
      templates st' = templates st /\
      paused st' = paused st /\
      scheduledMessages st' = delete scheduleId (scheduledMessages st) /\
      activeTimeouts st' = delete scheduleId (activeTimeouts st) /\
      timers st' = match activeTimeouts st !! scheduleId with
                   | Some timeoutId => delete timeoutId (timers st)
                   | None => timers st
                   end /\
      trace st' = trace st ++
                  match activeTimeouts st !! scheduleId with
                  | Some timeoutId => [ClearTimeout timeoutId]
                  | None => []
                  end ++ [SaveSchedules]
  end.
Proof.
  intros result st'. subst result st'.
  unfold cancelScheduledMessage, bind, get, throw, modify, ret.
  destruct (scheduledMessages st !! scheduleId) as [object|]; [|reflexivity].
  destruct (activeTimeouts st !! scheduleId) as [timeoutId|] eqn:Ht; cbn; unfold saveScheduledMessages;
    cbn [manager objects scheduledMessages templates paused timers activeTimeouts emit trace
         withScheduled withActive withTimers]; repeat split.
  - now rewrite <- app_assoc.
  - symmetry. now apply delete_id.
Qed.

Lemma saveTemplate_frame (c : moment) (data : templateData) (st : state) :
  let st' := snd (saveTemplate c data st) in
  manager st' = manager st /\ objects st' = objects st /\
  scheduledMessages st' = scheduledMessages st /\ paused st' = paused st /\
  timers st' = timers st /\ activeTimeouts st' = activeTimeouts st.
Proof.
  unfold saveTemplate, bind, get, throw, modify, ret, saveTemplates.
  destruct (negb (truthy (td_name data)) || negb (truthy (td_content data)));
    cbn; repeat split.
Qed.

Lemma deleteTemplate_frame (templateId : string) (st : state) :
  let st' := snd (deleteTemplate templateId st) in
  manager st' = manager st /\ objects st' = objects st /\
  scheduledMessages st' = scheduledMessages st /\ paused st' = paused st /\
  timers st' = timers st /\ activeTimeouts st' = activeTimeouts st.
Proof.
  unfold deleteTemplate, bind, get, throw, modify, ret, saveTemplates.
  destruct (templates st !! templateId); cbn; repeat split.
Qed.

Lemma loadTemplates_objects (created1 created2 created3 : Z)
    (file : option (list template)) (st : state) :
  objects (loadTemplates created1 created2 created3 file st) = objects st.
Proof.
  assert (Hfold : forall l st0,
            objects (fold_left
                       (fun st template => withTemplates (insert (t_id template) template) st)
                       l st0) = objects st0).
  { induction l as [|t l IH]; intros st0; [reflexivity|]. cbn [fold_left]. now rewrite IH. }
  destruct file as [stored|]; cbn [loadTemplates]; [apply Hfold|].
  unfold createDefaultTemplates, saveTemplates. cbn [objects emit]. apply Hfold.
Qed.

(** Every step keeps the numbers of the stored objects dialable. *)
Lemma step_dialable (st : state) (op : operation) :
  (forall object m, objects st !! object = Some m -> dialable (sm_phoneNumber m) = true) ->
  forall object m,
    objects (step parseDate plusDays st op) !! object = Some m ->
    dialable (sm_phoneNumber m) = true.
Proof.
  intros Hinv object m. destruct op as [c data|id|c data|id|timer|c ref reply|mgr];
    cbn [step].
  - destruct (scheduleMessage_objects c data st) as [->|(m' & Hd & ->)]; [apply Hinv|].
    destruct (decide (size (objects st) = object)) as [->|Hne].
    + rewrite lookup_insert_eq. now intros [= <-].
    + rewrite lookup_insert_ne by exact Hne. apply Hinv.
  - pose proof (cancelScheduledMessage_runs id st) as Hrun. cbv zeta in Hrun.
    destruct (scheduledMessages st !! id); [|rewrite Hrun; apply Hinv].
    destruct Hrun as (_ & _ & -> & _). apply Hinv.
  - destruct (saveTemplate_frame c data st) as (_ & -> & _). apply Hinv.
  - destruct (deleteTemplate_frame id st) as (_ & -> & _). apply Hinv.
  - destruct (timers st !! timer); apply Hinv.
  - destruct (existsb (Nat.eqb ref) (paused st)); [|apply Hinv].
    set (st0 := withPaused (removeFirst ref) st).
    destruct (objects st0 !! ref) as [m0|] eqn:Href.
    + pose proof (resumed_facts c ref reply m0 st0 Href) as Hres. cbv zeta in Hres.
      destruct Hres as (_ & _ & Hres).
      assert (Hd0 : dialable (sm_phoneNumber m0) = true) by (apply (Hinv ref); exact Href).
      destruct (String.eqb (sm_scheduleType m0) "once");
        destruct Hres as (-> & _);
        (destruct (decide (ref = object)) as [->|Hne];
         [rewrite lookup_insert_eq; intros [= <-];
          destruct (fst (sendMessage _ _ _ _ _ _)); exact Hd0
         |rewrite lookup_insert_ne by exact Hne; apply Hinv]).
    + unfold executeScheduledMessage_resumed. rewrite Href. apply Hinv.
  - apply Hinv.
Qed.

Lemma run_dialable (ops : list operation) (st : state) :
  (forall object m, objects st !! object = Some m -> dialable (sm_phoneNumber m) = true) ->
  forall object m,
    objects (run parseDate plusDays ops st) !! object = Some m ->
    dialable (sm_phoneNumber m) = true.
Proof.
  revert st. induction ops as [|op ops IH]; intros st Hinv; [exact Hinv|].
  cbn [run fold_left]. apply IH. now apply step_dialable.
Qed.

Lemma resumed_sends (c : moment) (object : nat) (reply : completion string)
    (m : scheduledMessage) (account : accountInfo) (st : state) :
  objects st !! object = Some m ->
  dialable (sm_phoneNumber m) = true ->
  accounts (manager st) !! sm_accountId m = Some account ->
  isActive account && isAuthenticated account = true ->
  effects (manager (executeScheduledMessage_resumed plusDays c object reply st)) =
    effects (manager st) ++
    [ClientSendMessage (clientId (accountClient account)) (sm_phoneNumber m +:+ "@c.us")
       (sm_message m)].
Proof.
  intros Hobj Hd Hacc Hready.
  destruct (resumed_facts c object reply m st Hobj) as (-> & _).
  destruct (sendMessage_gate (sendNow c) reply (sm_accountId m) (sm_phoneNumber m)
              (sm_message m) account (manager st) Hacc) as [_ Hsend].
  rewrite (Hsend Hready).
  rewrite replaceNonDigits_digitsOnly; [reflexivity|].
  unfold dialable in Hd. now apply andb_prop in Hd as [[Hd _]%andb_prop _].
Qed.

(** X15: In an application that starts without a file of schedules, whatever
    has been scheduled, cancelled, saved or executed since, every stored
    object carries a number of 10 to 15 digits and nothing else; when its
    execution comes to send and the account is ready, the client is asked to
    send the stored text to exactly that number followed by ["@c.us"]. *)
Theorem scheduled_send_address (m0 : AccountManager.manager) (created1 created2 created3 : Z)
    (file : option (list template)) (ops : list operation) (c : moment) (object : nat)
    (reply : completion string) (m : scheduledMessage) (account : accountInfo) :
  let st := run parseDate plusDays ops (new m0 created1 created2 created3 file) in
  objects st !! object = Some m ->
  accounts (manager st) !! sm_accountId m = Some account ->
  isActive account && isAuthenticated account = true ->
  dialable (sm_phoneNumber m) = true /\
  effects (manager (executeScheduledMessage_resumed plusDays c object reply st)) =
    effects (manager st) ++
    [ClientSendMessage (clientId (accountClient account)) (sm_phoneNumber m +:+ "@c.us")
       (sm_message m)].
Proof.
  intros st Hobj Hacc Hready.
  assert (Hd : dialable (sm_phoneNumber m) = true).
  { apply (run_dialable ops (new m0 created1 created2 created3 file)) with (object := object);
      [|exact Hobj].
    intros ref x. unfold new. rewrite loadTemplates_objects. cbn [objects].
    now rewrite lookup_empty. }
  split; [exact Hd|]. now apply resumed_sends.
Qed.


(** X17: [cancelScheduledMessage] refuses an id that is not in the map and
    changes nothing then. Otherwise the id leaves the map of schedules and
    the map of timers, the timer registered under it (if any) is cleared,
    and a second cancellation is refused. Nothing else is touched: the
    objects stay as they are, and so do the executions that wait in their
    pause. *)
Theorem cancelScheduledMessage_effect (scheduleId : string) (st : state) :
  let result := cancelScheduledMessage scheduleId st in
  let st' := snd result in
  match scheduledMessages st !! scheduleId with
  | None =>
      result = (Throw ("Scheduled message " +:+ scheduleId +:+ " not found"), st)
  | Some _ =>
      fst result = Return {| success := true; doneNote := "Scheduled message cancelled" |} /\
      scheduledMessages st' = delete scheduleId (scheduledMessages st) /\
      activeTimeouts st' = delete scheduleId (activeTimeouts st) /\
      timers st' = match activeTimeouts st !! scheduleId with
                   | Some timeoutId => delete timeoutId (timers st)
                   | None => timers st
                   end /\
      objects st' = objects st /\
      paused st' = paused st /\
      manager st' = manager st /\
      fst (cancelScheduledMessage scheduleId st') =
        Throw ("Scheduled message " +:+ scheduleId +:+ " not found")
  end.
Proof.
  intros result st'. subst result st'.
  pose proof (cancelScheduledMessage_runs scheduleId st) as Hrun. cbv zeta in Hrun.
  destruct (scheduledMessages st !! scheduleId) as [object|]; [|exact Hrun].
  destruct Hrun as (Hr & Hm & Ho & _ & Hp & Hs & Ha & Ht & _).
  repeat (split; [assumption|]).
  pose proof (cancelScheduledMessage_runs scheduleId
                (snd (cancelScheduledMessage scheduleId st))) as Hagain.
  cbv zeta in Hagain. rewrite Hs, lookup_delete_eq in Hagain. now rewrite Hagain.
Qed.

Lemma existsb_In (x : nat) (l : list nat) : In x l -> existsb (Nat.eqb x) l = true.
Proof.
  intros Hin. apply existsb_exists. exists x. split; [exact Hin | apply Nat.eqb_refl].
Qed.

(** X18: A cancellation does not reach an execution that is already in its
    pause. When the pause of a recurring schedule ends after the schedule
    was cancelled, the message is still handed to the client of a ready
    account, and the schedule, though gone from the map, is started again:
    its next execution is begun or a new timer is registered under its
    id. *)
Theorem cancel_misses_running_execution (c : moment) (scheduleId : string) (object : nat)
    (reply : completion string) (m : scheduledMessage) (account : accountInfo)
    (st : state) :
  scheduledMessages st !! scheduleId = Some object ->
  objects st !! object = Some m ->
  sm_id m = scheduleId ->
  sm_scheduleType m <> "once" ->
  In object (paused st) ->
  accounts (manager st) !! sm_accountId m = Some account ->
  isActive account && isAuthenticated account = true ->
  let st1 := step parseDate plusDays st (CancelScheduledMessage scheduleId) in
  let st2 := step parseDate plusDays st1 (PauseElapsed c object reply) in
  scheduledMessages st1 !! scheduleId = None /\
  scheduledMessages st2 !! scheduleId = None /\
  effects (manager st2) =
    effects (manager st) ++
    [ClientSendMessage (clientId (accountClient account))
       (replaceNonDigits (sm_phoneNumber m) +:+ "@c.us") (sm_message m)] /\
  (In object (paused st2) \/
   exists timer, timers st2 !! timer = Some object /\
                 activeTimeouts st2 !! scheduleId = Some timer).
Proof.
  intros Hmap Hobj Hid Htype Hin Hacc Hready st1 st2. subst st2 st1. cbn [step].
  pose proof (cancelScheduledMessage_runs scheduleId st) as Hrun. cbv zeta in Hrun.
  rewrite Hmap in Hrun. destruct Hrun as (_ & Hm1 & Ho1 & _ & Hp1 & Hs1 & _).
  set (st1 := snd (cancelScheduledMessage scheduleId st)) in *.
  assert (Hgone : scheduledMessages st1 !! scheduleId = None)
    by (rewrite Hs1; apply lookup_delete_eq).
  split; [exact Hgone|].
  rewrite Hp1, (existsb_In object (paused st) Hin).
  set (st0 := withPaused (removeFirst object) st1).
  assert (Hobj0 : objects st0 !! object = Some m)
    by (subst st0; cbn [objects withPaused]; now rewrite Ho1).
  pose proof (resumed_facts c object reply m st0 Hobj0) as Hres. cbv zeta in Hres.
  destruct Hres as (Hm & _ & Hres).
  apply String.eqb_neq in Htype. rewrite Htype in Hres.
  destruct Hres as (_ & Hs & Hstart).
  split; [rewrite Hs; exact Hgone|]. split.
  - rewrite Hm. change (manager st0) with (manager st1). rewrite Hm1.
    destruct (sendMessage_gate (sendNow c) reply (sm_accountId m) (sm_phoneNumber m)
                (sm_message m) account (manager st) Hacc) as [_ Hsend].
    exact (Hsend Hready).
  - destruct (notAfter _ (startNow c)).
    + left. destruct Hstart as (-> & _). now left.
    + right. destruct Hstart as (_ & -> & ->). exists (timersMade (trace st0)).
      rewrite Hid. split; apply lookup_insert_eq.
Qed.

Lemma replaceFrom_absent (pattern replacement : string) (before s : string) :
  includes s pattern = false ->
  replaceFrom pattern replacement 0 before s = s.
Proof.
  revert before. induction s as [|ch s IH]; intros before Habsent; [reflexivity|].
  cbn [includes] in Habsent. apply orb_false_elim in Habsent as [Hhere Hlater].
  cbn [replaceFrom]. rewrite Hhere. f_equal. now apply IH.
Qed.

(** X19: A text in which none of the three placeholders occurs comes back from
    [processTemplate] as it is, whatever the variables are. *)
Theorem processTemplate_without_placeholder (c : moment) (content : string)
    (vars : variables) :
  includes content "{name}" = false ->
  includes content "{date}" = false ->
  includes content "{time}" = false ->
  processTemplate c content vars = content.
Proof.
  intros Hname Hdate Htime. unfold processTemplate, replaceAll.
  rewrite (replaceFrom_absent "{name}" _ "" content Hname).
  rewrite (replaceFrom_absent "{date}" _ "" content Hdate).
  now rewrite (replaceFrom_absent "{time}" _ "" content Htime).
Qed.

(** X20: [saveTemplate] refuses a template without a name or without a content
    and stores nothing then. A template it accepts is stored under the id it
    returns, in the category "general" unless one was given; deleting that
    id afterwards gives back the templates that were there before, provided
    the id was not in use; deleting it once more is refused. Neither
    function touches a schedule or a timer. *)
Theorem template_round_trip (c : moment) (data : templateData) (st : state) :
  let id := "template_" +:+ ofNumber (idNow c) +:+ "_" +:+ random c in
  let saved := saveTemplate c data st in
  let deleted := deleteTemplate id (snd saved) in
  scheduledMessages (snd deleted) = scheduledMessages st /\
  timers (snd deleted) = timers st /\
  if truthy (td_name data) && truthy (td_content data) then
    fst saved = Return {| templateId := id; savedNote := "Template saved successfully" |} /\
    templates (snd saved) !! id =
      Some {| t_id := id; t_name := td_name data; t_content := td_content data;
              t_category := default "general" (td_category data);
              t_created := stampNow c; t_used := 0 |} /\
    fst deleted = Return {| success := true; doneNote := "Template deleted" |} /\
    (templates st !! id = None -> templates (snd deleted) = templates st) /\
    fst (deleteTemplate id (snd deleted)) = Throw ("Template " +:+ id +:+ " not found")
  else
    saved = (Throw "Template name and content are required", st).
Proof.
  intros id saved deleted. subst deleted saved id.
  unfold saveTemplate, deleteTemplate, bind, get, throw, modify, ret, saveTemplates.
  destruct (truthy (td_name data)), (truthy (td_content data));
    cbn [negb orb andb fst snd templates withTemplates emit scheduledMessages timers];
    try (destruct (templates st !! _); cbn; repeat split; fail).
  rewrite lookup_insert_eq.
  cbn [fst snd templates withTemplates emit scheduledMessages timers].
  rewrite lookup_delete_eq. repeat split.
  intros Hfresh. now apply delete_insert_id.
Qed.

End AutoMessagingFacts.

Section AutoMessagingExamples.
Import JsString Js AccountManager AutoMessaging.

Lemma scheduled_send_address_witness :
  objects dailyScheduled !! 0%nat = Some dailyObject /\
  accounts (manager dailyScheduled) !! "account_1" = Some (readyAccount firstAccount) /\
  isActive (readyAccount firstAccount) && isAuthenticated (readyAccount firstAccount) = true /\
  effects (manager (executeScheduledMessage_resumed sampleDays sampleMoment 0
                      (Return "true_60123456789@c.us_3EB0") dailyScheduled)) =
    effects (manager dailyScheduled) ++
    [ClientSendMessage "account_account_1" "60123456789@c.us" "hello"].
Proof.
  assert (H1 : objects dailyScheduled !! 0%nat = Some dailyObject)
    by (vm_compute; reflexivity).
  assert (H2 : accounts (manager dailyScheduled) !! "account_1" =
               Some (readyAccount firstAccount)) by (vm_compute; reflexivity).
  assert (H3 : isActive (readyAccount firstAccount) &&
               isAuthenticated (readyAccount firstAccount) = true) by reflexivity.
  split; [exact H1|]. split; [exact H2|]. split; [exact H3|].
  exact (proj2 (scheduled_send_address sampleParse sampleDays oneReadyAccount
                  1700000000000 1700000000000 1700000000000 None
                  [ScheduleMessage sampleMoment (sampleSchedule "daily" "2023-11-14T22:23:20.000Z")]
                  sampleMoment 0%nat (Return "true_60123456789@c.us_3EB0") dailyObject
                  (readyAccount firstAccount) H1 H2 H3)).
Defined.


Lemma cancel_misses_running_execution_witness :
  scheduledMessages dailyRunning !! sampleId = Some 0%nat /\
  objects dailyRunning !! 0%nat = Some dailyObject /\
  sm_id dailyObject = sampleId /\
  sm_scheduleType dailyObject <> "once" /\
  In 0%nat (paused dailyRunning) /\
  accounts (manager dailyRunning) !! sm_accountId dailyObject =
    Some (readyAccount firstAccount) /\
  isActive (readyAccount firstAccount) && isAuthenticated (readyAccount firstAccount) = true /\
  scheduledMessages
    (step sampleParse sampleDays
       (step sampleParse sampleDays dailyRunning (CancelScheduledMessage sampleId))
       (PauseElapsed sampleMoment 0 (Return "true_60123456789@c.us_3EB0"))) !! sampleId =
    None.
Proof.
  assert (H1 : scheduledMessages dailyRunning !! sampleId = Some 0%nat)
    by (vm_compute; reflexivity).
  assert (H2 : objects dailyRunning !! 0%nat = Some dailyObject)
    by (vm_compute; reflexivity).
  assert (H3 : sm_id dailyObject = sampleId) by reflexivity.
  assert (H4 : sm_scheduleType dailyObject <> "once") by discriminate.
  assert (H5 : In 0%nat (paused dailyRunning)) by (vm_compute; left; reflexivity).
  assert (H6 : accounts (manager dailyRunning) !! sm_accountId dailyObject =
               Some (readyAccount firstAccount)) by (vm_compute; reflexivity).
  assert (H7 : isActive (readyAccount firstAccount) &&
               isAuthenticated (readyAccount firstAccount) = true) by reflexivity.
  repeat (split; [assumption|]).
  exact (proj1 (proj2
    (cancel_misses_running_execution sampleParse sampleDays sampleMoment sampleId 0%nat
       (Return "true_60123456789@c.us_3EB0") dailyObject (readyAccount firstAccount)
       dailyRunning H1 H2 H3 H4 H5 H6 H7))).
Defined.

Lemma processTemplate_without_placeholder_witness :
  includes "See you at 5 {pm}" "{name}" = false /\
  includes "See you at 5 {pm}" "{date}" = false /\
  includes "See you at 5 {pm}" "{time}" = false /\
  processTemplate sampleMoment "See you at 5 {pm}"
    {| v_name := "$&"; v_date := ""; v_time := "" |} = "See you at 5 {pm}".
Proof.
  assert (H1 : includes "See you at 5 {pm}" "{name}" = false) by reflexivity.
  assert (H2 : includes "See you at 5 {pm}" "{date}" = false) by reflexivity.
  assert (H3 : includes "See you at 5 {pm}" "{time}" = false) by reflexivity.
  repeat (split; [assumption|]).
  exact (processTemplate_without_placeholder sampleMoment "See you at 5 {pm}"
           {| v_name := "$&"; v_date := ""; v_time := "" |} H1 H2 H3).
Defined.

Example processTemplate_default_template :
  processTemplate sampleMoment "Good morning {name}! Hope you have a great day on {date}!"
    {| v_name := "[Name]"; v_date := "11/14/2023"; v_time := "10:13:20 PM" |} =
  "Good morning [Name]! Hope you have a great day on 11/14/2023!".
Proof. vm_compute. reflexivity. Qed.

Example processTemplate_dollar_patterns :
  processTemplate sampleMoment "Hi {name}, bye"
    {| v_name := "<$&|$`|$'|$$|$1>"; v_date := "d"; v_time := "t" |} =
  "Hi <{name}|Hi |, bye|$|$1>, bye".
Proof. vm_compute. reflexivity. Qed.

Example once_message_failure_is_final :
  let st := run sampleParse sampleDays
              [ScheduleMessage sampleMoment (sampleSchedule "once" "2023-11-14T22:23:20.000Z");
               TimerFires 0;
               ManagerChanges oneAccount;
               PauseElapsed sampleMoment 0 (Return "true_60123456789@c.us_3EB0")]
              freshApp in
  scheduledMessages st !! sampleId = Some 0%nat /\
  sm_lastError <$> objects st !! 0%nat = Some (Some "Account account_1 is not ready") /\
  timers st = ∅ /\ paused st = [].
Proof. vm_compute. repeat split; reflexivity. Qed.

Lemma template_round_trip_witness :
  templates freshApp !! sampleTemplateId = None /\
  templates (snd (deleteTemplate sampleTemplateId
                    (snd (saveTemplate sampleMoment sampleTemplate freshApp)))) =
    templates freshApp.
Proof.
  assert (H1 : templates freshApp !! sampleTemplateId = None) by (vm_compute; reflexivity).
  split; [exact H1|].
  exact (proj1 (proj2 (proj2 (proj2 (proj2 (proj2
    (template_round_trip sampleMoment sampleTemplate freshApp)))))) H1).
Defined.

End AutoMessagingExamples.
